(** * GirlTREK data entry portal: the metric catalog and the submission store

    A shallow embedding of [simplified_auth_app.py].  The catalog
    ([get_metrics_for_section], [format_value]) is pure string code; the store
    ([load_submissions], [save_submission]) rewrites one CSV file through
    pandas; the "View Submissions" page filters, sorts and exports the loaded
    frame.

    Conventions of the embedding.
    - A Python [str] is a Rocq [string]; its characters are the code points
      0..255, which is all the code distinguishes (every character the program
      tests for is ASCII).
    - A Python exception is a value [Raise e] of the [result] type; [try: ...
      except:] is [try_except].
    - A Python float is the number it denotes, kept exactly ([pyfloat]); no
      hardware float is involved. *)

From Stdlib Require Import ZArith NArith List String Ascii Bool Lia.
From Stdlib Require Import Sorted Permutation.
From Stdlib Require Import DecimalString DecimalN.
Import ListNotations.

Local Open Scope string_scope.
Local Open Scope Z_scope.

(* ================================================================= *)
(** ** Exceptions *)

Inductive exn : Type :=
| ValueError
| OverflowError
| KeyError
| IndexError
| OSError
| EmptyDataError
| ParserError.

Inductive result (A : Type) : Type :=
| Ok (a : A)
| Raise (e : exn).

Arguments Ok {A} a.
Arguments Raise {A} e.

Definition bind {A B : Type} (r : result A) (k : A -> result B) : result B :=
  match r with
  | Ok a => k a
  | Raise e => Raise e
  end.

Notation "x <- r ;; k" := (bind r (fun x => k))
  (at level 61, r at next level, right associativity).

(** [try: body / except: handler] with a bare [except], which catches
    every exception. *)
Definition try_except {A : Type} (body : result A) (handler : A) : A :=
  match body with
  | Ok a => a
  | Raise _ => handler
  end.

(* ================================================================= *)
(** ** Strings *)

Definition chr (n : nat) : ascii := ascii_of_nat n.
Definition ord (c : ascii) : nat := nat_of_ascii c.

Definition char_in (c : ascii) (cs : list ascii) : bool :=
  existsb (Ascii.eqb c) cs.

Fixpoint str_in (s : string) (l : list string) : bool :=
  match l with
  | [] => false
  | x :: l' => String.eqb s x || str_in s l'
  end.

Fixpoint contains_char (c : ascii) (s : string) : bool :=
  match s with
  | EmptyString => false
  | String d s' => Ascii.eqb c d || contains_char c s'
  end.

(** [s.endswith(c)] for a one-character suffix. *)
Fixpoint endswith_char (s : string) (c : ascii) : bool :=
  match s with
  | EmptyString => false
  | String d EmptyString => Ascii.eqb d c
  | String _ s' => endswith_char s' c
  end.

Fixpoint rev_string_onto (s acc : string) : string :=
  match s with
  | EmptyString => acc
  | String c s' => rev_string_onto s' (String c acc)
  end.

Definition rev_string (s : string) : string := rev_string_onto s EmptyString.

Fixpoint drop_while (p : ascii -> bool) (s : string) : string :=
  match s with
  | EmptyString => EmptyString
  | String c s' => if p c then drop_while p s' else s
  end.

Fixpoint take_while (p : ascii -> bool) (s : string) : string :=
  match s with
  | EmptyString => EmptyString
  | String c s' => if p c then String c (take_while p s') else EmptyString
  end.

Definition is_digit (c : ascii) : bool :=
  (48 <=? ord c)%nat && (ord c <=? 57)%nat.

Definition digit_val (c : ascii) : Z := Z.of_nat (ord c) - 48.

(** The digits of a natural number, most significant first ("0" for 0). *)
Definition digits (n : N) : string := NilZero.string_of_uint (N.to_uint n).

(** The number a string of digits denotes. *)
Fixpoint digits_val_from (acc : Z) (s : string) : Z :=
  match s with
  | EmptyString => acc
  | String c s' => digits_val_from (10 * acc + digit_val c) s'
  end.

Definition digits_val (s : string) : Z := digits_val_from 0 s.

(* ================================================================= *)
(** ** Python floats, exactly

    [float(s)] is the binary64 number nearest to the decimal [s] (ties to
    even), [int(x)] truncates it, and [format(x, ',.2f')] rounds its exact
    value to two decimals (ties to even).  All three are functions of the
    exact value, so a float is kept as sign, mantissa and binary exponent. *)

Inductive pyfloat : Type :=
| Finite (neg : bool) (m : Z) (e : Z)   (* (-1)^neg * m * 2^e, 0 <= m < 2^53 *)
| Infinite (neg : bool)
| NaN.

(** [n / d] rounded to the nearest integer, ties to even ([0 <= n], [0 < d]). *)
Definition round_half_even (n d : Z) : Z :=
  let q := n / d in
  let r := n mod d in
  match 2 * r ?= d with
  | Lt => q
  | Gt => q + 1
  | Eq => if Z.even q then q else q + 1
  end.

(** Numerator and denominator of [n / (d * 2^e)]. *)
Definition scaled (n d e : Z) : Z * Z :=
  (n * 2 ^ Z.max 0 (- e), d * 2 ^ Z.max 0 e).

(** [floor (log2 (n / d))] for [0 < n], [0 < d]. *)
Definition ilog2_ratio (n d : Z) : Z :=
  let l := Z.log2 n - Z.log2 d in
  let '(a, b) := scaled n d l in
  if a <? b then l - 1 else l.

(** The binary64 number nearest to [n / d]: 53 bits of mantissa, exponent of
    the last bit between -1074 (subnormals) and 971; what rounds to 2^1024
    or more is an infinity. *)
Definition to_double (neg : bool) (n d : Z) : pyfloat :=
  if n =? 0 then Finite neg 0 0
  else
    let e := Z.max (ilog2_ratio n d - 52) (-1074) in
    let '(a, b) := scaled n d e in
    let m := round_half_even a b in
    let '(m, e) := if m =? 2 ^ 53 then (2 ^ 52, e + 1) else (m, e) in
    if 971 <? e then Infinite neg else Finite neg m e.

(** The value [mant * 10^exp10] as a double. *)
Definition decimal_to_double (neg : bool) (mant exp10 : Z) : pyfloat :=
  if 0 <=? exp10 then to_double neg (mant * 10 ^ exp10) 1
  else to_double neg mant (10 ^ (- exp10)).

(* ----------------------------------------------------------------- *)
(** *** [float(str)] *)

(** [Py_ISSPACE]: the ASCII white space that [float] strips. *)
Definition is_space (c : ascii) : bool :=
  char_in c [chr 9; chr 10; chr 11; chr 12; chr 13; chr 32].

(** Before parsing, [float] turns the non-ASCII white space of a [str] into
    a blank; among the code points up to 255 these are U+0085 and U+00A0.
    (Any other non-ASCII character becomes ["?"], which no number contains;
    it is left as it is here, to the same effect.) *)
Definition space_to_ascii (c : ascii) : ascii :=
  if char_in c [chr 133; chr 160] then " "%char else c.

Fixpoint map_string (f : ascii -> ascii) (s : string) : string :=
  match s with
  | EmptyString => EmptyString
  | String c s' => String (f c) (map_string f s')
  end.

(** PEP 515 underscores: each must stand between two digits.  [prev] is the
    previous character of the input (NUL at the start); the result is the
    string without its underscores. *)
Fixpoint strip_underscores (prev : ascii) (s : string) : option string :=
  match s with
  | EmptyString =>
      if Ascii.eqb prev "_" then None else Some EmptyString
  | String c s' =>
      if Ascii.eqb c "_" then
        if is_digit prev then strip_underscores c s' else None
      else if Ascii.eqb prev "_" && negb (is_digit c) then None
      else option_map (String c) (strip_underscores c s')
  end.

Definition lstrip (s : string) : string := drop_while is_space s.

(** Trailing white space goes, but never the first character. *)
Definition rstrip_keep1 (s : string) : string :=
  match s with
  | EmptyString => EmptyString
  | String c s' => String c (rev_string (drop_while is_space (rev_string s')))
  end.

Definition split_sign (s : string) : bool * string :=
  match s with
  | String "-" s' => (true, s')
  | String "+" s' => (false, s')
  | _ => (false, s)
  end.

Definition lower (c : ascii) : ascii :=
  if (65 <=? ord c)%nat && (ord c <=? 90)%nat then chr (ord c + 32) else c.

(** The exponent part [[eE][+-]?digits] at the head of [s], when there is
    one: its value and what follows it. *)
Definition parse_exponent (s : string) : option (Z * string) :=
  match s with
  | String c s1 =>
      if Ascii.eqb (lower c) "e" then
        let '(neg, s2) := split_sign s1 in
        let ds := take_while is_digit s2 in
        match ds with
        | EmptyString => None
        | _ =>
            let v := digits_val ds in
            Some (if neg then - v else v, drop_while is_digit s2)
        end
      else None
  | EmptyString => None
  end.

(** [strtod]: sign, digits with an optional point (one digit at least), an
    optional exponent; all of [s] must be used. *)
Definition parse_decimal (s : string) : option pyfloat :=
  let '(neg, s0) := split_sign s in
  let ip := take_while is_digit s0 in
  let s1 := drop_while is_digit s0 in
  let '(fp, s2) :=
    match s1 with
    | String "." s1' => (take_while is_digit s1', drop_while is_digit s1')
    | _ => (EmptyString, s1)
    end in
  match ip ++ fp with
  | EmptyString => None
  | ds =>
      let '(ex, s3) :=
        match parse_exponent s2 with
        | Some r => r
        | None => (0, s2)
        end in
      match s3 with
      | EmptyString =>
          Some (decimal_to_double neg (digits_val ds)
                  (ex - Z.of_nat (String.length fp)))
      | _ => None
      end
  end.

(** ["inf"], ["infinity"] and ["nan"], in any case, with an optional sign. *)
Definition parse_inf_or_nan (s : string) : option pyfloat :=
  let '(neg, s0) := split_sign s in
  let w := map_string lower s0 in
  if String.eqb w "inf" || String.eqb w "infinity" then Some (Infinite neg)
  else if String.eqb w "nan" then Some NaN
  else None.

(** [float(value)] for a [str]; [Raise ValueError] when it is no number. *)
Definition py_float (value : string) : result pyfloat :=
  match strip_underscores (chr 0) (map_string space_to_ascii value) with
  | None => Raise ValueError
  | Some s =>
      let s := rstrip_keep1 (lstrip s) in
      match parse_decimal s with
      | Some x => Ok x
      | None =>
          match parse_inf_or_nan s with
          | Some x => Ok x
          | None => Raise ValueError
          end
      end
  end.

(* ----------------------------------------------------------------- *)
(** *** [int(float)] and the two format specifications *)

(** [int(x)]: truncation towards zero. *)
Definition py_int (x : pyfloat) : result Z :=
  match x with
  | Finite neg m e =>
      let a := if 0 <=? e then m * 2 ^ e else m / 2 ^ (- e) in
      Ok (if neg then - a else a)
  | Infinite _ => Raise OverflowError
  | NaN => Raise ValueError
  end.

(** A comma before every group of three digits, counted from the right. *)
Fixpoint group3 (s : string) : string :=
  match s with
  | EmptyString => EmptyString
  | String c rest =>
      let n := String.length rest in
      String c (if (0 <? n)%nat && (n mod 3 =? 0)%nat
                then String "," (group3 rest) else group3 rest)
  end.

(** [format(n, ',')] for an [int]. *)
Definition format_int_grouped (n : Z) : string :=
  (if n <? 0 then "-" else "") ++ group3 (digits (Z.abs_N n)).

(** The absolute value of a finite float in hundredths, rounded to the
    nearest, ties to even. *)
Definition cents (m e : Z) : Z :=
  let '(a, b) := scaled (m * 100) 1 (- e) in round_half_even a b.

Definition two_digits (n : Z) : string :=
  digits (Z.to_N (n / 10)) ++ digits (Z.to_N (n mod 10)).

(** [format(x, ',.2f')] for a [float]. *)
Definition format_float_grouped_2f (x : pyfloat) : string :=
  match x with
  | Finite neg m e =>
      let c := cents m e in
      (if neg then "-" else "")
        ++ group3 (digits (Z.to_N (c / 100))) ++ "." ++ two_digits (c mod 100)
  | Infinite neg => if neg then "-inf" else "inf"
  | NaN => "nan"
  end.

(* ================================================================= *)
(** ** The metric catalog *)

Definition get_metrics_for_section (section : string) : list string :=
  if String.eqb section "Executive Summary" then
    ["Total Membership"; "Total New Members"; "Total Contributions";
     "New Members by Age Group"; "Total Trekkers by Region"]
  else if String.eqb section "Recruitment" then
    ["Total New Members"; "New Members Age 18-30";
     "Recruitment Partnerships"; "Recruitment Events"]
  else if String.eqb section "Engagement" then
    ["Total New Crews"; "Members Walking Daily"; "Active Volunteers";
     "Documented Crew Leaders"; "Active Crew Leaders";
     "Self-Care School Registrants"]
  else if String.eqb section "Development" then
    ["Total Contributions"; "Total Grants"; "Corporate Sponsorships";
     "Store Sales"; "Other Revenue"]
  else if String.eqb section "Marketing" then
    ["Total Subscribers"; "Active Subscribers"; "Facebook Followers";
     "Instagram Followers"; "LinkedIn Followers"; "Social Media Impressions"]
  else if String.eqb section "Operations" then
    ["Budget Performance"; "ASANA Adoption"; "Audit Compliance";
     "Cybersecurity Compliance"]
  else if String.eqb section "Member Care" then
    ["Member Satisfaction Rating"; "Resolution/Responsiveness Rate";
     "New Member Stories"]
  else if String.eqb section "Advocacy" then
    ["Advocacy Briefs Published"; "Advocacy Partnerships"]
  else if String.eqb section "Impact" then
    ["Health Knowledge Change"; "Mental Well-being Change";
     "Connection Improvement"; "Weight Loss Percentage";
     "Chronic Condition Management"]
  else [].

Definition currency_metrics : list string :=
  ["Total Contributions"; "Total Grants"; "Corporate Sponsorships";
   "Store Sales"; "Other Revenue"].

Definition percentage_metrics : list string :=
  ["Member Satisfaction Rating"; "ASANA Adoption"].

(** The metrics whose input widget is a text area (lines 294-295). *)
Definition free_text_metrics : list string := ["New Member Stories"].

(** [format_value(value, metric_name)], with the exceptions its body can
    raise made explicit; the two bare [except:] clauses catch them all. *)
Definition format_value (value metric_name : string) : result string :=
  if str_in metric_name currency_metrics then
    Ok (try_except
          (x <- py_float value ;; Ok ("$" ++ format_float_grouped_2f x))
          value)
  else if str_in metric_name percentage_metrics then
    if negb (endswith_char value "%") then Ok (value ++ "%")
    else Ok value
  else
    Ok (try_except
          (x <- py_float value ;;
           n <- py_int x ;;
           Ok (format_int_grouped n))
          value).

(** The value the form stores for a metric (lines 288-298).  Which widget is
    shown depends on the metric; each widget hands over a value of its own
    type. *)
Inductive widget_value : Type :=
| SliderValue (percent : Z)          (* st.slider("Percentage Value", 0, 100, 50) *)
| DollarValue (amount : pyfloat)     (* st.number_input("Dollar Value", min_value=0.0) *)
| StoryContent (text : string)       (* st.text_area("Story Content") *)
| NumericValue (count : Z).          (* st.number_input("Numeric Value", min_value=0, step=1) *)

Definition format_int (n : Z) : string :=
  (if n <? 0 then "-" else "") ++ digits (Z.abs_N n).

Definition entered_value (metric_name : string) (v : widget_value)
  : option string :=
  if str_in metric_name percentage_metrics then
    match v with SliderValue p => Some (format_int p ++ "%") | _ => None end
  else if str_in metric_name currency_metrics then
    match v with
    | DollarValue x => Some ("$" ++ format_float_grouped_2f x)
    | _ => None
    end
  else if str_in metric_name free_text_metrics then
    match v with StoryContent s => Some s | _ => None end
  else
    match v with NumericValue n => Some (format_int_grouped n) | _ => None end.

(* ================================================================= *)
(** ** Frames and CSV text

    A pandas frame is its column labels and its rows of cells.  A cell is a
    text or missing (NaN): the cell of a frame that was read is the text of
    its field in the file.  pandas goes one step further, which this model
    leaves out: a column whose every present entry reads as a number gets a
    numeric dtype, so that the field [007] is held as the number 7 and
    [250] beside a missing value as 250.0, and is written back in that
    form.  The theorems on a file that is written and read again are
    therefore stated in what this step leaves alone: the fields of the file
    as [tokenize] splits them, the labels, the number and order of the
    rows, which cells are missing, and the columns that cannot read as
    numbers (the identifiers and time stamps the program writes).  Where a
    theorem gives the text written from a frame that was read, [to_csv]
    writes each cell as it was read. *)

Definition cell : Type := option string.

Record DataFrame : Type := {
  columns : list string;
  rows : list (list cell)
}.

Definition dquote : ascii := chr 34.
Definition comma : ascii := ","%char.
Definition LF : ascii := chr 10.
Definition CR : ascii := chr 13.
Definition TAB : ascii := chr 9.

(* ----------------------------------------------------------------- *)
(** *** Writing: [DataFrame.to_csv(index=False)]

    pandas writes through Python's [csv.writer] with the delimiter [","],
    the quote character, [doublequote], [QUOTE_MINIMAL] and the line
    terminator [os.linesep], a line feed on POSIX. *)

Definition lineterminator : string := String LF EmptyString.

(** The characters that make [QUOTE_MINIMAL] quote a field: the delimiter,
    the quote character, and the characters of the line terminator. *)
Definition special (c : ascii) : bool :=
  Ascii.eqb c comma || Ascii.eqb c dquote || contains_char c lineterminator.

Fixpoint must_quote (s : string) : bool :=
  match s with
  | EmptyString => false
  | String c s' => special c || must_quote s'
  end.

Fixpoint double_quotes (s : string) : string :=
  match s with
  | EmptyString => EmptyString
  | String c s' =>
      if Ascii.eqb c dquote then String dquote (String dquote (double_quotes s'))
      else String c (double_quotes s')
  end.

Definition quoted (s : string) : string :=
  String dquote (double_quotes s ++ String dquote EmptyString).

Definition write_field (s : string) : string :=
  if must_quote s then quoted s else s.

(** [writer.writerow]: a record that would be an empty line, that is a
    single empty field, is written quoted. *)
Definition writerow (fields : list string) : string :=
  match fields with
  | [EmptyString] => quoted EmptyString ++ lineterminator
  | _ => String.concat (String comma EmptyString) (map write_field fields)
           ++ lineterminator
  end.

(** A missing cell is written as [na_rep], the empty text. *)
Definition cell_text (c : cell) : string :=
  match c with
  | Some s => s
  | None => EmptyString
  end.

Fixpoint concat_strings (l : list string) : string :=
  match l with
  | [] => EmptyString
  | s :: l' => s ++ concat_strings l'
  end.

Definition to_csv (df : DataFrame) : string :=
  writerow (columns df)
    ++ concat_strings (map (fun r => writerow (map cell_text r)) (rows df)).

(* ----------------------------------------------------------------- *)
(** *** Reading: [pd.read_csv(path)]

    The tokenizer is pandas' C tokenizer at its defaults (delimiter [","],
    the quote character with [doublequote], no escape or comment character,
    [skip_blank_lines], any of LF, CR and CR LF ending a line).  It is a
    state machine run over the characters of the file. *)

Inductive parser_state : Type :=
| START_RECORD
| START_FIELD
| IN_FIELD
| IN_QUOTED_FIELD
| QUOTE_IN_QUOTED_FIELD
| EAT_CRNL
| EAT_CRNL_NOP
| WHITESPACE_LINE (seen : string).
  (* [seen]: the blanks and tabs read since the line began; the C code
     keeps no copy and steps back in its buffer instead. *)

Record tokenizer : Type := {
  state : parser_state;
  field : string;              (* the characters of the field being read *)
  line : list string;          (* the fields of the line being read *)
  lines : list (list string)   (* the lines read *)
}.

Definition set_state (st : parser_state) (t : tokenizer) : tokenizer :=
  {| state := st; field := field t; line := line t; lines := lines t |}.

Definition PUSH_CHAR (c : ascii) (t : tokenizer) : tokenizer :=
  {| state := state t; field := field t ++ String c EmptyString;
     line := line t; lines := lines t |}.

Definition END_FIELD (t : tokenizer) : tokenizer :=
  {| state := state t; field := EmptyString;
     line := (line t ++ [field t])%list; lines := lines t |}.

Definition END_LINE (t : tokenizer) : tokenizer :=
  {| state := START_RECORD; field := EmptyString;
     line := []; lines := (lines t ++ [line t])%list |}.

Definition IS_WHITESPACE (c : ascii) : bool :=
  Ascii.eqb c " " || Ascii.eqb c TAB.

(** The cases [START_FIELD], [IN_FIELD], [IN_QUOTED_FIELD] and
    [QUOTE_IN_QUOTED_FIELD] of [tokenize_bytes]. *)
Definition step_field (c : ascii) (t : tokenizer) : tokenizer :=
  match state t with
  | IN_FIELD =>
      if Ascii.eqb c LF then END_LINE (END_FIELD t)
      else if Ascii.eqb c CR then set_state EAT_CRNL (END_FIELD t)
      else if Ascii.eqb c comma then set_state START_FIELD (END_FIELD t)
      else PUSH_CHAR c t
  | IN_QUOTED_FIELD =>
      if Ascii.eqb c dquote then set_state QUOTE_IN_QUOTED_FIELD t
      else PUSH_CHAR c t
  | QUOTE_IN_QUOTED_FIELD =>
      if Ascii.eqb c dquote then set_state IN_QUOTED_FIELD (PUSH_CHAR c t)
      else if Ascii.eqb c comma then set_state START_FIELD (END_FIELD t)
      else if Ascii.eqb c LF then END_LINE (END_FIELD t)
      else if Ascii.eqb c CR then set_state EAT_CRNL (END_FIELD t)
      else set_state IN_FIELD (PUSH_CHAR c t)
  | _ (* START_FIELD *) =>
      if Ascii.eqb c LF then END_LINE (END_FIELD t)
      else if Ascii.eqb c CR then set_state EAT_CRNL (END_FIELD t)
      else if Ascii.eqb c dquote then set_state IN_QUOTED_FIELD t
      else if Ascii.eqb c comma then set_state START_FIELD (END_FIELD t)
      else set_state IN_FIELD (PUSH_CHAR c t)
  end.

(** The case [START_RECORD]: blank lines are skipped, a line that begins
    with blanks may turn out to be blank, anything else begins a field. *)
Definition step_record (c : ascii) (t : tokenizer) : tokenizer :=
  if Ascii.eqb c LF then set_state START_RECORD t
  else if Ascii.eqb c CR then set_state EAT_CRNL_NOP t
  else if IS_WHITESPACE c then
    set_state (WHITESPACE_LINE (String c EmptyString)) t
  else step_field c (set_state START_FIELD t).

Fixpoint run_field (s : string) (t : tokenizer) : tokenizer :=
  match s with
  | EmptyString => t
  | String c s' => run_field s' (step_field c t)
  end.

Definition step (c : ascii) (t : tokenizer) : tokenizer :=
  match state t with
  | START_RECORD => step_record c t
  | EAT_CRNL =>
      if Ascii.eqb c LF then END_LINE t
      else if Ascii.eqb c comma then
        set_state START_FIELD (END_FIELD (END_LINE t))
      else step_record c (END_LINE t)
  | EAT_CRNL_NOP =>
      if Ascii.eqb c LF || Ascii.eqb c comma then set_state START_RECORD t
      else step_record c (set_state START_RECORD t)
  | WHITESPACE_LINE seen =>
      if Ascii.eqb c LF then set_state START_RECORD t
      else if Ascii.eqb c CR then set_state EAT_CRNL_NOP t
      else if IS_WHITESPACE c then
        set_state (WHITESPACE_LINE (seen ++ String c EmptyString)) t
      else
        (* not a blank line after all: read it again from its start *)
        step_field c (run_field seen (set_state START_FIELD t))
  | _ => step_field c t
  end.

Fixpoint run (s : string) (t : tokenizer) : tokenizer :=
  match s with
  | EmptyString => t
  | String c s' => run s' (step c t)
  end.

(** [parser_handle_eof]. *)
Definition handle_eof (t : tokenizer) : result (list (list string)) :=
  match state t with
  | START_RECORD | EAT_CRNL_NOP | WHITESPACE_LINE _ => Ok (lines t)
  | IN_QUOTED_FIELD => Raise ParserError   (* EOF inside string *)
  | IN_FIELD | START_FIELD | QUOTE_IN_QUOTED_FIELD =>
      Ok (lines (END_LINE (END_FIELD t)))
  | EAT_CRNL => Ok (lines (END_LINE t))
  end.

Definition tokenizer_init : tokenizer :=
  {| state := START_RECORD; field := EmptyString; line := []; lines := [] |}.

Definition tokenize (text : string) : result (list (list string)) :=
  handle_eof (run text tokenizer_init).

(** The default [na_values] of [read_csv]. *)
Definition STR_NA_VALUES : list string :=
  [""; "#N/A"; "#N/A N/A"; "#NA"; "-1.#IND"; "-1.#QNAN"; "-NaN"; "-nan";
   "1.#IND"; "1.#QNAN"; "<NA>"; "N/A"; "NA"; "NULL"; "NaN"; "None"; "n/a";
   "nan"; "null"].

Definition na_filter (s : string) : cell :=
  if str_in s STR_NA_VALUES then None else Some s.

(** A data line shorter than the header is filled up with missing cells; a
    longer one stops the parse ("Expected n fields, saw m").  The first data
    line is the exception in pandas, and not in this model: when it is
    longer than the header, pandas takes its surplus leading fields as an
    index instead of raising.  No theorem below reads a file whose first
    data line is longer than its header and states that the read fails. *)
Fixpoint pad_line (n : nat) (l : list string) : result (list cell) :=
  match n, l with
  | O, [] => Ok []
  | O, _ :: _ => Raise ParserError
  | S n', [] => r <- pad_line n' [] ;; Ok (None :: r)
  | S n', f :: l' => r <- pad_line n' l' ;; Ok (na_filter f :: r)
  end.

Fixpoint pad_lines (n : nat) (ls : list (list string))
  : result (list (list cell)) :=
  match ls with
  | [] => Ok []
  | l :: ls' =>
      r <- pad_line n l ;;
      rs <- pad_lines n ls' ;;
      Ok (r :: rs)
  end.

(** [read_csv] stops where pandas' type inference starts (see the head of
    this section), and it keeps the header's labels as they are: pandas
    renames a repeated label ([a], [a.1]) and names an empty one
    ([Unnamed: 0]); the header the program writes has neither. *)
Definition read_csv (text : string) : result DataFrame :=
  ls <- tokenize text ;;
  match ls with
  | [] => Raise EmptyDataError        (* No columns to parse from file *)
  | header :: data =>
      rs <- pad_lines (List.length header) data ;;
      Ok {| columns := header; rows := rs |}
  end.

(* ----------------------------------------------------------------- *)
(** *** [pd.concat([a, b], ignore_index=True)] *)

Fixpoint index_of (name : string) (cols : list string) : option nat :=
  match cols with
  | [] => None
  | c :: cols' =>
      if String.eqb name c then Some O
      else option_map S (index_of name cols')
  end.

Definition cell_at (cols : list string) (r : list cell) (name : string) : cell :=
  match index_of name cols with
  | Some i => nth i r None
  | None => None
  end.

(** The labels of [a], then those of [b] that [a] lacks; each row is read
    under the new labels, a label it lacks being missing. *)
Definition concat (a b : DataFrame) : DataFrame :=
  let cols :=
    (columns a ++ filter (fun c => negb (str_in c (columns a))) (columns b))%list in
  {| columns := cols;
     rows := (map (fun r => map (cell_at (columns a) r) cols) (rows a)
              ++ map (fun r => map (cell_at (columns b) r) cols) (rows b))%list |}.

(* ================================================================= *)
(** ** The submission store *)

(** The dictionary [submission_data], in the order of its keys. *)
Record Submission : Type := {
  submission_id : string;
  timestamp : string;
  first_name : string;
  last_name : string;
  email : string;
  dashboard_section : string;
  metric_name : string;
  metric_value : string;
  notes : string
}.

Definition SUBMISSION_COLUMNS : list string :=
  ["submission_id"; "timestamp"; "first_name"; "last_name"; "email";
   "dashboard_section"; "metric_name"; "metric_value"; "notes"].

Definition submission_values (d : Submission) : list string :=
  [submission_id d; timestamp d; first_name d; last_name d; email d;
   dashboard_section d; metric_name d; metric_value d; notes d].

(** [pd.DataFrame([submission_data])]. *)
Definition frame_of_submissions (ds : list Submission) : DataFrame :=
  {| columns := SUBMISSION_COLUMNS;
     rows := map (fun d => map Some (submission_values d)) ds |}.

(** The part of the file system the program touches: the text of
    [data/submissions.csv], or [None] while the file does not exist. *)
Record World : Type := {
  submissions_file : option string
}.

(** Code that reads or writes the file takes the world and gives back the
    world it leaves, with its result or the exception it raised. *)
Definition IO (A : Type) : Type := World -> World * result A.

Definition io_ret {A : Type} (a : A) : IO A := fun w => (w, Ok a).

Definition io_bind {A B : Type} (m : IO A) (k : A -> IO B) : IO B :=
  fun w =>
    match m w with
    | (w', Ok a) => k a w'
    | (w', Raise e) => (w', Raise e)
    end.

Notation "x <~ m ;; k" := (io_bind m (fun x => k))
  (at level 61, m at next level, right associativity).

(** [os.path.exists(SUBMISSIONS_FILE)]. *)
Definition os_path_exists : IO bool :=
  fun w =>
    (w, Ok match submissions_file w with Some _ => true | None => false end).

(** [pd.read_csv(SUBMISSIONS_FILE)]. *)
Definition pd_read_csv : IO DataFrame :=
  fun w =>
    (w, match submissions_file w with
        | Some text => read_csv text
        | None => Raise OSError     (* FileNotFoundError *)
        end).

(** What can go wrong when the file is written.  [to_csv(path)] opens the
    file for writing, which creates or empties it, then writes the text:
    the open can be refused (permission denied), or the medium can give out
    once [written] characters have reached it (disk full). *)
Inductive fault : Type :=
| NoFault
| OpenFails
| WriteFails (written : nat).

Fixpoint firstn_string (n : nat) (s : string) : string :=
  match n, s with
  | S n', String c s' => String c (firstn_string n' s')
  | _, _ => EmptyString
  end.

(** [df.to_csv(SUBMISSIONS_FILE, index=False)] on the medium [f]. *)
Definition to_csv_file (f : fault) (df : DataFrame) : IO unit :=
  fun w =>
    match f with
    | NoFault => ({| submissions_file := Some (to_csv df) |}, Ok tt)
    | OpenFails => (w, Raise OSError)
    | WriteFails n =>
        ({| submissions_file := Some (firstn_string n (to_csv df)) |},
         Raise OSError)
    end.

Definition empty_submissions : DataFrame :=
  {| columns := SUBMISSION_COLUMNS; rows := [] |}.

Definition load_submissions : IO DataFrame :=
  file_exists <~ os_path_exists ;;
  if file_exists then pd_read_csv else io_ret empty_submissions.

Definition save_submission (f : fault) (submission_data : Submission)
  : IO bool :=
  submissions_df <~ load_submissions ;;
  let new_submission := frame_of_submissions [submission_data] in
  let updated_df := concat submissions_df new_submission in
  _ <~ to_csv_file f updated_df ;;
  io_ret true.

(* ----------------------------------------------------------------- *)
(** *** The submission handler (lines 305-336) *)

(** [str(uuid.uuid4())]: the 128 bits of the identifier as 32 hexadecimal
    digits, grouped 8-4-4-4-12. *)
Definition hex_digit (n : N) : ascii :=
  if (n <? 10)%N then chr (48 + N.to_nat n) else chr (87 + N.to_nat n).

Fixpoint hex (width : nat) (n : N) : string :=
  match width with
  | O => EmptyString
  | S w => hex w (n / 16) ++ String (hex_digit (n mod 16)) EmptyString
  end.

Definition uuid_str (int : N) : string :=
  let h := hex 32 int in
  substring 0 8 h ++ "-" ++ substring 8 4 h ++ "-" ++ substring 12 4 h
    ++ "-" ++ substring 16 4 h ++ "-" ++ substring 20 12 h.

(** The white space [str.split()] splits at. *)
Definition is_unicode_space (c : ascii) : bool :=
  char_in c [chr 9; chr 10; chr 11; chr 12; chr 13; chr 28; chr 29; chr 30;
             chr 31; chr 32; chr 133; chr 160].

Fixpoint split_from (cur : string) (s : string) : list string :=
  match s with
  | EmptyString =>
      match cur with EmptyString => [] | _ => [cur] end
  | String c s' =>
      if is_unicode_space c then
        match cur with
        | EmptyString => split_from EmptyString s'
        | _ => cur :: split_from EmptyString s'
        end
      else split_from (cur ++ String c EmptyString) s'
  end.

(** [s.split()]. *)
Definition split (s : string) : list string := split_from EmptyString s.

(** [st.session_state.user_info]. *)
Record UserInfo : Type := {
  user_name : string;
  user_email : string
}.

(** What the form hands over when it is submitted. *)
Record FormData : Type := {
  form_section : string;
  form_metric : string;
  form_value : string;
  form_notes : string
}.

(** What the handler takes from its environment: the 128 bits of
    [uuid.uuid4()], the reading of the clock as [strftime] prints it, and
    how the medium behaves. *)
Record Env : Type := {
  uuid4 : N;
  now : string;
  medium : fault
}.

Inductive page : Type :=
| SuccessMessage (id section metric value time : string)
| ErrorMessage (text : string).

Definition submission_of (u : UserInfo) (f : FormData) (env : Env)
  : result Submission :=
  match split (user_name u) with
  | [] => Raise IndexError
  | first :: others =>
      Ok {| submission_id := uuid_str (uuid4 env);
            timestamp := now env;
            first_name := first;
            last_name :=
              if (1 <? List.length (split (user_name u)))%nat
              then String.concat " " others else "";
            email := user_email u;
            dashboard_section := form_section f;
            metric_name := form_metric f;
            metric_value := form_value f;
            notes := form_notes f |}
  end.

(** The body of [if submitted:].  An exception leaves the handler; the
    page is then the traceback and no message of the handler's. *)
Definition handle_submit (u : UserInfo) (f : FormData) (env : Env) : IO page :=
  fun w =>
    match submission_of u f env with
    | Raise e => (w, Raise e)
    | Ok submission_data =>
        (saved <~ save_submission (medium env) submission_data ;;
         if saved : bool then
           io_ret (SuccessMessage (submission_id submission_data)
                     (form_section f) (form_metric f) (form_value f)
                     (timestamp submission_data))
         else
           io_ret (ErrorMessage "Error saving submission. Please try again."))
          w
    end.

(** The submissions of a session, one after the other. *)
Fixpoint handle_submits (es : list (UserInfo * FormData * Env)) (w : World)
  : World * list (result page) :=
  match es with
  | [] => (w, [])
  | (u, f, env) :: es' =>
      let '(w1, p) := handle_submit u f env w in
      let '(w2, ps) := handle_submits es' w1 in
      (w2, p :: ps)
  end.

(* ================================================================= *)
(** ** The "View Submissions" page *)

(** [df[name]]. *)
Definition column (df : DataFrame) (name : string) : result (list cell) :=
  match index_of name (columns df) with
  | Some i => Ok (map (fun r => nth i r None) (rows df))
  | None => Raise KeyError
  end.

(** [a == b] on cells: a missing value equals nothing. *)
Definition cell_eqb (a b : cell) : bool :=
  match a, b with
  | Some x, Some y => String.eqb x y
  | _, _ => false
  end.

(** [df[df[name] == v]]. *)
Definition select_eq (df : DataFrame) (name : string) (v : cell)
  : result DataFrame :=
  match index_of name (columns df) with
  | Some i =>
      Ok {| columns := columns df;
            rows := filter (fun r => cell_eqb (nth i r None) v) (rows df) |}
  | None => Raise KeyError
  end.

(** Lines 363-370.  The two selections come from select boxes whose first
    option is the label that stands for "no filter" and whose other options
    are the values of the column. *)
Definition apply_filters (submissions_df : DataFrame)
    (filter_section filter_metrics : cell) : result DataFrame :=
  let filtered_df := submissions_df in
  filtered_df <-
    (if negb (cell_eqb filter_section (Some "All Sections"))
     then select_eq filtered_df "dashboard_section" filter_section
     else Ok filtered_df) ;;
  if negb (cell_eqb filter_metrics (Some "All Metrics"))
  then select_eq filtered_df "metric_name" filter_metrics
  else Ok filtered_df.

(* ----------------------------------------------------------------- *)
(** *** Line 373: [sort_values(by='timestamp', ascending=False)]

    With one column to sort by, pandas sorts through [nargsort], which
    calls numpy's [argsort] with the default [kind], "quicksort".  For a
    column of texts (dtype object) that is numpy's generic
    [npy_aquicksort]: an introsort on an array of indices, [tosort], with
    a median of three as pivot, insertion sort below 17 elements and
    heapsort once the depth budget is used up.

    The C code walks one array with pointers.  Here a stretch of the
    array, [pl .. pr], is a list of its own; the explicit stack of
    stretches still to sort becomes recursion on the two sides of the
    pivot, each with the depth it was pushed with. *)

Local Open Scope list_scope.

Section Npysort.

(** [less i j]: the key of index [i] sorts before the key of index [j]
    ([cmp(v + i * elsize, v + j * elsize, arr) < 0]). *)
Variable less : nat -> nat -> bool.

Definition SMALL_QUICKSORT : nat := 16.

(** The insertion sort that finishes a short stretch.  [sorted_rev] is
    the part before [pi], last element first; [insert_back] is the inner
    [while (pj > pl && less(vi, *pk))], which moves [vi] down past every
    element that sorts after it. *)
Fixpoint insert_back (vi : nat) (sorted_rev : list nat) : list nat :=
  match sorted_rev with
  | pk :: below =>
      if less vi pk then pk :: insert_back vi below else vi :: sorted_rev
  | [] => [vi]
  end.

Fixpoint insertion_from (sorted_rev rest : list nat) : list nat :=
  match rest with
  | [] => rev sorted_rev
  | vi :: rest' => insertion_from (insert_back vi sorted_rev) rest'
  end.

Definition insertion_sort (a : list nat) : list nat := insertion_from [] a.

(** [npy_aheapsort], on the array counted from 1 as the C code does
    ([a = tosort - 1]). *)
Fixpoint set_nth (a : list nat) (p x : nat) : list nat :=
  match a, p with
  | [], _ => []
  | _ :: a', O => x :: a'
  | y :: a', S p' => y :: set_nth a' p' x
  end.

Definition hget (a : list nat) (i : nat) : nat := nth (i - 1) a O.
Definition hset (a : list nat) (i x : nat) : list nat := set_nth a (i - 1) x.

(** The inner loop [for (i = l, j = l << 1; j <= n;) ...] followed by
    [a[i] = tmp]: [tmp] sinks from [i] to its place in the heap [a[1..n]].
    [i] at least doubles in each round, so [fuel = n] rounds are enough. *)
Fixpoint sift (fuel : nat) (a : list nat) (tmp i n : nat) : list nat :=
  match fuel with
  | O => hset a i tmp
  | S fuel' =>
      let j := (2 * i)%nat in
      if (j <=? n)%nat then
        let j :=
          if (j <? n)%nat && less (hget a j) (hget a (j + 1))
          then (j + 1)%nat else j in
        if less tmp (hget a j) then sift fuel' (hset a i (hget a j)) tmp j n
        else hset a i tmp
      else hset a i tmp
  end.

(** [for (l = n >> 1; l > 0; --l)]. *)
Fixpoint heapify (l : nat) (a : list nat) (n : nat) : list nat :=
  match l with
  | O => a
  | S l' => heapify l' (sift n a (hget a l) l n) n
  end.

(** [for (; n > 1;)]: the largest goes to the end, the heap shrinks. *)
Fixpoint extract (n : nat) (a : list nat) : list nat :=
  match n with
  | O => a
  | S n' =>
      if (1 <? n)%nat then
        let tmp := hget a n in
        let a := hset a n (hget a 1) in
        extract n' (sift n' a tmp 1 n')
      else a
  end.

Definition npy_aheapsort (a : list nat) : list nat :=
  let n := List.length a in
  extract n (heapify (n / 2) a n).

Fixpoint take_while_list (p : nat -> bool) (l : list nat) : list nat :=
  match l with
  | x :: l' => if p x then x :: take_while_list p l' else []
  | [] => []
  end.

Fixpoint drop_while_list (p : nat -> bool) (l : list nat) : list nat :=
  match l with
  | x :: l' => if p x then drop_while_list p l' else l
  | [] => []
  end.

(** The three conditional swaps that order [*pl], [*pm] and [*pr]. *)
Definition median_of_three (xl xm xr : nat) : nat * nat * nat :=
  let '(xl, xm) := if less xm xl then (xm, xl) else (xl, xm) in
  let '(xm, xr) := if less xr xm then (xr, xm) else (xm, xr) in
  let '(xl, xm) := if less xm xl then (xm, xl) else (xl, xm) in
  (xl, xm, xr).

(** The partition loop.  The pivot [vp] waits at [pr - 1] and [last] at
    [pr].  [below_rev] is the array up to [pi], last element first, all of
    it not after the pivot; [between] is what lies between [pi] and [pj];
    [above] runs from [pj] to before the pivot, all of it not before the
    pivot.  [++pi] walks over the elements of [between] before the pivot
    and stops at the first [x] that is not, or at [pj]; [--pj] walks down
    over the elements after the pivot and stops at the first [y] that is
    not, or at [pi] or under it.  When the two have not met, [x] and [y]
    change places; when they have, the pivot changes places with the
    element at [pi].  The result is the two sides of the pivot. *)
Fixpoint partition_loop (fuel : nat) (vp last : nat)
    (below_rev between above : list nat) : list nat * list nat :=
  let before := take_while_list (fun x => less x vp) between in
  match drop_while_list (fun x => less x vp) between with
  | [] =>
      match above with
      | [] => (rev below_rev ++ before, [last])
      | r :: above' => (rev below_rev ++ before, above' ++ [r; last])
      end
  | x :: rest =>
      let after_rev := take_while_list (fun y => less vp y) (rev rest) in
      match drop_while_list (fun y => less vp y) (rev rest) with
      | [] => (rev below_rev ++ before, rest ++ above ++ [x; last])
      | y :: rest_rev =>
          match fuel with
          | O => (rev below_rev ++ before, rest ++ above ++ [x; last])
          | S fuel' =>
              partition_loop fuel' vp last
                (y :: rev before ++ below_rev) (rev rest_rev)
                (x :: rev after_rev ++ above)
          end
      end
  end.

(** One round of [while ((pr - pl) > SMALL_QUICKSORT)] on the stretch
    [a]: the pivot and the stretches on its two sides. *)
Definition partition (a : list nat) : list nat * nat * list nat :=
  let pr := (List.length a - 1)%nat in
  let pm := (pr / 2)%nat in
  let '(xl, vp, xr) := median_of_three (nth 0 a O) (nth pm a O) (nth pr a O) in
  (* INTP_SWAP( *pm, *pj) with pj = pr - 1 *)
  let between :=
    firstn (pm - 1) (skipn 1 a) ++ [nth (pr - 1) a O]
      ++ firstn (pr - 2 - pm) (skipn (pm + 1) a) in
  let '(lower, upper) :=
    partition_loop (List.length a) vp xr [xl] between [] in
  (lower, vp, upper).

(** A stretch popped from the stack is first checked against the depth
    budget ([popped = true]); the smaller side of a partition is carried
    on with at once, the larger is pushed with the budget one less. *)
Fixpoint quicksort_stretch (fuel : nat) (popped : bool) (cdepth : Z)
    (a : list nat) : list nat :=
  match fuel with
  | O => a
  | S fuel' =>
      if popped && (cdepth <? 0) then npy_aheapsort a
      else if (SMALL_QUICKSORT <? List.length a - 1)%nat then
        let '(lower, vp, upper) := partition a in
        if (List.length lower <? List.length upper)%nat then
          quicksort_stretch fuel' false (cdepth - 1) lower
            ++ vp :: quicksort_stretch fuel' true (cdepth - 1) upper
        else
          quicksort_stretch fuel' true (cdepth - 1) lower
            ++ vp :: quicksort_stretch fuel' false (cdepth - 1) upper
      else insertion_sort a
  end.

(** [npy_get_msb]. *)
Definition npy_get_msb (num : nat) : Z := Z.log2 (Z.of_nat num).

Definition npy_aquicksort (tosort : list nat) : list nat :=
  quicksort_stretch (S (List.length tosort)) true
    (npy_get_msb (List.length tosort) * 2) tosort.

End Npysort.

(** [values.argsort(kind='quicksort')] for an array of texts: Python
    compares them character by character, by code point. *)
Definition argsort (values : list string) : list nat :=
  npy_aquicksort
    (fun i j => String.ltb (nth i values "") (nth j values ""))
    (seq 0 (List.length values)).

Fixpoint non_nan_positions (i : nat) (items : list cell) : list (nat * string) :=
  match items with
  | [] => []
  | Some s :: items' => (i, s) :: non_nan_positions (S i) items'
  | None :: items' => non_nan_positions (S i) items'
  end.

Fixpoint nan_positions (i : nat) (items : list cell) : list nat :=
  match items with
  | [] => []
  | Some _ :: items' => nan_positions (S i) items'
  | None :: items' => i :: nan_positions (S i) items'
  end.

(** [nargsort(items, kind='quicksort', ascending=False,
    na_position='last')]: the present values are sorted in reverse and
    the result is reversed, the missing ones come last. *)
Definition nargsort_descending (items : list cell) : list nat :=
  let present := rev (non_nan_positions 0 items) in
  let non_nans := map snd present in
  let non_nan_idx := map fst present in
  let indexer := map (fun k => nth k non_nan_idx O) (argsort non_nans) in
  rev indexer ++ nan_positions 0 items.

(** [df.sort_values(by=name, ascending=False)]. *)
Definition sort_values_descending (df : DataFrame) (name : string)
  : result DataFrame :=
  items <- column df name ;;
  Ok {| columns := columns df;
        rows := map (fun i => nth i (rows df) []) (nargsort_descending items) |}.

Local Open Scope string_scope.
Local Open Scope Z_scope.

(** Line 386: the text handed to the download button.  (It is encoded as
    UTF-8 there; a reader decodes it back to this text.) *)
Definition export (filtered_df : DataFrame) : string := to_csv filtered_df.

(* ================================================================= *)
(** ** The form and the login (lines 87-91 and 259-298) *)

(** The options of the first select box of the form (lines 263-273). *)
Definition dashboard_sections : list string :=
  ["Executive Summary"; "Recruitment"; "Engagement"; "Development";
   "Marketing"; "Operations"; "Member Care"; "Advocacy"; "Impact"].

(** A Python [dict] whose keys are texts, as the list of its bindings;
    [d[k]] raises [KeyError] for a key [d] lacks. *)
Definition dict (V : Type) : Type := list (string * V).

Fixpoint dict_get {V : Type} (d : dict V) (k : string) : result V :=
  match d with
  | [] => Raise KeyError
  | (k', v) :: d' => if String.eqb k k' then Ok v else dict_get d' k
  end.

(** [k in d]. *)
Fixpoint dict_in {V : Type} (k : string) (d : dict V) : bool :=
  match d with
  | [] => false
  | (k', _) :: d' => String.eqb k k' || dict_in k d'
  end.

(** The configuration as [init_auth] writes and reloads it,
    [{'users': {username: {'password': ..., 'name': ..., 'email': ...}}}]:
    texts under texts, three levels deep. *)
Definition user_record : Type := dict string.
Definition Config : Type := dict (dict user_record).

(** Lines 69-77. *)
Definition default_config : Config :=
  [("users",
    [("admin",
      [("password", "admin");
       ("name", "GirlTREK Admin");
       ("email", "admin@girltrek.org")])])].

(** Lines 87-91. *)
Definition check_login (username password : string) (config : Config)
  : result (bool * option user_record) :=
  users <- dict_get config "users" ;;
  if dict_in username users then
    users <- dict_get config "users" ;;
    user <- dict_get users username ;;
    stored <- dict_get user "password" ;;
    if String.eqb password stored then
      users <- dict_get config "users" ;;
      user <- dict_get users username ;;
      Ok (true, Some user)
    else Ok (false, None)
  else Ok (false, None).

(* ================================================================= *)
(** ** The rest of the "View Submissions" page (lines 342-394) *)

(** [Series.unique()]: the values in the order in which they first
    appear, the missing value being one of them. *)
Definition same_value (a b : cell) : bool :=
  match a, b with
  | Some x, Some y => String.eqb x y
  | None, None => true
  | _, _ => false
  end.

Fixpoint unique_from (seen items : list cell) : list cell :=
  match items with
  | [] => []
  | c :: items' =>
      if existsb (same_value c) seen then unique_from seen items'
      else c :: unique_from (c :: seen) items'
  end.

Definition unique (items : list cell) : list cell := unique_from [] items.

(** The options of a filter (lines 354 and 360): the label that stands
    for "no filter", then the values of the column. *)
Definition filter_options (all : string) (df : DataFrame) (name : string)
  : result (list cell) :=
  items <- column df name ;;
  Ok ((Some all :: unique items)%list).

(** [df[names]] for a list of labels. *)
Fixpoint positions_of (names cols : list string) : result (list nat) :=
  match names with
  | [] => Ok []
  | name :: names' =>
      match index_of name cols with
      | Some i => r <- positions_of names' cols ;; Ok ((i :: r)%list)
      | None => Raise KeyError
      end
  end.

Definition select_columns (df : DataFrame) (names : list string)
  : result DataFrame :=
  idx <- positions_of names (columns df) ;;
  Ok {| columns := names;
        rows := map (fun r => map (fun i => nth i r None) idx) (rows df) |}.

(** The columns of the table on the page (lines 378-381). *)
Definition DISPLAY_COLUMNS : list string :=
  ["timestamp"; "first_name"; "last_name"; "dashboard_section";
   "metric_name"; "metric_value"; "notes"].

(** What the page shows: the note that there is nothing yet, or the
    number in the heading, the table, and the text behind the download
    button. *)
Inductive view_page : Type :=
| NoSubmissionsYet
| Showing (count : nat) (table : DataFrame) (csv : string).

(** Lines 342-394.  [filter_section] and [filter_metrics] are what the two
    select boxes returned. *)
Definition view_submissions (filter_section filter_metrics : cell)
  : IO view_page :=
  submissions_df <~ load_submissions ;;
  fun w =>
    (w,
     if (0 <? List.length (rows submissions_df))%nat then
       _ <- filter_options "All Sections" submissions_df "dashboard_section" ;;
       _ <- filter_options "All Metrics" submissions_df "metric_name" ;;
       filtered_df <-
         apply_filters submissions_df filter_section filter_metrics ;;
       filtered_df <- sort_values_descending filtered_df "timestamp" ;;
       table <- select_columns filtered_df DISPLAY_COLUMNS ;;
       Ok (Showing (List.length (rows filtered_df)) table
             (export filtered_df))
     else Ok NoSubmissionsYet).

(* ================================================================= *)
(** ** One run of the script (lines 202-394)

    Streamlit runs the script from top to bottom for every interaction.
    What a run sees is the session state the run before left, and what
    its widgets return; what it leaves is the session state, the file,
    and what it rendered, unless an exception ended it. *)

(** [st.session_state]. *)
Record SessionState : Type := {
  authenticated : bool;
  user_info : option user_record
}.

(** Lines 206-208: a session that has no state yet begins logged out. *)
Definition session_of (session : option SessionState) : SessionState :=
  match session with
  | Some s => s
  | None => {| authenticated := false; user_info := None |}
  end.

(** What the widgets of a run return. *)
Record Widgets : Type := {
  username_input : string;        (* line 215 *)
  password_input : string;        (* line 216 *)
  login_clicked : bool;           (* line 217 *)
  logout_clicked : bool;          (* line 236 *)
  page_choice : string;           (* line 242 *)
  form_input : FormData;          (* lines 275-301 *)
  submitted : bool;               (* line 303 *)
  filter_section_choice : cell;   (* line 352 *)
  filter_metrics_choice : cell    (* line 358 *)
}.

(** What a run rendered below the title.  [st.experimental_rerun()] ends
    the run at once and asks for the next. *)
Inductive screen : Type :=
| Rerun
| LoginForm (error : bool)         (* with "Invalid username or password" *)
| DataEntry (message : option page)
| ViewSubmissions (v : view_page)
| NoPage.

(** [None['name']] raises a [TypeError]; the other exceptions of a run
    are those of the code it calls. *)
Inductive script_exn : Type :=
| Raised (e : exn)
| TypeError.

Inductive outcome : Type :=
| Rendered (session : SessionState) (s : screen)
| Failed (e : script_exn).

(** The run from line 205 on; [auth_config] is what [init_auth] returned
    on line 203. *)
Definition run_script (auth_config : Config)
    (session : option SessionState)
    (i : Widgets) (env : Env) (w : World) : World * outcome :=
  let s := session_of session in
  if negb (authenticated s) then
    if login_clicked i then
      match check_login (username_input i) (password_input i) auth_config with
      | Raise e => (w, Failed (Raised e))
      | Ok (true, info) =>
          (w, Rendered {| authenticated := true; user_info := info |} Rerun)
      | Ok (false, _) => (w, Rendered s (LoginForm true))
      end
    else (w, Rendered s (LoginForm false))
  else
    match user_info s with
    | None => (w, Failed TypeError)
    | Some user =>
        match dict_get user "name" with           (* line 234 *)
        | Raise e => (w, Failed (Raised e))
        | Ok name =>
            if logout_clicked i then
              (w, Rendered {| authenticated := false; user_info := None |}
                    Rerun)
            else if String.eqb (page_choice i) "Data Entry" then
              match dict_get user "email" with    (* line 252 *)
              | Raise e => (w, Failed (Raised e))
              | Ok email =>
                  if submitted i then
                    match handle_submit
                            {| user_name := name; user_email := email |}
                            (form_input i) env w with
                    | (w', Ok p) => (w', Rendered s (DataEntry (Some p)))
                    | (w', Raise e) => (w', Failed (Raised e))
                    end
                  else (w, Rendered s (DataEntry None))
              end
            else if String.eqb (page_choice i) "View Submissions" then
              match view_submissions (filter_section_choice i)
                      (filter_metrics_choice i) w with
              | (w', Ok v) => (w', Rendered s (ViewSubmissions v))
              | (w', Raise e) => (w', Failed (Raised e))
              end
            else (w, Rendered s NoPage)
        end
    end.

(* ================================================================= *)
(** ** What the statements below speak of *)

(** Thousands grouping, read off a text from its right end: every fourth
    character is a comma, the others are digits, and the text begins with a
    digit. *)
Fixpoint grouped_from_right (s : string) : bool :=
  match s with
  | EmptyString => true
  | String c rest =>
      (if (String.length rest mod 4 =? 3)%nat then Ascii.eqb c comma
       else is_digit c)
      && grouped_from_right rest
  end.

Definition well_grouped (s : string) : bool :=
  match s with
  | EmptyString => false
  | String c _ => is_digit c && grouped_from_right s
  end.

Definition not_point (c : ascii) : bool := negb (Ascii.eqb c ".").

(** A currency amount as the claim describes it: the currency symbol, a
    minus sign for a negative amount, the whole part with thousands
    grouping, a point and exactly two decimals. *)
Definition is_currency_text (s : string) : bool :=
  match s with
  | String "$" r =>
      let r := match r with String "-" r' => r' | _ => r end in
      well_grouped (take_while not_point r)
      && match drop_while not_point r with
         | String "." (String a (String b EmptyString)) =>
             is_digit a && is_digit b
         | _ => false
         end
  | _ => false
  end.

Fixpoint all_chars (p : ascii -> bool) (s : string) : bool :=
  match s with
  | EmptyString => true
  | String c s' => p c && all_chars p s'
  end.

(** The length of [n] digits written in groups of three. *)
Definition grouped_length (n : nat) : nat := (n + (n - 1) / 3)%nat.

(** The last branch of [format_value], which does not look at the metric. *)
Definition format_count (value : string) : string :=
  try_except
    (x <- py_float value ;; n <- py_int x ;; Ok (format_int_grouped n))
    value.

(** The first branch of [format_value]. *)
Definition format_currency (value : string) : string :=
  try_except
    (x <- py_float value ;; Ok ("$" ++ format_float_grouped_2f x))
    value.

(** A character that is none of the delimiter, the quote character, the
    line feed and the carriage return. *)
Definition plain (c : ascii) : bool :=
  negb (special c) && negb (Ascii.eqb c CR).

Definition no_CR (s : string) : bool := negb (contains_char CR s).


Definition tok (st : parser_state) (f : string) (l : list string)
    (ls : list (list string)) : tokenizer :=
  {| state := st; field := f; line := l; lines := ls |}.

(** A frame is written with one width when each of its rows has a cell for
    each of its columns; it can be read back when no text in it holds a
    carriage return, which the writer leaves unquoted. *)
Definition rectangular (df : DataFrame) : Prop :=
  (2 <= List.length (columns df))%nat
  /\ Forall (fun r => List.length r = List.length (columns df)) (rows df).

Definition free_of_CR (df : DataFrame) : Prop :=
  forallb no_CR (columns df) = true
  /\ Forall (fun r => forallb no_CR (map cell_text r) = true) (rows df).

(** A record whose note holds a comma, a quoted word and a line break. *)
Definition noted_submission : Submission :=
  {| submission_id := "0b8e2c1a-5d4f-4e6a-9c3b-7f1d2a6e8b90";
     timestamp := "2025-03-14 09:26:53";
     first_name := "GirlTREK";
     last_name := "Admin";
     email := "admin@girltrek.org";
     dashboard_section := "Member Care";
     metric_name := "New Member Stories";
     metric_value := "Walked every day, rain or shine";
     notes := "She said " ++ String dquote "keep going" ++ String dquote ","
              ++ String LF "and we did" |}.

(** A record as the form builds it when the note is left empty. *)
Definition plain_submission : Submission :=
  {| submission_id := "7c9e6679-7425-40de-944b-e07fc1f90ae7";
     timestamp := "2025-03-14 09:30:00";
     first_name := "GirlTREK";
     last_name := "Admin";
     email := "admin@girltrek.org";
     dashboard_section := "Recruitment";
     metric_name := "Total New Members";
     metric_value := "250";
     notes := "" |}.

(** The frame [load_submissions] returns once the submissions [ds] have
    been saved, one after the other, to a file that did not exist: each
    text as it was submitted, or missing when it is an NA marker. *)
Definition loaded (ds : list Submission) : DataFrame :=
  {| columns := SUBMISSION_COLUMNS;
     rows := map (fun d => map na_filter (submission_values d)) ds |}.




Definition no_file : World := {| submissions_file := None |}.


(** A world whose file holds one record. *)
Definition one_note_file : World :=
  {| submissions_file := Some (to_csv (frame_of_submissions [noted_submission])) |}.



(** A session of two submissions by the default user. *)
Definition admin : UserInfo :=
  {| user_name := "GirlTREK Admin"; user_email := "admin@girltrek.org" |}.

Definition two_submissions : list (UserInfo * FormData * Env) :=
  [(admin,
    {| form_section := "Recruitment"; form_metric := "Total New Members";
       form_value := "250"; form_notes := "" |},
    {| uuid4 := 165646732809310605433667723985767959271;
       now := "2025-03-14 09:30:00"; medium := NoFault |});
   (admin,
    {| form_section := "Development"; form_metric := "Total Contributions";
       form_value := "$1,234.50"; form_notes := "spring appeal, first week" |},
    {| uuid4 := 15359708622378787533897553451563256720;
       now := "2025-03-14 09:31:07"; medium := NoFault |})].

(** An array of indices in ascending order of their keys: no element
    sorts before one that stands earlier. *)
Definition ascending (less : nat -> nat -> bool) (l : list nat) : Prop :=
  StronglySorted (fun x y => less y x = false) l.

(** The same from the last element to the first. *)
Definition descending (less : nat -> nat -> bool) (l : list nat) : Prop :=
  StronglySorted (fun x y => less x y = false) l.

(** The heap of [npy_aheapsort]: in [a[l..n]], counted from 1, no element
    sorts before its children, which stand at [2 * p] and [2 * p + 1]. *)
Definition child_of (p c : nat) : Prop :=
  (c = 2 * p \/ c = 2 * p + 1)%nat.

Definition is_heap (less : nat -> nat -> bool) (a : list nat) (l n : nat)
  : Prop :=
  forall p c, (l <= p)%nat -> (c <= n)%nat -> child_of p c ->
              less (hget a p) (hget a c) = false.

(** The heap while [tmp] is sinking and has come down to [i]: the place
    [i] still holds what moved up from it.  The heap is in order but for
    the children of [i], and what stands above [i] sorts neither before
    [tmp] nor before the children of [i]. *)
Definition sift_ready (less : nat -> nat -> bool) (a : list nat)
    (tmp i l n : nat) : Prop :=
  (forall p c, (l <= p)%nat -> (c <= n)%nat -> child_of p c -> p <> i ->
               less (hget a p) (hget a c) = false)
  /\ (forall p, (l <= p)%nat -> child_of p i -> less (hget a p) tmp = false)
  /\ (forall p c, (l <= p)%nat -> child_of p i -> (c <= n)%nat ->
                  child_of i c -> less (hget a p) (hget a c) = false).

Definition count (a : list nat) (y : nat) : nat := count_occ Nat.eq_dec a y.

Definition one_if (x y : nat) : nat := if Nat.eq_dec x y then 1%nat else 0%nat.

(** Timestamps from the newest to the oldest: none is before one that
    stands later.  They are compared as [sort_values] compares them, as
    texts; for the format of line 310 that is the order of time. *)
Definition newest_first (ts : list string) : Prop :=
  StronglySorted (fun x y => String.ltb x y = false) ts.

(** Eighteen submissions made within one second. *)
Definition within_one_second (k : nat) : Submission :=
  {| submission_id :=
       uuid_str (165646732809310605433667723985767959271 + N.of_nat k);
     timestamp := "2025-03-14 09:30:00";
     first_name := "GirlTREK";
     last_name := "Admin";
     email := "admin@girltrek.org";
     dashboard_section := "Recruitment";
     metric_name := "Recruitment Events";
     metric_value := "1";
     notes := "spring walk" |}.

Definition busy_second : DataFrame :=
  loaded (map within_one_second (seq 0 18)).

(** [x] may stand before [y] in a stable ascending order: [y] does not
    sort before [x], and if they tie then [x] came first. *)
Definition stable_order (less : nat -> nat -> bool) (x y : nat) : Prop :=
  less y x = false /\ (less x y = false -> (x < y)%nat).

(** In an order of the rows of a frame, counted from 0, two rows whose
    cells in [items] are equal stand as they did in the frame. *)
Definition keeps_ties (items : list cell) (order : list nat) : Prop :=
  StronglySorted
    (fun x y => nth x items None = nth y items None -> (x < y)%nat) order.

(** No text stands twice in the list. *)
Fixpoint distinct (l : list string) : bool :=
  match l with
  | [] => true
  | s :: l' => negb (str_in s l') && distinct l'
  end.

(** The plain text of the number a widget of the form holds: the decimal
    text of a slider's or a counter's whole number (a counter holds
    numbers between [-2^53] and [2^53]), a text [float] reads as the
    amount, the story itself. *)
Definition written_as (v : widget_value) (text : string) : Prop :=
  match v with
  | SliderValue p => text = format_int p
  | NumericValue n => text = format_int n /\ - 2 ^ 53 < n < 2 ^ 53
  | DollarValue x => py_float text = Ok x
  | StoryContent s => text = s
  end.

(** The characters of a blank line, and the tokenizer while it has read
    nothing but blank lines. *)
Definition is_blank (c : ascii) : bool :=
  Ascii.eqb c LF || Ascii.eqb c CR || IS_WHITESPACE c.

Definition nothing_read (t : tokenizer) : Prop :=
  match state t with
  | START_RECORD | EAT_CRNL_NOP | WHITESPACE_LINE _ => True
  | _ => False
  end
  /\ field t = EmptyString /\ line t = [] /\ lines t = [].

(** A word as [str.split()] cuts it out: not empty and free of the white
    space that separates words. *)
Definition no_space (c : ascii) : bool := negb (is_unicode_space c).

Definition is_word (s : string) : Prop :=
  s <> EmptyString /\ all_chars no_space s = true.

(** A session that is logged in has the record of its user. *)
Definition session_ok (s : SessionState) : Prop :=
  authenticated s = true -> user_info s <> None.

Definition shows_data (o : outcome) : Prop :=
  match o with
  | Rendered _ (DataEntry _) | Rendered _ (ViewSubmissions _) => True
  | _ => False
  end.

(** The record of the one user of [default_config]. *)
Definition admin_record : user_record :=
  [("password", "admin"); ("name", "GirlTREK Admin");
   ("email", "admin@girltrek.org")].

(** A run in which the default user, logged in, submits the form. *)
Definition admin_session : option SessionState :=
  Some {| authenticated := true; user_info := Some admin_record |}.

Definition submitting : Widgets :=
  {| username_input := ""; password_input := ""; login_clicked := false;
     logout_clicked := false; page_choice := "Data Entry";
     form_input :=
       {| form_section := "Recruitment"; form_metric := "Recruitment Events";
          form_value := "3"; form_notes := "" |};
     submitted := true;
     filter_section_choice := Some "All Sections";
     filter_metrics_choice := Some "All Metrics" |}.

Definition logging_in : Widgets :=
  {| username_input := "admin"; password_input := "admin";
     login_clicked := true;
     logout_clicked := false; page_choice := "Data Entry";
     form_input :=
       {| form_section := "Recruitment"; form_metric := "Recruitment Events";
          form_value := "3"; form_notes := "" |};
     submitted := true;
     filter_section_choice := Some "All Sections";
     filter_metrics_choice := Some "All Metrics" |}.

Definition some_env : Env :=
  {| uuid4 := 165646732809310605433667723985767959271;
     now := "2025-03-14 09:30:00"; medium := NoFault |}.

(** A store whose header was cut short. *)
Definition cut_short : World :=
  {| submissions_file :=
       Some ("submission_id,timest"
             ++ String LF "7c9e6679-7425-40de-944b-e07fc1f90ae7,2025") |}.

Definition cut_short_frame : DataFrame :=
  {| columns := ["submission_id"; "timest"];
     rows := [[Some "7c9e6679-7425-40de-944b-e07fc1f90ae7"; Some "2025"]] |}.




(* ================================================================= *)
(** * Properties *)

(** ** Strings *)

Lemma append_empty_r s : s ++ "" = s.
Proof. induction s; simpl; congruence. Qed.

Lemma append_assoc s t u : (s ++ t) ++ u = s ++ t ++ u.
Proof. induction s; simpl; congruence. Qed.

Lemma contains_char_app c s t :
  contains_char c (s ++ t) = contains_char c s || contains_char c t.
Proof.
  induction s as [|d s IH]; simpl; [reflexivity|].
  rewrite IH. now rewrite orb_assoc.
Qed.

Lemma contains_char_rev_onto c s acc :
  contains_char c (rev_string_onto s acc)
  = contains_char c s || contains_char c acc.
Proof.
  revert acc. induction s as [|d s IH]; intros acc; simpl; [reflexivity|].
  rewrite IH. simpl. destruct (Ascii.eqb c d), (contains_char c s); simpl;
    auto using orb_true_r.
Qed.

Lemma contains_char_rev c s :
  contains_char c (rev_string s) = contains_char c s.
Proof.
  unfold rev_string. rewrite contains_char_rev_onto. simpl.
  apply orb_false_r.
Qed.

Lemma contains_char_drop_while p c s :
  p c = false -> contains_char c (drop_while p s) = contains_char c s.
Proof.
  intros Hp. induction s as [|d s IH]; simpl; [reflexivity|].
  destruct (p d) eqn:Hd; simpl; [|reflexivity].
  rewrite IH. destruct (Ascii.eqb_spec c d) as [->|]; [congruence|reflexivity].
Qed.

Lemma contains_char_map f c s :
  f c = c -> contains_char c s = true ->
  contains_char c (map_string f s) = true.
Proof.
  intros Hf. induction s as [|d s IH]; simpl; [discriminate|].
  destruct (Ascii.eqb_spec c d) as [<-|]; simpl.
  - intros _. now rewrite Hf, Ascii.eqb_refl.
  - intros H. rewrite IH by assumption. apply orb_true_r.
Qed.

Lemma take_drop_while p s : take_while p s ++ drop_while p s = s.
Proof.
  induction s as [|c s IH]; simpl; [reflexivity|].
  destruct (p c); simpl; [now rewrite IH|reflexivity].
Qed.

Lemma endswith_char_app s c : endswith_char (s ++ String c "") c = true.
Proof.
  induction s as [|d s IH]; simpl; [apply Ascii.eqb_refl|].
  destruct (s ++ String c "") eqn:E; [destruct s; discriminate|exact IH].
Qed.

Lemma string_length_app s t : String.length (s ++ t) = (String.length s + String.length t)%nat.
Proof. induction s; simpl; congruence. Qed.

(* ----------------------------------------------------------------- *)
(** ** What [float] accepts *)

(** A comma that is in the text is still there after each step of the
    parse, so the parse cannot use the text up. *)

Lemma strip_underscores_keeps c prev s t :
  c <> "_"%char -> strip_underscores prev s = Some t ->
  contains_char c s = true -> contains_char c t = true.
Proof.
  intros Hc. revert prev t.
  induction s as [|d s IH]; intros prev t; simpl; [discriminate|].
  destruct (Ascii.eqb_spec d "_") as [->|Hd].
  - destruct (is_digit prev); [|discriminate].
    intros H. destruct (Ascii.eqb_spec c "_"); [contradiction|]. simpl.
    exact (IH _ _ H).
  - destruct (Ascii.eqb prev "_" && negb (is_digit d)); [discriminate|].
    destruct (strip_underscores d s) as [t'|] eqn:E; [|discriminate].
    simpl. intros [= <-]. simpl.
    destruct (Ascii.eqb c d); simpl; [reflexivity|]. exact (IH _ _ E).
Qed.

Lemma split_sign_keeps c s :
  c <> "-"%char -> c <> "+"%char ->
  contains_char c (snd (split_sign s)) = contains_char c s.
Proof.
  intros Hm Hp. destruct s as [|d s]; [reflexivity|].
  unfold split_sign.
  destruct (Ascii.eqb_spec d "-") as [->|]; [|destruct (Ascii.eqb_spec d "+") as [->|]].
  - simpl. now destruct (Ascii.eqb_spec c "-").
  - simpl. now destruct (Ascii.eqb_spec c "+").
  - destruct d as [[] [] [] [] [] [] [] []]; try reflexivity; congruence.
Qed.

Lemma rstrip_keep1_keeps c s :
  is_space c = false ->
  contains_char c (rstrip_keep1 s) = contains_char c s.
Proof.
  intros Hc. destruct s as [|d s]; [reflexivity|]. simpl.
  now rewrite contains_char_rev, contains_char_drop_while, contains_char_rev.
Qed.

Lemma parse_exponent_keeps c s ex s3 :
  is_digit c = false -> lower c <> "e"%char ->
  c <> "-"%char -> c <> "+"%char ->
  parse_exponent s = Some (ex, s3) ->
  contains_char c s3 = contains_char c s.
Proof.
  intros Hd He Hm Hp. destruct s as [|d s]; [discriminate|]. simpl.
  destruct (Ascii.eqb_spec (lower d) "e") as [Hde|]; [|discriminate].
  destruct (split_sign s) as [neg s2] eqn:Es.
  destruct (take_while is_digit s2); [discriminate|].
  intros [= _ <-].
  rewrite contains_char_drop_while by assumption.
  change s2 with (snd (neg, s2)). rewrite <- Es.
  rewrite split_sign_keeps by assumption.
  destruct (Ascii.eqb_spec c d) as [->|]; [contradiction|reflexivity].
Qed.

Section NoNumber.
Variable c : ascii.
Hypothesis c_not_digit : is_digit c = false.
Hypothesis c_not_space : is_space c = false.
Hypothesis c_not_sign : c <> "-"%char /\ c <> "+"%char.
Hypothesis c_not_point : c <> "."%char.
Hypothesis c_not_underscore : c <> "_"%char.
Hypothesis c_not_letter : lower c = c /\ (ord c < 97 \/ 122 < ord c)%nat.
Hypothesis c_not_nbsp : space_to_ascii c = c.

Lemma parse_decimal_rejects s :
  contains_char c s = true -> parse_decimal s = None.
Proof.
  intros H. unfold parse_decimal.
  destruct c_not_sign as [Hm Hp].
  destruct (split_sign s) as [neg s0] eqn:Es.
  assert (H0 : contains_char c s0 = true).
  { change s0 with (snd (neg, s0)). rewrite <- Es.
    now rewrite split_sign_keeps. }
  set (s1 := drop_while is_digit s0).
  assert (H1 : contains_char c s1 = true).
  { unfold s1. now rewrite contains_char_drop_while. }
  assert (H2 : forall fp s2,
    (fp, s2) = match s1 with
               | String "." s1' =>
                   (take_while is_digit s1', drop_while is_digit s1')
               | _ => (EmptyString, s1)
               end -> contains_char c s2 = true).
  { intros fp s2 E. destruct s1 as [|d s1']; [discriminate|].
    destruct (Ascii.eqb_spec d ".") as [->|Hd].
    - injection E as -> ->. rewrite contains_char_drop_while by assumption.
      simpl in H1. now destruct (Ascii.eqb_spec c ".").
    - assert (E' : (fp, s2) = (EmptyString, String d s1')).
      { rewrite E. destruct d as [[] [] [] [] [] [] [] []];
          try reflexivity; congruence. }
      now injection E' as -> ->. }
  destruct (match s1 with
            | String "." s1' =>
                (take_while is_digit s1', drop_while is_digit s1')
            | _ => (EmptyString, s1)
            end) as [fp s2] eqn:E2.
  specialize (H2 fp s2 eq_refl).
  destruct (take_while is_digit s0 ++ fp) as [|d0 ds0]; [reflexivity|].
  destruct (parse_exponent s2) as [[ex s3]|] eqn:Ee.
  - assert (H3 : contains_char c s3 = true).
    { rewrite (parse_exponent_keeps c s2 ex s3); try assumption.
      destruct c_not_letter as [Hl Hr]. rewrite Hl. intros ->.
      cbv in Hr. lia. }
    destruct s3; [discriminate|reflexivity].
  - destruct s2; [discriminate|reflexivity].
Qed.

Lemma parse_inf_or_nan_rejects s :
  contains_char c s = true -> parse_inf_or_nan s = None.
Proof.
  intros H. unfold parse_inf_or_nan.
  destruct c_not_sign as [Hm Hp]. destruct c_not_letter as [Hl Hr].
  destruct (split_sign s) as [neg s0] eqn:Es.
  assert (H0 : contains_char c (map_string lower s0) = true).
  { apply contains_char_map; [assumption|].
    change s0 with (snd (neg, s0)). rewrite <- Es.
    now rewrite split_sign_keeps. }
  assert (Hw : forall w, contains_char c w = false ->
                String.eqb (map_string lower s0) w = false).
  { intros w Hw. apply String.eqb_neq. intros E. congruence. }
  assert (Hneq : forall d, (97 <= ord d <= 122)%nat -> Ascii.eqb c d = false).
  { intros d Hd. apply Ascii.eqb_neq. intros ->. lia. }
  rewrite !Hw; [reflexivity| | |]; simpl;
    rewrite !Hneq by (cbv; lia); reflexivity.
Qed.

(** A text that contains [c] is no number. *)
Lemma py_float_rejects value :
  contains_char c value = true -> py_float value = Raise ValueError.
Proof.
  intros H. unfold py_float.
  destruct (strip_underscores (chr 0) (map_string space_to_ascii value))
    as [s|] eqn:Es; [|reflexivity].
  assert (Hs : contains_char c (rstrip_keep1 (lstrip s)) = true).
  { rewrite rstrip_keep1_keeps by assumption. unfold lstrip.
    rewrite contains_char_drop_while by assumption.
    eapply strip_underscores_keeps; [assumption|exact Es|].
    apply contains_char_map; assumption. }
  now rewrite parse_decimal_rejects, parse_inf_or_nan_rejects.
Qed.
End NoNumber.

Lemma py_float_comma value :
  contains_char comma value = true -> py_float value = Raise ValueError.
Proof.
  apply py_float_rejects; try reflexivity; try (split; [discriminate|discriminate]);
    try discriminate.
  split; [reflexivity|]. cbv. lia.
Qed.

Lemma py_float_dollar value :
  py_float (String "$" value) = Raise ValueError.
Proof.
  apply py_float_rejects with (c := "$"%char);
    try reflexivity; try (split; discriminate); try discriminate.
  split; [reflexivity|]. cbv. lia.
Qed.

(* ----------------------------------------------------------------- *)
(** ** Digits and grouping *)

Lemma all_chars_app p s t :
  all_chars p (s ++ t) = all_chars p s && all_chars p t.
Proof.
  induction s as [|c s IH]; simpl; [reflexivity|].
  now rewrite IH, andb_assoc.
Qed.

Lemma all_chars_take_while p s : all_chars p (take_while p s) = true.
Proof.
  induction s as [|c s IH]; simpl; [reflexivity|].
  destruct (p c) eqn:E; simpl; [now rewrite E|reflexivity].
Qed.

Lemma all_chars_weaken (p q : ascii -> bool) s :
  (forall c, p c = true -> q c = true) ->
  all_chars p s = true -> all_chars q s = true.
Proof.
  intros Hpq. induction s as [|c s IH]; simpl; [reflexivity|].
  intros [Hc Hs]%andb_prop. now rewrite (Hpq _ Hc), IH.
Qed.

Lemma take_while_app_stop p s c t :
  all_chars p s = true -> p c = false ->
  take_while p (s ++ String c t) = s
  /\ drop_while p (s ++ String c t) = String c t.
Proof.
  intros Hs Hc. induction s as [|d s IH]; simpl.
  - now rewrite Hc.
  - simpl in Hs. apply andb_prop in Hs as [Hd Hs]. rewrite Hd.
    destruct (IH Hs) as [-> ->]. now split.
Qed.

Lemma string_of_uint_digits d :
  all_chars is_digit (NilEmpty.string_of_uint d) = true.
Proof. induction d; simpl; auto. Qed.

Lemma digits_all_digits n : all_chars is_digit (digits n) = true.
Proof.
  unfold digits, NilZero.string_of_uint.
  destruct (N.to_uint n); try apply string_of_uint_digits; reflexivity.
Qed.

Lemma digits_nonempty n : digits n <> "".
Proof.
  unfold digits, NilZero.string_of_uint.
  destruct (N.to_uint n); simpl; discriminate.
Qed.

Lemma digits_below_10_checked :
  forallb (fun k => match digits (N.of_nat k) with
                    | String d EmptyString => is_digit d
                    | _ => false
                    end) (seq 0 10) = true.
Proof. vm_compute. reflexivity. Qed.

Lemma digits_below_10 n :
  (n < 10)%N -> exists d, digits n = String d "" /\ is_digit d = true.
Proof.
  intros H. pose proof digits_below_10_checked as C.
  rewrite forallb_forall in C. specialize (C (N.to_nat n)).
  rewrite N2Nat.id in C.
  destruct (digits n) as [|d [|? ?]]; try (discriminate C; apply in_seq; lia).
  exists d. split; [reflexivity|]. apply C, in_seq. lia.
Qed.

Lemma string_of_uint_length d :
  String.length (NilEmpty.string_of_uint d) = Decimal.nb_digits d.
Proof. induction d; simpl; congruence. Qed.

(** A number written with at most three digits is below 1000. *)
Lemma digits_short n :
  (String.length (digits n) <= 3)%nat -> (n < 1000)%N.
Proof.
  intros H. rewrite <- (DecimalN.Unsigned.of_to n).
  unfold digits, NilZero.string_of_uint in H.
  destruct (N.to_uint n) as [|d|d|d|d|d|d|d|d|d|d]; [reflexivity|..];
    rewrite string_of_uint_length in H; simpl in H;
    (destruct d as [|d|d|d|d|d|d|d|d|d|d]; [reflexivity|..]; simpl in H;
     (destruct d as [|d|d|d|d|d|d|d|d|d|d]; [reflexivity|..]; simpl in H;
      (destruct d; [reflexivity|simpl in H; lia ..]))).
Qed.

Lemma grouped_length_step n :
  (if (0 <? n)%nat && (n mod 3 =? 0)%nat
   then grouped_length n mod 4 = 3
        /\ grouped_length (S n) = S (S (grouped_length n))
   else grouped_length n mod 4 <> 3
        /\ grouped_length (S n) = S (grouped_length n))%nat
  /\ ((grouped_length (S n) - 1) mod 4 <> 3)%nat.
Proof.
  unfold grouped_length.
  replace (S n - 1)%nat with n by lia.
  pose proof (Nat.div_mod_eq n 3).
  pose proof (Nat.mod_upper_bound n 3 ltac:(lia)).
  pose proof (Nat.div_mod_eq (n - 1) 3).
  pose proof (Nat.mod_upper_bound (n - 1) 3 ltac:(lia)).
  pose proof (Nat.div_mod_eq (n + (n - 1) / 3) 4).
  pose proof (Nat.mod_upper_bound (n + (n - 1) / 3) 4 ltac:(lia)).
  pose proof (Nat.div_mod_eq (S n + n / 3 - 1) 4).
  pose proof (Nat.mod_upper_bound (S n + n / 3 - 1) 4 ltac:(lia)).
  destruct (Nat.ltb_spec 0 n); destruct (Nat.eqb_spec (n mod 3) 0);
    cbn [andb]; lia.
Qed.

Lemma group3_length s :
  String.length (group3 s) = grouped_length (String.length s).
Proof.
  induction s as [|c s IH]; [reflexivity|].
  cbn [group3 String.length].
  pose proof (grouped_length_step (String.length s)) as [H _].
  destruct ((0 <? String.length s)%nat && (String.length s mod 3 =? 0)%nat);
    cbn [String.length]; rewrite IH; lia.
Qed.

Lemma group3_grouped s :
  all_chars is_digit s = true -> grouped_from_right (group3 s) = true.
Proof.
  induction s as [|c s IH]; [reflexivity|].
  cbn [all_chars]. intros [Hc Hs]%andb_prop.
  specialize (IH Hs).
  pose proof (grouped_length_step (String.length s)) as [H H'].
  pose proof (group3_length (String c s)) as HL.
  cbn [group3 String.length] in *.
  destruct ((0 <? String.length s)%nat && (String.length s mod 3 =? 0)%nat);
    cbn [grouped_from_right String.length] in *;
    rewrite IH, ?group3_length;
    injection HL as HL; rewrite ?group3_length in HL.
  - destruct H as [H1 H2]. rewrite H2 in H'. cbn [Nat.sub] in H'.
    replace ((S (grouped_length (String.length s))) mod 4 =? 3)%nat
      with false by (symmetry; now apply Nat.eqb_neq).
    rewrite H1. simpl. now rewrite Hc.
  - destruct H as [H1 H2].
    replace (grouped_length (String.length s) mod 4 =? 3)%nat
      with false by (symmetry; now apply Nat.eqb_neq).
    now rewrite Hc.
Qed.

Lemma group3_well_grouped s :
  all_chars is_digit s = true -> s <> "" -> well_grouped (group3 s) = true.
Proof.
  intros Hs Hne. pose proof (group3_grouped s Hs) as H.
  destruct s as [|c s]; [contradiction|].
  cbn [group3] in *. unfold well_grouped. rewrite H.
  simpl in Hs. apply andb_prop in Hs as [-> _]. reflexivity.
Qed.

Lemma group3_chars s :
  all_chars is_digit s = true ->
  all_chars (fun c => is_digit c || Ascii.eqb c comma) (group3 s) = true.
Proof.
  induction s as [|c s IH]; [reflexivity|].
  cbn [group3 all_chars]. intros [Hc Hs]%andb_prop. rewrite Hc.
  destruct ((0 <? String.length s)%nat && (String.length s mod 3 =? 0)%nat);
    cbn [all_chars orb andb]; rewrite ?Ascii.eqb_refl, ?orb_true_r; auto.
Qed.

(** Four digits or more are written with a comma; up to three, as they
    are. *)
Lemma group3_long s :
  (4 <= String.length s)%nat -> contains_char comma (group3 s) = true.
Proof.
  induction s as [|c s IH]; [simpl; lia|].
  cbn [group3 String.length]. intros H.
  pose proof (Nat.div_mod_eq (String.length s) 3).
  pose proof (Nat.mod_upper_bound (String.length s) 3 ltac:(lia)).
  destruct (Nat.ltb_spec 0 (String.length s)); [|lia].
  destruct (Nat.eqb_spec (String.length s mod 3) 0); cbn [andb].
  - cbn [contains_char].
    change (Ascii.eqb comma ",") with true. apply orb_true_r.
  - cbn [contains_char]. rewrite IH by lia. apply orb_true_r.
Qed.

Lemma group3_short s : (String.length s <= 3)%nat -> group3 s = s.
Proof.
  induction s as [|c s IH]; [reflexivity|].
  cbn [group3 String.length]. intros H. rewrite IH by lia.
  pose proof (Nat.div_mod_eq (String.length s) 3).
  pose proof (Nat.mod_upper_bound (String.length s) 3 ltac:(lia)).
  destruct (Nat.ltb_spec 0 (String.length s)); [|reflexivity].
  destruct (Nat.eqb_spec (String.length s mod 3) 0); [lia|reflexivity].
Qed.

(* ----------------------------------------------------------------- *)
(** ** Rounding *)

Lemma round_half_even_near n d :
  0 < d -> 2 * Z.abs (n - round_half_even n d * d) <= d.
Proof.
  intros Hd. unfold round_half_even.
  pose proof (Z.div_mod n d ltac:(lia)) as E.
  pose proof (Z.mod_pos_bound n d Hd) as B.
  destruct (Z.compare_spec (2 * (n mod d)) d) as [H|H|H];
    [destruct (Z.even (n / d))|..]; nia.
Qed.

Lemma round_half_even_nonneg n d :
  0 <= n -> 0 < d -> 0 <= round_half_even n d.
Proof.
  intros Hn Hd. unfold round_half_even.
  pose proof (Z.div_pos n d Hn Hd).
  destruct (2 * (n mod d) ?= d); [destruct (Z.even (n / d))|..]; lia.
Qed.

Lemma scaled_pos n d e :
  0 <= n -> 0 < d -> 0 <= fst (scaled n d e) /\ 0 < snd (scaled n d e).
Proof.
  intros Hn Hd. unfold scaled. simpl.
  assert (0 < 2 ^ Z.max 0 (- e)) by (apply Z.pow_pos_nonneg; lia).
  assert (0 < 2 ^ Z.max 0 e) by (apply Z.pow_pos_nonneg; lia).
  split; nia.
Qed.

Lemma to_double_mantissa neg n d neg' m e :
  0 <= n -> 0 < d -> to_double neg n d = Finite neg' m e ->
  neg' = neg /\ 0 <= m.
Proof.
  intros Hn Hd. unfold to_double.
  destruct (n =? 0); [intros [= <- <- <-]; split; [reflexivity|lia]|].
  destruct (scaled n d (Z.max (ilog2_ratio n d - 52) (-1074))) as [a b] eqn:E.
  pose proof (scaled_pos n d (Z.max (ilog2_ratio n d - 52) (-1074)) Hn Hd)
    as [Ha Hb].
  rewrite E in Ha, Hb. simpl in Ha, Hb.
  pose proof (round_half_even_nonneg a b Ha Hb) as Hm.
  destruct (round_half_even a b =? 2 ^ 53);
    match goal with |- context [971 <? ?x] => destruct (971 <? x) end;
    try discriminate; intros [= <- <- <-]; split; try reflexivity.
  - change (Z.pow_pos 2 52) with (2 ^ 52). apply Z.pow_nonneg; lia.
  - lia.
Qed.

Lemma digits_val_from_nonneg s acc :
  all_chars is_digit s = true -> 0 <= acc -> 0 <= digits_val_from acc s.
Proof.
  revert acc.
  induction s as [|c s IH]; intros acc; cbn [digits_val_from all_chars];
    [auto|].
  intros [Hc Hs]%andb_prop Hacc. apply IH; [assumption|].
  unfold is_digit in Hc. apply andb_prop in Hc as [H1 _].
  apply Nat.leb_le in H1. unfold digit_val. lia.
Qed.

Lemma parse_decimal_mantissa s neg m e :
  parse_decimal s = Some (Finite neg m e) -> 0 <= m.
Proof.
  unfold parse_decimal.
  destruct (split_sign s) as [sg s0].
  set (ip := take_while is_digit s0).
  destruct (match drop_while is_digit s0 with
            | String "." s1' =>
                (take_while is_digit s1', drop_while is_digit s1')
            | _ => (EmptyString, drop_while is_digit s0)
            end) as [fp s2] eqn:E.
  assert (Hfp : all_chars is_digit fp = true).
  { destruct (drop_while is_digit s0) as [|d s1'].
    - now injection E as <- <-.
    - destruct (Ascii.eqb_spec d ".") as [->|Hd].
      + injection E as <- <-. apply all_chars_take_while.
      + assert (E' : (fp, s2) = (EmptyString, String d s1')).
        { rewrite <- E. destruct d as [[] [] [] [] [] [] [] []];
            try reflexivity; congruence. }
        now injection E' as -> ->. }
  assert (Hds : 0 <= digits_val (ip ++ fp)).
  { apply digits_val_from_nonneg; [|lia].
    rewrite all_chars_app, Hfp. unfold ip.
    now rewrite all_chars_take_while. }
  destruct (ip ++ fp) as [|d0 ds0] eqn:Eds; [discriminate|].
  destruct (match parse_exponent s2 with
            | Some r => r
            | None => (0, s2)
            end) as [ex s3].
  destruct s3; [|discriminate].
  unfold decimal_to_double. intros [= H].
  destruct (0 <=? ex - Z.of_nat (String.length fp)) eqn:Ek.
  - apply to_double_mantissa in H; [tauto| |lia].
    apply Z.mul_nonneg_nonneg; [assumption|]. apply Z.pow_nonneg. lia.
  - apply to_double_mantissa in H; [tauto|assumption|].
    apply Z.pow_pos_nonneg; lia.
Qed.

Lemma py_float_mantissa value neg m e :
  py_float value = Ok (Finite neg m e) -> 0 <= m.
Proof.
  unfold py_float.
  destruct (strip_underscores _ _) as [s|]; [|discriminate].
  destruct (parse_decimal _) as [x|] eqn:E.
  - intros [= ->]. now apply parse_decimal_mantissa in E.
  - unfold parse_inf_or_nan. destruct (split_sign _) as [sg s0].
    destruct (_ || _); [discriminate|]. destruct (String.eqb _ _); discriminate.
Qed.

Lemma cents_nonneg m e : 0 <= m -> 0 <= cents m e.
Proof.
  intros Hm. unfold cents.
  destruct (scaled (m * 100) 1 (- e)) as [a b] eqn:E.
  pose proof (scaled_pos (m * 100) 1 (- e) ltac:(lia) ltac:(lia)) as [Ha Hb].
  rewrite E in Ha, Hb. now apply round_half_even_nonneg.
Qed.

(** [cents m e] is the whole number nearest to [100 * m * 2^e]. *)
Lemma cents_near m e :
  2 * Z.abs (m * 100 * 2 ^ Z.max 0 e - cents m e * 2 ^ Z.max 0 (- e))
  <= 2 ^ Z.max 0 (- e).
Proof.
  unfold cents, scaled. rewrite Z.opp_involutive, Z.mul_1_l.
  apply round_half_even_near. apply Z.pow_pos_nonneg; lia.
Qed.

(* ----------------------------------------------------------------- *)
(** ** [format_value] *)

Lemma format_value_branches value metric_name :
  format_value value metric_name =
  if str_in metric_name currency_metrics then Ok (format_currency value)
  else if str_in metric_name percentage_metrics then
    Ok (if endswith_char value "%" then value else value ++ "%")
  else Ok (format_count value).
Proof.
  unfold format_value, format_currency, format_count.
  destruct (str_in metric_name currency_metrics); [reflexivity|].
  destruct (str_in metric_name percentage_metrics); [|reflexivity].
  now destruct (endswith_char value "%").
Qed.

Lemma format_currency_fixed value :
  format_currency (format_currency value) = format_currency value.
Proof.
  unfold format_currency at 2 3.
  destruct (py_float value) as [x|e] eqn:E; simpl.
  - unfold format_currency. now rewrite py_float_dollar.
  - unfold format_currency. now rewrite E.
Qed.

(** The whole numbers written without a comma are their own rendering. *)
Lemma format_count_small_checked :
  forallb (fun k =>
             let s := format_int_grouped (Z.of_nat k - 999) in
             String.eqb (format_count s) s) (seq 0 1999) = true.
Proof. vm_compute. reflexivity. Qed.

Lemma format_count_small n :
  -1000 < n < 1000 ->
  format_count (format_int_grouped n) = format_int_grouped n.
Proof.
  intros H. pose proof format_count_small_checked as C.
  rewrite forallb_forall in C.
  specialize (C (Z.to_nat (n + 999))).
  replace (Z.of_nat (Z.to_nat (n + 999)) - 999) with n in C by lia.
  apply String.eqb_eq, C, in_seq. lia.
Qed.

Lemma format_count_grouped n :
  format_count (format_int_grouped n) = format_int_grouped n.
Proof.
  destruct (Nat.le_gt_cases 4 (String.length (digits (Z.abs_N n)))) as [H|H].
  - unfold format_count. rewrite py_float_comma; [reflexivity|].
    unfold format_int_grouped. rewrite contains_char_app, group3_long by assumption.
    apply orb_true_r.
  - apply format_count_small.
    assert (Z.abs_N n < 1000)%N by (apply digits_short; lia). lia.
Qed.

Lemma format_count_fixed value :
  format_count (format_count value) = format_count value.
Proof.
  unfold format_count at 2 3.
  destruct (py_float value) as [x|e] eqn:E; simpl.
  - destruct (py_int x) as [n|e] eqn:En; simpl.
    + apply format_count_grouped.
    + unfold format_count. rewrite E. cbn [bind]. now rewrite En.
  - unfold format_count. now rewrite E.
Qed.

(** C10. [format_value] is idempotent: formatting the text it returned,
    for the same metric, returns that text again.  A formatted currency
    amount begins with the currency symbol and a grouped count of four
    digits or more holds a comma, so neither reads as a number; a count of
    up to three digits reads as itself; a percentage already ends with the
    percent sign. *)
Theorem format_value_idempotent value metric_name :
  (s <- format_value value metric_name ;; format_value s metric_name)
  = format_value value metric_name.
Proof.
  rewrite (format_value_branches value).
  destruct (str_in metric_name currency_metrics) eqn:Ec;
    [|destruct (str_in metric_name percentage_metrics) eqn:Ep];
    cbn [bind]; rewrite format_value_branches, Ec, ?Ep.
  - now rewrite format_currency_fixed.
  - destruct (endswith_char value "%") eqn:E.
    + now rewrite E.
    + now rewrite endswith_char_app.
  - now rewrite format_count_fixed.
Qed.

(** C5. [format_value] is total: for every text and every metric name it
    returns a text and raises nothing, the two bare [except:] clauses
    catching whatever [float], [int] and the formatting raise; where it
    reads the text as a number (every metric but the two percentages) and
    the text is no number, it returns the text as it was given. *)
Theorem format_value_total value metric_name :
  (exists s, format_value value metric_name = Ok s)
  /\ (forall e, py_float value = Raise e ->
        str_in metric_name percentage_metrics = false ->
        format_value value metric_name = Ok value).
Proof.
  rewrite format_value_branches. split.
  - destruct (str_in metric_name currency_metrics); [eauto|].
    destruct (str_in metric_name percentage_metrics); eauto.
  - intros e E ->. unfold format_currency, format_count. rewrite E.
    now destruct (str_in metric_name currency_metrics).
Qed.

Lemma format_value_total_witness :
  (exists s, format_value "12 apples" "Total New Members" = Ok s)
  /\ format_value "12 apples" "Total New Members" = Ok "12 apples".
Proof.
  split.
  - exact (proj1 (format_value_total "12 apples" "Total New Members")).
  - apply (proj2 (format_value_total "12 apples" "Total New Members")
             ValueError); reflexivity.
Defined.

(** C4 (what the code does at a story that reads as a number).
    [format_value] has no branch for free text: "New Member Stories" falls
    into the last branch and a story that reads as a number is rewritten as
    a grouped count, while the form itself (lines 294-295) stores the story
    as it was typed. *)
Theorem format_value_story_reformatted :
  format_value "1234" "New Member Stories" = Ok "1,234"
  /\ format_value "12.9 miles" "New Member Stories" = Ok "12.9 miles"
  /\ format_value "12.9" "New Member Stories" = Ok "12"
  /\ entered_value "New Member Stories" (StoryContent "1234") = Some "1234".
Proof. repeat split; vm_compute; reflexivity. Qed.

(* ----------------------------------------------------------------- *)
(** ** Currency *)

Lemma match_minus_other c r :
  c <> "-"%char ->
  match String c r with String "-" r' => r' | _ => String c r end = String c r.
Proof.
  intros H. destruct c as [[] [] [] [] [] [] [] []]; try reflexivity; congruence.
Qed.

Lemma two_digits_shape n :
  0 <= n < 100 ->
  exists a b, two_digits n = String a (String b "")
              /\ is_digit a = true /\ is_digit b = true.
Proof.
  intros H. unfold two_digits.
  destruct (digits_below_10 (Z.to_N (n / 10))) as (a & -> & Ha).
  { assert (0 <= n / 10 < 10) by (split; [apply Z.div_pos|apply Z.div_lt_upper_bound]; lia). lia. }
  destruct (digits_below_10 (Z.to_N (n mod 10))) as (b & -> & Hb).
  { pose proof (Z.mod_pos_bound n 10). lia. }
  now exists a, b.
Qed.

(** The text of an amount of [c] hundredths is a currency text. *)
Lemma currency_text_shape (neg : bool) c :
  0 <= c ->
  is_currency_text
    ("$" ++ (if neg then "-" else "")
         ++ group3 (digits (Z.to_N (c / 100))) ++ "." ++ two_digits (c mod 100))
  = true.
Proof.
  intros Hc.
  destruct (two_digits_shape (c mod 100)) as (a & b & -> & Ha & Hb).
  { apply Z.mod_pos_bound. lia. }
  set (w := group3 (digits (Z.to_N (c / 100)))).
  assert (Hw : well_grouped w = true).
  { apply group3_well_grouped; [apply digits_all_digits|apply digits_nonempty]. }
  assert (Hp : all_chars not_point w = true).
  { eapply all_chars_weaken; [|apply group3_chars, digits_all_digits].
    intros d [Hd|Hd]%orb_prop.
    - unfold not_point. destruct (Ascii.eqb_spec d "."); [subst; discriminate|reflexivity].
    - apply Ascii.eqb_eq in Hd. now subst. }
  destruct (take_while_app_stop not_point w "." (String a (String b ""))
              Hp eq_refl) as [Ht Hd].
  assert (Hbody : forall r, r = w ++ "." ++ String a (String b "") ->
            well_grouped (take_while not_point r)
            && match drop_while not_point r with
               | String "." (String a (String b EmptyString)) =>
                   is_digit a && is_digit b
               | _ => false
               end = true).
  { intros r ->. cbn [append] in *. rewrite Ht, Hd, Hw, Ha, Hb. reflexivity. }
  destruct neg; cbn [append]; unfold is_currency_text.
  - apply Hbody. reflexivity.
  - destruct w as [|d w'] eqn:Ew; [discriminate|].
    cbn [append]. rewrite match_minus_other.
    + apply (Hbody (String d (w' ++ "." ++ String a (String b "")))). reflexivity.
    + intros ->. unfold well_grouped in Hw. discriminate.
Qed.

(** C6, as the code has it.  For a currency metric, a text that [float]
    reads as a finite number is returned as the currency symbol, a minus
    sign when the number is negative, the number of whole units with
    thousands grouping, a point and two decimals, the amount being the
    number rounded to the nearest hundredth; a text read as an infinity or
    as a NaN comes back as "$inf", "$-inf" or "$nan"; a text [float]
    rejects comes back unchanged. *)
Theorem format_value_currency value metric_name :
  str_in metric_name currency_metrics = true ->
  match py_float value with
  | Ok (Finite neg m e) =>
      exists c s,
        0 <= c
        /\ 2 * Z.abs (m * 100 * 2 ^ Z.max 0 e - c * 2 ^ Z.max 0 (- e))
           <= 2 ^ Z.max 0 (- e)
        /\ s = "$" ++ (if neg then "-" else "")
                   ++ group3 (digits (Z.to_N (c / 100)))
                   ++ "." ++ two_digits (c mod 100)
        /\ format_value value metric_name = Ok s
        /\ is_currency_text s = true
  | Ok (Infinite neg) =>
      format_value value metric_name = Ok (if neg then "$-inf" else "$inf")
  | Ok NaN => format_value value metric_name = Ok "$nan"
  | Raise _ => format_value value metric_name = Ok value
  end.
Proof.
  intros Hm. rewrite format_value_branches, Hm. unfold format_currency.
  destruct (py_float value) as [[neg m e| [] |]|] eqn:E; try reflexivity.
  pose proof (py_float_mantissa _ _ _ _ E) as Hm0.
  pose proof (cents_nonneg m e Hm0) as Hc.
  exists (cents m e). eexists. split; [assumption|].
  split; [apply cents_near|]. split; [reflexivity|]. split.
  - reflexivity.
  - now apply currency_text_shape.
Qed.

Lemma format_value_currency_witness :
  exists c s,
    0 <= c
    /\ 2 * Z.abs (5429388417957888 * 100 * 2 ^ Z.max 0 (-42)
                  - c * 2 ^ Z.max 0 (- -42)) <= 2 ^ Z.max 0 (- -42)
    /\ s = "$" ++ "" ++ group3 (digits (Z.to_N (c / 100)))
               ++ "." ++ two_digits (c mod 100)
    /\ format_value "1234.5" "Total Contributions" = Ok s
    /\ is_currency_text s = true.
Proof.
  exact (format_value_currency "1234.5" "Total Contributions" eq_refl).
Defined.

Example format_value_currency_example :
  format_value "1234.5" "Total Contributions" = Ok "$1,234.50"
  /\ format_value "2000" "Total New Members" = Ok "2,000"
  /\ format_value "twelve" "Total Contributions" = Ok "twelve".
Proof. repeat split; vm_compute; reflexivity. Qed.

(** C6, as stated, fails at the text "nan" (and likewise at "inf"): [float]
    reads it, so it is not returned unchanged, and what is returned has no
    digits at all. *)
Lemma format_value_currency_nan :
  py_float "nan" = Ok NaN
  /\ format_value "nan" "Total Contributions" = Ok "$nan"
  /\ is_currency_text "$nan" = false
  /\ "$nan" <> "nan".
Proof. repeat split; try (vm_compute; reflexivity). discriminate. Qed.

(* ----------------------------------------------------------------- *)
(** ** Writing a frame and reading it back *)

Lemma run_app s s' t : run (s ++ s') t = run s' (run s t).
Proof. revert t. induction s as [|c s IH]; intros t; simpl; auto. Qed.

Lemma plain_inv c :
  plain c = true ->
  Ascii.eqb c comma = false /\ Ascii.eqb c dquote = false
  /\ Ascii.eqb c LF = false /\ Ascii.eqb c CR = false.
Proof.
  unfold plain, special, lineterminator. simpl.
  destruct (Ascii.eqb c comma), (Ascii.eqb c dquote), (Ascii.eqb c LF),
    (Ascii.eqb c CR); simpl; intros H; try discriminate; auto.
Qed.

Lemma all_plain s :
  must_quote s = false -> no_CR s = true -> all_chars plain s = true.
Proof.
  unfold no_CR.
  induction s as [|c s IH]; cbn [must_quote contains_char all_chars];
    [reflexivity|].
  intros [Hc Hs]%orb_false_elim H.
  apply negb_true_iff, orb_false_elim in H as [H1 H2].
  rewrite IH by (try assumption; now rewrite H2).
  unfold plain. rewrite Hc. rewrite Ascii.eqb_sym in H1. now rewrite H1.
Qed.

Lemma step_field_in_plain c f l ls :
  plain c = true ->
  step_field c (tok IN_FIELD f l ls) = tok IN_FIELD (f ++ String c "") l ls.
Proof.
  intros (H1 & H2 & H3 & H4)%plain_inv.
  unfold step_field, tok. cbn [state]. now rewrite H3, H4, H1.
Qed.

Lemma step_field_start_plain c f l ls :
  plain c = true ->
  step_field c (tok START_FIELD f l ls)
  = tok IN_FIELD (f ++ String c "") l ls.
Proof.
  intros (H1 & H2 & H3 & H4)%plain_inv.
  unfold step_field, tok. cbn [state]. now rewrite H3, H4, H2, H1.
Qed.

Lemma step_in_field_plain c f l ls :
  plain c = true ->
  step c (tok IN_FIELD f l ls) = tok IN_FIELD (f ++ String c "") l ls.
Proof. apply step_field_in_plain. Qed.

Lemma run_in_field_plain s f l ls :
  all_chars plain s = true ->
  run s (tok IN_FIELD f l ls) = tok IN_FIELD (f ++ s) l ls.
Proof.
  revert f. induction s as [|c s IH]; intros f; cbn [run all_chars].
  - intros _. now rewrite append_empty_r.
  - intros [Hc Hs]%andb_prop. rewrite step_in_field_plain by assumption.
    rewrite IH by assumption. now rewrite append_assoc.
Qed.

Lemma run_field_in_plain s f l ls :
  all_chars plain s = true ->
  run_field s (tok IN_FIELD f l ls) = tok IN_FIELD (f ++ s) l ls.
Proof.
  revert f. induction s as [|c s IH]; intros f; cbn [run_field all_chars].
  - intros _. now rewrite append_empty_r.
  - intros [Hc Hs]%andb_prop. rewrite step_field_in_plain by assumption.
    rewrite IH by assumption. now rewrite append_assoc.
Qed.

Lemma run_field_plain c s l ls :
  all_chars plain (String c s) = true ->
  run_field (String c s) (tok START_FIELD "" l ls)
  = tok IN_FIELD (String c s) l ls.
Proof.
  cbn [run_field all_chars]. intros [Hc Hs]%andb_prop.
  rewrite step_field_start_plain by assumption.
  now rewrite run_field_in_plain.
Qed.

Lemma step_in_field_comma f l ls :
  step comma (tok IN_FIELD f l ls) = tok START_FIELD "" (l ++ [f])%list ls.
Proof. reflexivity. Qed.

Lemma step_in_field_LF f l ls :
  step LF (tok IN_FIELD f l ls) = tok START_RECORD "" [] (ls ++ [l ++ [f]])%list.
Proof. reflexivity. Qed.

(** An unquoted field and the separator after it, read where a field is
    expected. *)
Lemma run_unquoted f l ls :
  all_chars plain f = true ->
  run (f ++ String comma "") (tok START_FIELD "" l ls)
  = tok START_FIELD "" (l ++ [f])%list ls
  /\ run (f ++ String LF "") (tok START_FIELD "" l ls)
     = tok START_RECORD "" [] (ls ++ [l ++ [f]])%list.
Proof.
  destruct f as [|c f]; [intros _; split; reflexivity|].
  cbn [all_chars append run]. intros [Hc Hf]%andb_prop.
  change (step c (tok START_FIELD "" l ls))
    with (step_field c (tok START_FIELD "" l ls)).
  rewrite step_field_start_plain by assumption.
  rewrite !run_app, run_in_field_plain by assumption. cbn [run append].
  now rewrite step_in_field_comma, step_in_field_LF.
Qed.

Lemma run_quoted_body f g l ls :
  run (double_quotes f) (tok IN_QUOTED_FIELD g l ls)
  = tok IN_QUOTED_FIELD (g ++ f) l ls.
Proof.
  revert g. induction f as [|c f IH]; intros g; cbn [double_quotes run].
  - now rewrite append_empty_r.
  - destruct (Ascii.eqb c dquote) eqn:E; cbn [run].
    + apply Ascii.eqb_eq in E. subst c.
      change (step dquote (step dquote (tok IN_QUOTED_FIELD g l ls)))
        with (tok IN_QUOTED_FIELD (g ++ String dquote "") l ls).
      rewrite IH. now rewrite append_assoc.
    + replace (step c (tok IN_QUOTED_FIELD g l ls))
        with (tok IN_QUOTED_FIELD (g ++ String c "") l ls).
      * rewrite IH. now rewrite append_assoc.
      * unfold step, step_field, tok. cbn [state]. now rewrite E.
Qed.

(** A quoted field and the separator after it, read from inside the
    opening quote. *)
Lemma run_quoted_rest f l ls :
  run (double_quotes f ++ String dquote (String comma ""))
    (tok IN_QUOTED_FIELD "" l ls)
  = tok START_FIELD "" (l ++ [f])%list ls
  /\ run (double_quotes f ++ String dquote (String LF ""))
       (tok IN_QUOTED_FIELD "" l ls)
     = tok START_RECORD "" [] (ls ++ [l ++ [f]])%list.
Proof. rewrite !run_app, run_quoted_body. split; reflexivity. Qed.

Lemma quoted_app f s :
  quoted f ++ s = String dquote (double_quotes f ++ String dquote s).
Proof. unfold quoted. cbn [append]. now rewrite append_assoc. Qed.

(** A written field and the separator after it, read where a field is
    expected. *)
Lemma run_write_field f l ls :
  no_CR f = true ->
  run (write_field f ++ String comma "") (tok START_FIELD "" l ls)
  = tok START_FIELD "" (l ++ [f])%list ls
  /\ run (write_field f ++ String LF "") (tok START_FIELD "" l ls)
     = tok START_RECORD "" [] (ls ++ [l ++ [f]])%list.
Proof.
  intros H. unfold write_field. destruct (must_quote f) eqn:E.
  - rewrite !quoted_app. cbn [run].
    change (step dquote (tok START_FIELD "" l ls))
      with (tok IN_QUOTED_FIELD "" l ls).
    apply run_quoted_rest.
  - apply run_unquoted, all_plain; assumption.
Qed.

Lemma whitespace_plain c : IS_WHITESPACE c = true -> plain c = true.
Proof.
  unfold IS_WHITESPACE.
  intros [H|H]%orb_prop; apply Ascii.eqb_eq in H; subst; reflexivity.
Qed.

Lemma step_whitespace_line c seen l ls :
  plain c = true ->
  step c (tok (WHITESPACE_LINE seen) "" l ls)
  = if IS_WHITESPACE c
    then tok (WHITESPACE_LINE (seen ++ String c "")) "" l ls
    else step_field c (run_field seen (tok START_FIELD "" l ls)).
Proof.
  intros (H1 & H2 & H3 & H4)%plain_inv.
  unfold step, tok. cbn [state]. now rewrite H3, H4.
Qed.

(** The rest of a first field that began with blanks. *)
Lemma run_whitespace_line rest c seen ls :
  all_chars IS_WHITESPACE (String c seen) = true ->
  all_chars plain rest = true ->
  run (rest ++ String comma "") (tok (WHITESPACE_LINE (String c seen)) "" [] ls)
  = tok START_FIELD "" [String c seen ++ rest] ls.
Proof.
  revert seen. induction rest as [|d rest IH]; intros seen Hseen Hrest.
  - cbn [append run].
    assert (Hp : all_chars plain (String c seen) = true)
      by (eapply all_chars_weaken; [apply whitespace_plain|assumption]).
    replace (step comma (tok (WHITESPACE_LINE (String c seen)) "" [] ls))
      with (step_field comma (run_field (String c seen)
                                (tok START_FIELD "" [] ls)))
      by reflexivity.
    rewrite run_field_plain by assumption.
    now rewrite append_empty_r.
  - cbn [all_chars] in Hrest. apply andb_prop in Hrest as [Hd Hrest].
    cbn [append run]. rewrite step_whitespace_line by assumption.
    destruct (IS_WHITESPACE d) eqn:Ed.
    + change (String c seen ++ String d "") with (String c (seen ++ String d "")).
      rewrite IH; try assumption.
      * cbn [append]. now rewrite append_assoc.
      * cbn [all_chars] in *. apply andb_prop in Hseen as [-> Hseen].
        rewrite all_chars_app, Hseen. cbn. now rewrite Ed.
    + assert (Hp : all_chars plain (String c seen) = true)
        by (eapply all_chars_weaken; [apply whitespace_plain|assumption]).
      rewrite run_field_plain by assumption.
      rewrite step_field_in_plain by assumption.
      rewrite run_app, run_in_field_plain by assumption.
      cbn [run]. rewrite step_in_field_comma.
      now rewrite append_assoc.
Qed.

(** The first field of a line and the comma after it. *)
Lemma run_first_field f ls :
  no_CR f = true ->
  run (write_field f ++ String comma "") (tok START_RECORD "" [] ls)
  = tok START_FIELD "" [f] ls.
Proof.
  intros H. unfold write_field. destruct (must_quote f) eqn:E.
  - rewrite quoted_app. cbn [run].
    change (step dquote (tok START_RECORD "" [] ls))
      with (tok IN_QUOTED_FIELD "" [] ls).
    apply run_quoted_rest.
  - pose proof (all_plain f E H) as Hp.
    destruct f as [|c f]; [reflexivity|].
    cbn [all_chars] in Hp. apply andb_prop in Hp as [Hc Hf].
    pose proof (plain_inv c Hc) as (H1 & H2 & H3 & H4).
    cbn [append run].
    assert (Es : step c (tok START_RECORD "" [] ls)
                 = if IS_WHITESPACE c
                   then tok (WHITESPACE_LINE (String c "")) "" [] ls
                   else step_field c (tok START_FIELD "" [] ls)).
    { unfold step, step_record, tok. cbn [state]. now rewrite H3, H4. }
    rewrite Es. destruct (IS_WHITESPACE c) eqn:Ew.
    + rewrite run_whitespace_line; [reflexivity| |assumption].
      cbn. now rewrite Ew.
    + rewrite step_field_start_plain by assumption.
      rewrite run_app, run_in_field_plain by assumption.
      cbn [run]. now rewrite step_in_field_comma.
Qed.

Lemma concat_cons2 sep (a b : string) l :
  String.concat sep (a :: b :: l) = a ++ sep ++ String.concat sep (b :: l).
Proof. reflexivity. Qed.

(** The fields of a line after the first, and the line feed. *)
Lemma run_row_tail f r l ls :
  forallb no_CR (f :: r) = true ->
  run (String.concat (String comma "") (map write_field (f :: r))
       ++ lineterminator) (tok START_FIELD "" l ls)
  = tok START_RECORD "" [] (ls ++ [l ++ f :: r])%list.
Proof.
  revert f l. induction r as [|g r IH]; intros f l; cbn [forallb map].
  - rewrite andb_true_r. intros H. cbn [String.concat].
    now apply run_write_field.
  - intros [Hf Hr]%andb_prop. rewrite concat_cons2, !append_assoc.
    rewrite <- (append_assoc (write_field f)), run_app.
    rewrite (proj1 (run_write_field f l ls Hf)).
    change (write_field g :: map write_field r)
      with (map write_field (g :: r)).
    rewrite (IH g (l ++ [f])%list) by exact Hr.
    now rewrite <- app_assoc.
Qed.

Lemma writerow_cons2 a b l :
  writerow (a :: b :: l)
  = write_field a ++ String comma ""
      ++ (String.concat (String comma "") (map write_field (b :: l))
          ++ lineterminator).
Proof.
  unfold writerow. cbn [map]. rewrite concat_cons2, !append_assoc.
  destruct a; reflexivity.
Qed.

(** A line of two fields or more is read back as it was written. *)
Lemma run_writerow fields ls :
  (2 <= List.length fields)%nat -> forallb no_CR fields = true ->
  run (writerow fields) (tok START_RECORD "" [] ls)
  = tok START_RECORD "" [] (ls ++ [fields])%list.
Proof.
  destruct fields as [|a [|b r]]; cbn [List.length]; try lia.
  intros _. cbn [forallb]. intros [Ha Hr]%andb_prop.
  rewrite writerow_cons2, <- append_assoc, run_app.
  rewrite run_first_field by assumption.
  now rewrite run_row_tail.
Qed.

Lemma run_rows rows ls :
  Forall (fun r => (2 <= List.length r)%nat /\ forallb no_CR r = true) rows ->
  run (concat_strings (map writerow rows)) (tok START_RECORD "" [] ls)
  = tok START_RECORD "" [] (ls ++ rows)%list.
Proof.
  intros H. revert ls.
  induction H as [|r rows [Hl Hr] _ IH]; intros ls; cbn [map concat_strings run].
  - now rewrite app_nil_r.
  - rewrite run_app, run_writerow, IH by assumption.
    now rewrite <- app_assoc.
Qed.

Lemma tokenize_to_csv df :
  rectangular df -> free_of_CR df ->
  tokenize (to_csv df)
  = Ok (columns df :: map (map cell_text) (rows df)).
Proof.
  intros [Hc Hr] [Hcc Hcr]. unfold tokenize, to_csv.
  change tokenizer_init with (tok START_RECORD "" [] []).
  rewrite run_app, run_writerow by assumption.
  rewrite <- map_map, run_rows.
  - reflexivity.
  - apply Forall_map. rewrite Forall_forall in *.
    intros r Hin. rewrite length_map. split; [rewrite Hr by assumption; lia|].
    now apply Hcr.
Qed.




(* ----------------------------------------------------------------- *)
(** ** Export and reparse *)







(* ----------------------------------------------------------------- *)
(** ** Filtering *)

Lemma filter_twice {A : Type} (p q : A -> bool) l :
  filter q (filter p l) = filter (fun x => p x && q x) l.
Proof.
  induction l as [|x l IH]; [reflexivity|]. cbn [filter].
  destruct (p x); cbn [filter andb]; now rewrite IH.
Qed.

Lemma index_of_In name cols :
  In name cols -> exists i, index_of name cols = Some i.
Proof.
  induction cols as [|c cols IH]; [contradiction|]. cbn [index_of].
  destruct (String.eqb_spec name c) as [->|Hne]; [eauto|].
  intros [<-|Hin]; [congruence|].
  destruct (IH Hin) as [i ->]. cbn. eauto.
Qed.

(** C8. The filter of the page is a function of the loaded frame and the
    two selections alone.  With both select boxes at their first option
    ("All Sections", "All Metrics": no filter) it returns the frame as it
    is; with both at a value it returns, in their order, exactly the rows
    whose section is the one selected and whose metric is the one
    selected. *)
Theorem apply_filters_spec (df : DataFrame) :
  apply_filters df (Some "All Sections") (Some "All Metrics") = Ok df
  /\ forall section metric,
       section <> "All Sections" -> metric <> "All Metrics" ->
       In "dashboard_section" (columns df) ->
       In "metric_name" (columns df) ->
       apply_filters df (Some section) (Some metric)
       = Ok {| columns := columns df;
               rows :=
                 filter
                   (fun r =>
                      cell_eqb (cell_at (columns df) r "dashboard_section")
                        (Some section)
                      && cell_eqb (cell_at (columns df) r "metric_name")
                           (Some metric))
                   (rows df) |}.
Proof.
  split; [reflexivity|].
  intros section metric Hs Hm Hcs Hcm. unfold apply_filters.
  cbn [cell_eqb]. apply String.eqb_neq in Hs, Hm. rewrite Hs, Hm.
  cbn [negb]. unfold select_eq.
  destruct (index_of_In _ _ Hcs) as [i Ei].
  destruct (index_of_In _ _ Hcm) as [j Ej].
  rewrite Ei. cbn [bind columns rows]. rewrite Ej.
  rewrite filter_twice. unfold cell_at. now rewrite Ei, Ej.
Qed.

Lemma apply_filters_spec_witness :
  apply_filters (frame_of_submissions [noted_submission; plain_submission])
    (Some "Recruitment") (Some "Total New Members")
  = Ok (frame_of_submissions [plain_submission]).
Proof.
  refine (proj2 (apply_filters_spec
                   (frame_of_submissions [noted_submission; plain_submission]))
            "Recruitment" "Total New Members" _ _ _ _);
    [discriminate|discriminate|cbn; tauto|cbn; tauto].
Defined.

(* ----------------------------------------------------------------- *)
(** ** The store *)

Lemma load_submissions_eq w :
  load_submissions w
  = (w, match submissions_file w with
        | Some text => read_csv text
        | None => Ok empty_submissions
        end).
Proof.
  unfold load_submissions, io_bind, os_path_exists, pd_read_csv, io_ret.
  destruct (submissions_file w) eqn:E; cbn; rewrite ?E; reflexivity.
Qed.

Lemma save_submission_eq f d w :
  save_submission f d w
  = match snd (load_submissions w) with
    | Raise e => (w, Raise e)
    | Ok df =>
        let text := to_csv (concat df (frame_of_submissions [d])) in
        match f with
        | NoFault => ({| submissions_file := Some text |}, Ok true)
        | OpenFails => (w, Raise OSError)
        | WriteFails n =>
            ({| submissions_file := Some (firstn_string n text) |},
             Raise OSError)
        end
    end.
Proof.
  unfold save_submission, io_bind. rewrite load_submissions_eq. cbn [snd].
  destruct (match submissions_file w with
            | Some text => read_csv text
            | None => Ok empty_submissions
            end); [|reflexivity].
  unfold to_csv_file, io_ret. now destruct f.
Qed.

Lemma firstn_string_all s : forall n,
  (String.length s <= n)%nat -> firstn_string n s = s.
Proof.
  induction s as [|c s IH]; intros [|n] H; cbn [firstn_string];
    try reflexivity; cbn [String.length] in H; [lia|].
  rewrite IH by lia. reflexivity.
Qed.

(** C9, as the code has it.  While the file does not exist,
    [load_submissions] returns the empty frame (the nine columns, no row)
    as its ordinary result, raising nothing, and leaves the file absent;
    no call of it ever changes the world.  Saving to the world without
    the file, on a working medium, succeeds and leaves the file there.
    A save that fails leaves no file only if it failed to open the file:
    when the write gives out after the file was opened, the save raises
    and the file is there all the same, holding what had been written. *)
Theorem load_without_file :
  load_submissions no_file = (no_file, Ok empty_submissions)
  /\ rows empty_submissions = []
  /\ (forall w, fst (load_submissions w) = w)
  /\ (forall d, exists text,
        save_submission NoFault d no_file
        = ({| submissions_file := Some text |}, Ok true))
  /\ (forall d, save_submission OpenFails d no_file = (no_file, Raise OSError))
  /\ (forall d n,
        save_submission (WriteFails n) d no_file
        = ({| submissions_file :=
                Some (firstn_string n
                        (to_csv (concat empty_submissions
                                   (frame_of_submissions [d])))) |},
           Raise OSError)).
Proof.
  repeat split.
  - intros w. now rewrite load_submissions_eq.
  - intros d. rewrite save_submission_eq. cbn. eauto.
Qed.

(** C9, as stated, fails when the disk is full at the first submission:
    the save raises, and the file, which was not there, is there and
    empty. *)
Lemma failed_append_leaves_file :
  save_submission (WriteFails 0) plain_submission no_file
  = ({| submissions_file := Some "" |}, Raise OSError)
  /\ {| submissions_file := Some "" |} <> no_file.
Proof. split; [reflexivity|discriminate]. Qed.

(** C3, as the code has it.  When the medium cannot be written,
    [save_submission] raises and does not return [True]; what it raises
    is an [OSError] when the file could be read before.  The exception
    leaves the handler, which shows no message of its own.  When the file
    could not be read, what is raised is the exception of the read, and
    the file is as it was.  The file is also as it was when it could not
    be opened for writing.  When the write gave out after the file was
    opened, the file holds what had been written of the new text: the
    beginning of the old records and the new one, which is all of them if
    the failure came after the last character. *)
Theorem save_submission_on_failing_medium f d w :
  f <> NoFault ->
  (exists e, snd (save_submission f d w) = Raise e)
  /\ (forall df,
        snd (load_submissions w) = Ok df ->
        snd (save_submission f d w) = Raise OSError)
  /\ (forall u form env,
        medium env = f -> exists e, snd (handle_submit u form env w) = Raise e)
  /\ (f = OpenFails -> fst (save_submission f d w) = w)
  /\ (forall n df,
        f = WriteFails n -> snd (load_submissions w) = Ok df ->
        fst (save_submission f d w)
        = {| submissions_file :=
               Some (firstn_string n
                       (to_csv (concat df (frame_of_submissions [d])))) |})
  /\ (forall n df,
        f = WriteFails n -> snd (load_submissions w) = Ok df ->
        (String.length (to_csv (concat df (frame_of_submissions [d]))) <= n)%nat ->
        fst (save_submission f d w) = fst (save_submission NoFault d w))
  /\ (forall e,
        snd (load_submissions w) = Raise e ->
        save_submission f d w = (w, Raise e)).
Proof.
  intros Hf.
  assert (Hsave : forall d', exists e, snd (save_submission f d' w) = Raise e).
  { intros d'. rewrite save_submission_eq.
    destruct (snd (load_submissions w)); [|cbn; eauto].
    destruct f; [contradiction|cbn; eauto ..]. }
  split; [apply Hsave|]. split; [|split; [|split; [|split; [|split]]]].
  - intros df E. rewrite save_submission_eq, E.
    destruct f; [contradiction|reflexivity ..].
  - intros u form env <-. unfold handle_submit.
    destruct (submission_of u form env) as [d'|e]; [|cbn; eauto].
    unfold io_bind. destruct (Hsave d') as [e He].
    destruct (save_submission (medium env) d' w) as [w' [b|e']];
      [discriminate|cbn; eauto].
  - intros ->. rewrite save_submission_eq.
    now destruct (snd (load_submissions w)).
  - intros n df -> E. rewrite save_submission_eq, E. reflexivity.
  - intros n df -> E Hn. rewrite !save_submission_eq, E. cbn [fst].
    now rewrite firstn_string_all.
  - intros e E. rewrite save_submission_eq, E. reflexivity.
Qed.

Lemma save_submission_on_failing_medium_witness :
  (exists e, snd (save_submission OpenFails plain_submission one_note_file)
             = Raise e)
  /\ snd (save_submission OpenFails plain_submission one_note_file)
     = Raise OSError
  /\ fst (save_submission OpenFails plain_submission one_note_file)
     = one_note_file.
Proof.
  pose proof (save_submission_on_failing_medium OpenFails plain_submission
                one_note_file ltac:(discriminate)) as (H1 & H2 & _ & H4 & _).
  split; [exact H1|].
  split; [exact (H2 (loaded [noted_submission]) eq_refl)|exact (H4 eq_refl)].
Defined.

(** C3, as stated, fails on a disk that fills up while the file is being
    rewritten.  If that happens after 20 characters, the submission is not
    saved and the record that was in the file is gone with it.  If it
    happens after the last character, the call raises all the same, and
    the record it could not save, as it must seem, is in the file. *)
Lemma save_submission_disk_full :
  (snd (save_submission (WriteFails 20) plain_submission one_note_file)
   = Raise OSError
   /\ fst (save_submission (WriteFails 20) plain_submission one_note_file)
      = {| submissions_file := Some "submission_id,timest" |}
   /\ fst (save_submission (WriteFails 20) plain_submission one_note_file)
      <> one_note_file
   /\ snd (load_submissions
             (fst (save_submission (WriteFails 20) plain_submission
                     one_note_file)))
      = Ok {| columns := ["submission_id"; "timest"]; rows := [] |})
  /\ (snd (save_submission (WriteFails 1000) plain_submission one_note_file)
      = Raise OSError
      /\ fst (save_submission (WriteFails 1000) plain_submission one_note_file)
         = fst (save_submission NoFault plain_submission one_note_file)
      /\ (r <- snd (load_submissions
                      (fst (save_submission (WriteFails 1000)
                              plain_submission one_note_file))) ;;
          column r "submission_id")
         = Ok [Some (submission_id noted_submission);
               Some (submission_id plain_submission)]).
Proof.
  repeat split; try (vm_compute; reflexivity). vm_compute. discriminate.
Qed.

(* ----------------------------------------------------------------- *)
(** ** Identifiers *)

Lemma length_substring s : forall n m,
  (n + m <= String.length s)%nat -> String.length (substring n m s) = m.
Proof.
  induction s as [|c s IH]; intros n m H; cbn [String.length] in H.
  - assert (n = 0%nat) as -> by lia. assert (m = 0%nat) as -> by lia.
    reflexivity.
  - destruct n as [|n]; cbn [substring].
    + destruct m as [|m]; [reflexivity|]. cbn [String.length].
      rewrite IH by lia. reflexivity.
    + apply IH. lia.
Qed.



Lemma hex_length w n : String.length (hex w n) = w.
Proof.
  revert n. induction w as [|w IH]; intros n; [reflexivity|].
  cbn [hex]. rewrite string_length_app, IH. cbn. lia.
Qed.












Lemma uuid_str_length n : String.length (uuid_str n) = 36%nat.
Proof.
  unfold uuid_str. pose proof (hex_length 32 n) as Hl.
  rewrite !string_length_app, !length_substring by lia. reflexivity.
Qed.

Lemma uuid_str_nonempty n : uuid_str n <> "".
Proof.
  intros E. pose proof (uuid_str_length n) as H. rewrite E in H. discriminate.
Qed.





(* ----------------------------------------------------------------- *)
(** ** Saving and loading *)







(** Nine cells under the nine labels, read label by label, are the nine
    cells. *)
Lemma reindex_same (r : list cell) :
  List.length r = 9%nat ->
  map (cell_at SUBMISSION_COLUMNS r) SUBMISSION_COLUMNS = r.
Proof.
  intros H.
  do 9 (destruct r as [|? r]; [discriminate|]).
  destruct r; [reflexivity|discriminate].
Qed.














Example append_then_load_example :
  snd (load_submissions (fst (handle_submits two_submissions no_file)))
  = Ok {| columns := SUBMISSION_COLUMNS;
          rows :=
            [[Some "7c9e6679-7425-40de-944b-e07fc1f90ae7";
              Some "2025-03-14 09:30:00"; Some "GirlTREK"; Some "Admin";
              Some "admin@girltrek.org"; Some "Recruitment";
              Some "Total New Members"; Some "250"; None];
             [Some "0b8e2c1a-5d4f-4e6a-9c3b-7f1d2a6e8b90";
              Some "2025-03-14 09:31:07"; Some "GirlTREK"; Some "Admin";
              Some "admin@girltrek.org"; Some "Development";
              Some "Total Contributions"; Some "$1,234.50";
              Some "spring appeal, first week"]] |}.
Proof. vm_compute. reflexivity. Qed.

(* ----------------------------------------------------------------- *)
(** ** numpy's sort of an index array *)

Local Open Scope list_scope.
Local Open Scope nat_scope.

Lemma StronglySorted_app {A : Type} (R : A -> A -> Prop) l1 l2 :
  StronglySorted R l1 -> StronglySorted R l2 ->
  (forall x y, In x l1 -> In y l2 -> R x y) ->
  StronglySorted R (l1 ++ l2).
Proof.
  intros H1 H2 H. induction H1 as [|x l1 H1 IH Hx]; [exact H2|].
  cbn [app]. constructor.
  - apply IH. intros a b Ha Hb. apply H; [now right|assumption].
  - apply Forall_app. split; [assumption|].
    apply Forall_forall. intros y Hy. apply H; [now left|assumption].
Qed.

Lemma StronglySorted_app_inv {A : Type} (R : A -> A -> Prop) l1 l2 :
  StronglySorted R (l1 ++ l2) ->
  StronglySorted R l1 /\ StronglySorted R l2
  /\ (forall x y, In x l1 -> In y l2 -> R x y).
Proof.
  induction l1 as [|a l1 IH]; cbn [app]; intros H.
  - repeat split; [constructor|assumption|contradiction].
  - inversion H as [|? ? Hs Ha]; subst.
    destruct (IH Hs) as (H1 & H2 & H12).
    apply Forall_app in Ha as [Ha1 Ha2]. repeat split.
    + now constructor.
    + assumption.
    + intros x y [<-|Hx] Hy; [|now apply H12].
      rewrite Forall_forall in Ha2. now apply Ha2.
Qed.

Lemma StronglySorted_rev {A : Type} (R : A -> A -> Prop) l :
  StronglySorted R l -> StronglySorted (fun x y => R y x) (rev l).
Proof.
  induction 1 as [|x l Hs IH Hx]; [constructor|]. cbn [rev].
  apply StronglySorted_app; [assumption|repeat constructor|].
  intros a b Ha [<-|[]]. rewrite Forall_forall in Hx.
  apply Hx. now apply in_rev.
Qed.

Section NpysortSorts.

Variable less : nat -> nat -> bool.

(** The comparison is that of a strict order in which two elements may
    tie: if [x] sorts before [y] then [y] does not sort before [x], and
    "does not sort before" is transitive. *)
Hypothesis less_asym : forall x y, less x y = true -> less y x = false.
Hypothesis less_ntrans :
  forall x y z, less x y = false -> less y z = false -> less x z = false.

Lemma less_irrefl x : less x x = false.
Proof.
  destruct (less x x) eqn:E; [|reflexivity].
  now rewrite (less_asym _ _ E) in E.
Qed.

(** *** Insertion sort *)

Lemma insert_back_perm vi l : Permutation (vi :: l) (insert_back less vi l).
Proof.
  induction l as [|pk l IH]; cbn [insert_back]; [reflexivity|].
  destruct (less vi pk); [|reflexivity].
  rewrite perm_swap. now constructor.
Qed.

Lemma insert_back_descending vi l :
  descending less l -> descending less (insert_back less vi l).
Proof.
  unfold descending. induction 1 as [|pk l Hs IH Hpk]; cbn [insert_back].
  - repeat constructor.
  - destruct (less vi pk) eqn:E.
    + constructor; [assumption|].
      eapply Permutation_Forall; [apply insert_back_perm|].
      constructor; [now apply less_asym|assumption].
    + constructor; [now constructor|].
      constructor; [assumption|].
      eapply Forall_impl; [|exact Hpk]. intros z Hz. cbn beta in *.
      now apply less_ntrans with pk.
Qed.

Lemma insertion_from_sorts rest : forall sorted_rev,
  descending less sorted_rev ->
  ascending less (insertion_from less sorted_rev rest)
  /\ Permutation (rev sorted_rev ++ rest)
       (insertion_from less sorted_rev rest).
Proof.
  induction rest as [|vi rest IH]; intros sorted_rev Hs; cbn [insertion_from].
  - rewrite app_nil_r. split; [|reflexivity].
    now apply StronglySorted_rev in Hs.
  - destruct (IH _ (insert_back_descending vi _ Hs)) as [H1 H2].
    split; [assumption|]. rewrite <- H2.
    apply Permutation_trans with (rev (vi :: sorted_rev) ++ rest).
    + cbn [rev]. now rewrite <- app_assoc.
    + apply Permutation_app_tail, Permutation_rev', insert_back_perm.
Qed.

Lemma insertion_sort_sorts a :
  ascending less (insertion_sort less a)
  /\ Permutation a (insertion_sort less a).
Proof. apply (insertion_from_sorts a []). constructor. Qed.

End NpysortSorts.

(** *** Partition *)

(** Two lists of numbers are permutations of each other when each number
    occurs as often in the one as in the other; [perm_count] counts. *)
Ltac perm_facts x :=
  repeat match goal with
         | H : Permutation ?a ?b |- _ =>
             let H' := fresh "Hcount" in
             pose proof (proj1 (Permutation_count_occ Nat.eq_dec a b) H x)
               as H';
             clear H
         end.

Ltac perm_count :=
  let x := fresh "x" in
  apply (Permutation_count_occ Nat.eq_dec); intros x; perm_facts x;
  repeat (progress (rewrite ?count_occ_app, ?count_occ_rev in *;
                    cbn [count_occ] in *));
  repeat match goal with
         | |- context [Nat.eq_dec ?a x] => destruct (Nat.eq_dec a x)
         | H : context [Nat.eq_dec ?a x] |- _ => destruct (Nat.eq_dec a x)
         end;
  lia.

Lemma take_drop_while_list p l :
  l = take_while_list p l ++ drop_while_list p l.
Proof.
  induction l as [|x l IH]; [reflexivity|]. cbn.
  destruct (p x); [cbn; now f_equal|reflexivity].
Qed.

Lemma take_while_list_all p l :
  Forall (fun x => p x = true) (take_while_list p l).
Proof.
  induction l as [|x l IH]; cbn; [constructor|].
  destruct (p x) eqn:E; constructor; assumption.
Qed.

Lemma drop_while_list_head p l x l' :
  drop_while_list p l = x :: l' -> p x = false.
Proof.
  induction l as [|y l IH]; cbn; [discriminate|].
  destruct (p y) eqn:E; [assumption|]. now intros [= <- <-].
Qed.

Lemma length_drop_while_list p l :
  List.length (drop_while_list p l) <= List.length l.
Proof.
  induction l as [|y l IH]; cbn; [lia|]. destruct (p y); cbn; lia.
Qed.

Section PartitionSorts.

Variable less : nat -> nat -> bool.
Hypothesis less_asym : forall x y, less x y = true -> less y x = false.
Hypothesis less_ntrans :
  forall x y z, less x y = false -> less y z = false -> less x z = false.

(** After the three swaps the pivot is between the two ends. *)
Lemma median_of_three_spec xl xm xr xl' vp xr' :
  median_of_three less xl xm xr = (xl', vp, xr') ->
  Permutation [xl; xm; xr] [xl'; vp; xr']
  /\ less vp xl' = false /\ less xr' vp = false.
Proof.
  unfold median_of_three.
  destruct (less xm xl) eqn:E1.
  - destruct (less xr xl) eqn:E2.
    + destruct (less xr xm) eqn:E3; intros [= <- <- <-].
      * repeat split; [perm_count|now apply less_asym|now apply less_asym].
      * repeat split; [perm_count|assumption|now apply less_asym].
    + destruct (less xl xm) eqn:E3; intros [= <- <- <-].
      * now rewrite (less_asym _ _ E3) in E1.
      * repeat split; [perm_count|assumption|assumption].
  - destruct (less xr xm) eqn:E2.
    + destruct (less xr xl) eqn:E3; intros [= <- <- <-].
      * repeat split; [perm_count|now apply less_asym|assumption].
      * repeat split; [perm_count|assumption|now apply less_asym].
    + rewrite E1. intros [= <- <- <-].
      repeat split; [perm_count|assumption|assumption].
Qed.

Lemma partition_loop_spec vp last : forall fuel below_rev between above,
  List.length between <= fuel ->
  less last vp = false ->
  Forall (fun x => less vp x = false) below_rev ->
  Forall (fun y => less y vp = false) above ->
  forall lower upper,
    partition_loop less fuel vp last below_rev between above = (lower, upper) ->
    Permutation (rev below_rev ++ between ++ above ++ [vp; last])
      (lower ++ vp :: upper)
    /\ Forall (fun x => less vp x = false) lower
    /\ Forall (fun y => less y vp = false) upper.
Proof.
  induction fuel as [|fuel IH]; intros below_rev between above Hfuel Hlast
    Hbelow Habove lower upper.
  - destruct between; [|cbn in Hfuel; lia].
    cbn. destruct above as [|r above']; intros [= <- <-].
    + rewrite !app_nil_r. repeat split.
      * reflexivity.
      * now apply Forall_rev.
      * now constructor.
    + inversion Habove; subst. rewrite app_nil_r. repeat split.
      * perm_count.
      * now apply Forall_rev.
      * apply Forall_app. split; [assumption|]. now repeat constructor.
  - cbn [partition_loop].
    pose proof (take_drop_while_list (fun x => less x vp) between) as Hsplit.
    pose proof (take_while_list_all (fun x => less x vp) between) as Hbefore.
    remember (take_while_list (fun x => less x vp) between) as before eqn:Eb.
    clear Eb.
    assert (Hbefore' : Forall (fun x => less vp x = false) before).
    { eapply Forall_impl; [|exact Hbefore]. intros x. apply less_asym. }
    assert (Hlow : Forall (fun x => less vp x = false)
                     (rev below_rev ++ before)).
    { apply Forall_app. split; [now apply Forall_rev|assumption]. }
    destruct (drop_while_list (fun x => less x vp) between)
      as [|x rest] eqn:Edrop.
    + rewrite app_nil_r in Hsplit. rewrite Hsplit.
      destruct above as [|r above']; intros [= <- <-].
      * repeat split; [perm_count|assumption|now constructor].
      * inversion Habove; subst. repeat split; [perm_count|assumption|].
        apply Forall_app. split; [assumption|]. now repeat constructor.
    + pose proof (drop_while_list_head _ _ _ _ Edrop) as Hx. cbn beta in Hx.
      pose proof (take_drop_while_list (fun y => less vp y) (rev rest))
        as Hsplit2.
      pose proof (take_while_list_all (fun y => less vp y) (rev rest))
        as Hafter.
      remember (take_while_list (fun y => less vp y) (rev rest))
        as after_rev eqn:Ea.
      clear Ea.
      assert (Hafter' : Forall (fun y => less y vp = false) after_rev).
      { eapply Forall_impl; [|exact Hafter]. intros y. apply less_asym. }
      destruct (drop_while_list (fun y => less vp y) (rev rest))
        as [|y rest_rev] eqn:Edrop2.
      * rewrite app_nil_r in Hsplit2.
        assert (Hrest : Forall (fun y => less y vp = false) rest).
        { apply Forall_rev in Hafter'. rewrite <- Hsplit2, rev_involutive in Hafter'.
          exact Hafter'. }
        intros [= <- <-]. rewrite Hsplit. repeat split.
        -- perm_count.
        -- assumption.
        -- repeat (apply Forall_app; split); try assumption.
           now repeat constructor.
      * pose proof (drop_while_list_head _ _ _ _ Edrop2) as Hy. cbn beta in Hy.
        assert (Erest : rest = rev rest_rev ++ y :: rev after_rev).
        { rewrite <- (rev_involutive rest), Hsplit2, rev_app_distr.
          cbn [rev]. now rewrite <- app_assoc. }
        intros Hloop. apply IH in Hloop.
        -- destruct Hloop as (Hp & Hlo & Hup). repeat split; try assumption.
           rewrite <- Hp, Hsplit, Erest. cbn [rev].
           rewrite !rev_app_distr, !rev_involutive. perm_count.
        -- rewrite Hsplit, Erest in Hfuel.
           rewrite !List.length_app in Hfuel. cbn [List.length] in Hfuel.
           rewrite List.length_app in Hfuel. cbn [List.length] in Hfuel.
           lia.
        -- assumption.
        -- constructor; [assumption|]. apply Forall_app. split.
           ++ now apply Forall_rev.
           ++ assumption.
        -- constructor; [assumption|]. apply Forall_app. split.
           ++ now apply Forall_rev.
           ++ assumption.
Qed.

Lemma skipn_nth_cons (l : list nat) : forall i,
  i < List.length l -> skipn i l = nth i l 0 :: skipn (S i) l.
Proof.
  induction l as [|x l IH]; intros i H; [cbn in H; lia|].
  destruct i as [|i]; [reflexivity|]. cbn [skipn nth]. apply IH.
  cbn in H. lia.
Qed.

(** A stretch of four elements or more, cut at [pm] and before its last
    two elements. *)
Lemma stretch_cut (a : list nat) pm pr :
  1 <= pm -> pm + 2 <= pr -> S pr = List.length a ->
  a = nth 0 a 0 :: firstn (pm - 1) (skipn 1 a)
        ++ nth pm a 0 :: firstn (pr - 2 - pm) (skipn (pm + 1) a)
        ++ [nth (pr - 1) a 0; nth pr a 0].
Proof.
  intros H1 H2 Hlen.
  destruct a as [|x0 t]; [discriminate|].
  change (nth 0 (x0 :: t) 0) with x0. cbn [skipn]. f_equal.
  cbn [List.length] in Hlen.
  rewrite <- (firstn_skipn (pm - 1) t) at 1. f_equal.
  assert (Ht : skipn (pm - 1) t = nth pm (x0 :: t) 0 :: skipn pm t).
  { destruct pm as [|pm]; [lia|]. cbn [nth]. replace (S pm - 1) with pm by lia.
    apply skipn_nth_cons. lia. }
  rewrite Ht. f_equal.
  replace (skipn (pm + 1) (x0 :: t)) with (skipn pm t)
    by (replace (pm + 1) with (S pm) by lia; reflexivity).
  set (u := skipn pm t).
  assert (Hu : List.length u = pr - pm) by (unfold u; rewrite length_skipn; lia).
  rewrite <- (firstn_skipn (pr - 2 - pm) u) at 1. f_equal.
  assert (Hn1 : nth (pr - 1) (x0 :: t) 0 = nth (pr - 2 - pm) u 0).
  { unfold u. rewrite nth_skipn.
    replace (pr - 1) with (S (pm + (pr - 2 - pm))) by lia. reflexivity. }
  assert (Hn2 : nth pr (x0 :: t) 0 = nth (pr - 1 - pm) u 0).
  { unfold u. rewrite nth_skipn.
    replace pr with (S (pm + (pr - 1 - pm))) at 1 by lia. reflexivity. }
  rewrite Hn1, Hn2.
  set (s := skipn (pr - 2 - pm) u).
  assert (Hs : List.length s = 2) by (unfold s; rewrite length_skipn; lia).
  assert (Hs0 : nth (pr - 2 - pm) u 0 = nth 0 s 0)
    by (unfold s; rewrite nth_skipn; f_equal; lia).
  assert (Hs1 : nth (pr - 1 - pm) u 0 = nth 1 s 0)
    by (unfold s; rewrite nth_skipn; f_equal; lia).
  rewrite Hs0, Hs1.
  destruct s as [|s0 [|s1 [|]]]; try discriminate. reflexivity.
Qed.

(** One round of partition: the stretch is rearranged into a lower side
    of elements not after the pivot, the pivot, and an upper side of
    elements not before it. *)
Lemma partition_spec a lower vp upper :
  4 <= List.length a ->
  partition less a = (lower, vp, upper) ->
  Permutation a (lower ++ vp :: upper)
  /\ Forall (fun x => less vp x = false) lower
  /\ Forall (fun y => less y vp = false) upper.
Proof.
  intros Hlen. unfold partition.
  set (pr := List.length a - 1). set (pm := pr / 2).
  assert (Hpm : 1 <= pm /\ pm + 2 <= pr).
  { unfold pm. pose proof (Nat.div_mod_eq pr 2).
    pose proof (Nat.mod_upper_bound pr 2 ltac:(lia)). unfold pr in *. lia. }
  destruct Hpm as [Hpm1 Hpm2].
  pose proof (stretch_cut a pm pr Hpm1 Hpm2 ltac:(unfold pr; lia)) as Hcut.
  destruct (median_of_three less (nth 0 a 0) (nth pm a 0) (nth pr a 0))
    as [[xl vp'] xr] eqn:Em.
  apply median_of_three_spec in Em as (Hperm & Hxl & Hxr).
  destruct (partition_loop less (List.length a) vp' xr [xl] _ [])
    as [lo up] eqn:El.
  intros [= <- <- <-].
  apply partition_loop_spec in El; try assumption.
  - destruct El as (Hp & Hlo & Hup). repeat split; try assumption.
    rewrite <- Hp. rewrite Hcut at 1. cbn [rev app]. perm_count.
  - rewrite !List.length_app, !length_firstn. cbn [List.length]. lia.
  - now constructor.
  - constructor.
Qed.

End PartitionSorts.

(** *** Heapsort *)

Lemma length_set_nth a : forall p x,
  List.length (set_nth a p x) = List.length a.
Proof.
  induction a as [|y a IH]; intros [|p] x; cbn; auto.
Qed.

Lemma nth_set_nth a : forall p q x,
  p < List.length a ->
  nth q (set_nth a p x) 0 = if q =? p then x else nth q a 0.
Proof.
  induction a as [|y a IH]; intros p q x H; [cbn in H; lia|].
  destruct p as [|p], q as [|q]; cbn [set_nth nth Nat.eqb]; try reflexivity.
  apply IH. cbn in H. lia.
Qed.

Lemma count_set_nth a y : forall p x,
  p < List.length a ->
  count (set_nth a p x) y + one_if (nth p a 0) y = count a y + one_if x y.
Proof.
  unfold count, one_if.
  induction a as [|z a IH]; intros p x H; [cbn in H; lia|].
  destruct p as [|p]; cbn [set_nth nth count_occ].
  - destruct (Nat.eq_dec x y), (Nat.eq_dec z y); lia.
  - cbn in H. specialize (IH p x ltac:(lia)).
    destruct (Nat.eq_dec z y); lia.
Qed.

Lemma length_hset a i x : List.length (hset a i x) = List.length a.
Proof. apply length_set_nth. Qed.

Lemma hget_hset a i k x :
  1 <= i <= List.length a -> 1 <= k ->
  hget (hset a i x) k = if k =? i then x else hget a k.
Proof.
  intros Hi Hk. unfold hget, hset. rewrite nth_set_nth by lia.
  destruct (Nat.eqb_spec (k - 1) (i - 1)), (Nat.eqb_spec k i);
    try reflexivity; lia.
Qed.

Lemma count_hset a i x y :
  1 <= i <= List.length a ->
  count (hset a i x) y + one_if (hget a i) y = count a y + one_if x y.
Proof. intros H. apply count_set_nth. lia. Qed.

Section HeapsortSorts.

Variable less : nat -> nat -> bool.
Hypothesis less_asym : forall x y, less x y = true -> less y x = false.
Hypothesis less_ntrans :
  forall x y z, less x y = false -> less y z = false -> less x z = false.

Let irrefl := less_irrefl less less_asym.

(** The child [sift] compares [tmp] with sorts before neither child. *)
Lemma larger_child a i n j :
  j = (if (2 * i <? n) && less (hget a (2 * i)) (hget a (2 * i + 1))
       then 2 * i + 1 else 2 * i) ->
  2 * i <= n ->
  child_of i j /\ j <= n
  /\ forall c, c <= n -> child_of i c -> less (hget a j) (hget a c) = false.
Proof.
  intros -> Hn.
  destruct (Nat.ltb_spec (2 * i) n) as [Hlt|Hge]; cbn [andb].
  - destruct (less (hget a (2 * i)) (hget a (2 * i + 1))) eqn:E.
    + split; [now right|]. split; [lia|].
      intros c _ [->| ->]; [now apply less_asym|apply irrefl].
    + split; [now left|]. split; [lia|].
      intros c _ [->| ->]; [apply irrefl|assumption].
  - split; [now left|]. split; [lia|].
    intros c Hc [->| ->]; [apply irrefl|lia].
Qed.

Lemma sift_spec l n : forall fuel a tmp i,
  1 <= l -> l <= i -> i <= n -> n <= List.length a -> n - i < fuel ->
  sift_ready less a tmp i l n ->
  List.length (sift less fuel a tmp i n) = List.length a
  /\ is_heap less (sift less fuel a tmp i n) l n
  /\ (forall k, n < k -> hget (sift less fuel a tmp i n) k = hget a k)
  /\ (forall y, count (sift less fuel a tmp i n) y + one_if (hget a i) y
                = count a y + one_if tmp y).
Proof.
  induction fuel as [|fuel IH]; intros a tmp i Hl Hli Hin Hn Hfuel
    (R1 & R2 & R3); [lia|].
  assert (Hstop : forall (Hkids : forall c, c <= n -> child_of i c ->
                                  less tmp (hget a c) = false),
            List.length (hset a i tmp) = List.length a
            /\ is_heap less (hset a i tmp) l n
            /\ (forall k, n < k -> hget (hset a i tmp) k = hget a k)
            /\ (forall y, count (hset a i tmp) y + one_if (hget a i) y
                          = count a y + one_if tmp y)).
  { intros Hkids. split; [apply length_hset|]. split; [|split].
    - intros p c Hp Hc Hpc.
      assert (1 <= p /\ 1 <= c /\ p <> c) as (? & ? & ?)
        by (destruct Hpc; lia).
      rewrite !hget_hset by lia.
      destruct (Nat.eqb_spec p i) as [->|Hpi],
        (Nat.eqb_spec c i) as [->|Hci]; try lia.
      + now apply Hkids.
      + now apply R2.
      + now apply R1.
    - intros k Hk. rewrite hget_hset by lia.
      destruct (Nat.eqb_spec k i); [lia|reflexivity].
    - intros y. apply count_hset. lia. }
  cbn [sift].
  destruct (Nat.leb_spec (2 * i) n) as [Hj|Hj].
  2:{ apply Hstop. intros c Hc [->| ->]; lia. }
  set (j := if (2 * i <? n) && less (hget a (2 * i)) (hget a (2 * i + 1))
            then 2 * i + 1 else 2 * i).
  destruct (larger_child a i n j eq_refl Hj) as (Hij & Hjn & Hlarger).
  assert (Hji : i < j) by (destruct Hij; lia).
  destruct (less tmp (hget a j)) eqn:Etmp.
  2:{ apply Hstop. intros c Hc Hic.
      now apply less_ntrans with (hget a j); [|apply Hlarger]. }
  assert (Hget : forall k, 1 <= k ->
            hget (hset a i (hget a j)) k
            = if k =? i then hget a j else hget a k)
    by (intros k Hk; apply hget_hset; lia).
  destruct (IH (hset a i (hget a j)) tmp j) as (L & H & U & C);
    try lia.
  - rewrite length_hset. lia.
  - split; [|split].
    + intros p c Hp Hc Hpc Hpj.
      assert (1 <= p /\ 1 <= c /\ p <> c) as (? & ? & ?)
        by (destruct Hpc; lia).
      rewrite !Hget by lia.
      destruct (Nat.eqb_spec p i) as [->|Hpi],
        (Nat.eqb_spec c i) as [->|Hci]; try lia.
      * now apply Hlarger.
      * now apply R3.
      * now apply R1.
    + intros p Hp Hpj.
      assert (p = i) as -> by (destruct Hij, Hpj; lia).
      rewrite Hget by lia. rewrite Nat.eqb_refl. now apply less_asym.
    + intros p c Hp Hpj Hc Hjc.
      assert (p = i) as -> by (destruct Hij, Hpj; lia).
      rewrite !Hget by (destruct Hjc; lia). rewrite Nat.eqb_refl.
      destruct (Nat.eqb_spec c i); [destruct Hjc; lia|].
      apply R1; try assumption; lia.
  - rewrite length_hset in L. split; [assumption|]. split; [assumption|].
    split.
    + intros k Hk. rewrite U, Hget by lia.
      destruct (Nat.eqb_spec k i); [lia|reflexivity].
    + intros y. specialize (C y). rewrite Hget in C by lia.
      destruct (Nat.eqb_spec j i); [lia|].
      pose proof (count_hset a i (hget a j) y ltac:(lia)). lia.
Qed.

Lemma heapify_spec n : forall l a,
  l <= n -> n <= List.length a -> is_heap less a (l + 1) n ->
  List.length (heapify less l a n) = List.length a
  /\ is_heap less (heapify less l a n) 1 n
  /\ forall y, count (heapify less l a n) y = count a y.
Proof.
  induction l as [|l IH]; intros a Hl Hn H; cbn [heapify].
  - auto.
  - destruct (sift_spec (S l) n n a (hget a (S l)) (S l))
      as (L & Hh & _ & C); try lia.
    { split; [|split].
      - intros p c Hp Hc Hpc Hne. apply H; try assumption; lia.
      - intros p Hp [E|E]; lia.
      - intros p c Hp [E|E]; lia. }
    destruct (IH (sift less n a (hget a (S l)) (S l) n))
      as (L' & Hh' & C'); try lia.
    { now rewrite Nat.add_1_r. }
    split; [congruence|]. split; [assumption|].
    intros y. rewrite C'. specialize (C y). lia.
Qed.

(** Nothing in a heap sorts after its root. *)
Lemma heap_root_max a n :
  is_heap less a 1 n ->
  forall k, 1 <= k <= n -> less (hget a 1) (hget a k) = false.
Proof.
  intros H k. induction k as [k IH] using (well_founded_induction lt_wf).
  intros Hk. destruct (Nat.eq_dec k 1) as [->|Hk1]; [apply irrefl|].
  pose proof (Nat.div_mod_eq k 2) as E.
  pose proof (Nat.mod_upper_bound k 2 ltac:(lia)) as M.
  apply less_ntrans with (hget a (k / 2)).
  - apply IH; lia.
  - apply H; try lia. unfold child_of. lia.
Qed.

Lemma In_firstn_hget (a : list nat) n x :
  n <= List.length a ->
  In x (firstn n a) <-> exists k, 1 <= k <= n /\ x = hget a k.
Proof.
  intros Hn. split.
  - intros H. apply (In_nth _ _ 0) in H. destruct H as (i & Hi & E).
    rewrite length_firstn in Hi. rewrite nth_firstn in E.
    destruct (Nat.ltb_spec i n); [|lia].
    exists (S i). split; [lia|]. unfold hget.
    now replace (S i - 1) with i by lia.
  - intros (k & Hk & ->). unfold hget.
    replace (nth (k - 1) a 0) with (nth (k - 1) (firstn n a) 0).
    + apply nth_In. rewrite length_firstn. lia.
    + rewrite nth_firstn. destruct (Nat.ltb_spec (k - 1) n); [reflexivity|lia].
Qed.

Lemma skipn_same (a b : list nat) n :
  List.length b = List.length a ->
  (forall k, n < k -> hget b k = hget a k) ->
  skipn n b = skipn n a.
Proof.
  intros L H. apply (nth_ext _ _ 0 0).
  - rewrite !length_skipn. lia.
  - intros i _. rewrite !nth_skipn. specialize (H (S (n + i)) ltac:(lia)).
    unfold hget in H. now replace (S (n + i) - 1) with (n + i) in H by lia.
Qed.

Lemma count_split (a : list nat) n y :
  count a y = count (firstn n a) y + count (skipn n a) y.
Proof.
  unfold count. now rewrite <- count_occ_app, firstn_skipn.
Qed.

Lemma extract_spec : forall n a,
  n <= List.length a -> is_heap less a 1 n ->
  ascending less (skipn n a) ->
  (forall x y, In x (firstn n a) -> In y (skipn n a) -> less y x = false) ->
  ascending less (extract less n a)
  /\ forall y, count (extract less n a) y = count a y.
Proof.
  induction n as [|n IH]; intros a Hn Hh Hs Hc; cbn [extract].
  - auto.
  - destruct (Nat.ltb_spec 1 (S n)) as [H1|H1].
    2:{ split; [|reflexivity]. assert (n = 0) as -> by lia.
        destruct a as [|x t]; [cbn in Hn; lia|]. cbn [skipn firstn] in *.
        constructor; [assumption|]. apply Forall_forall. intros y Hy.
        apply Hc; [now left|assumption]. }
    set (root := hget a 1). set (tmp := hget a (S n)).
    assert (Hget : forall k, 1 <= k ->
              hget (hset a (S n) root) k
              = if k =? S n then root else hget a k)
      by (intros k Hk; apply hget_hset; lia).
    destruct (sift_spec 1 n n (hset a (S n) root) tmp 1)
      as (L & Hh' & U & C); try lia.
    { rewrite length_hset. lia. }
    { split; [|split].
      - intros p c Hp Hc' Hpc Hne.
        assert (1 <= c /\ p < c) as (? & ?) by (destruct Hpc; lia).
        rewrite !Hget by lia.
        destruct (Nat.eqb_spec p (S n)), (Nat.eqb_spec c (S n)); try lia.
        apply Hh; try assumption; lia.
      - intros p Hp [E|E]; lia.
      - intros p c Hp [E|E]; lia. }
    rewrite length_hset in L.
    set (a2 := sift less n (hset a (S n) root) tmp 1 n) in *.
    assert (Htail : skipn n a2 = root :: skipn (S n) a).
    { rewrite skipn_nth_cons by lia. f_equal.
      - transitivity (hget a2 (S n)); [unfold hget; f_equal; lia|].
        rewrite U, Hget by lia. now rewrite Nat.eqb_refl.
      - apply skipn_same; [assumption|]. intros k Hk.
        rewrite U, Hget by lia.
        destruct (Nat.eqb_spec k (S n)); [lia|reflexivity]. }
    assert (Hcount : forall y, count a2 y = count a y).
    { intros y. specialize (C y). rewrite Hget in C by lia.
      destruct (Nat.eqb_spec 1 (S n)); [lia|].
      pose proof (count_hset a (S n) root y ltac:(lia)).
      fold tmp in H. fold root in C. lia. }
    assert (Hroot : forall x, In x (firstn (S n) a) -> less root x = false).
    { intros x Hx. apply In_firstn_hget in Hx; [|lia].
      destruct Hx as (k & Hk & ->). now apply heap_root_max with (S n). }
    assert (Hsub : forall x, In x (firstn n a2) -> In x (firstn (S n) a)).
    { intros x Hx. apply (count_occ_In Nat.eq_dec) in Hx.
      apply (count_occ_In Nat.eq_dec).
      pose proof (Hcount x) as E.
      rewrite (count_split a2 n), (count_split a (S n)), Htail in E.
      unfold count in E. cbn [count_occ] in E.
      destruct (Nat.eq_dec root x); lia. }
    destruct (IH a2) as (S1 & S2); try lia.
    + assumption.
    + rewrite Htail. constructor; [assumption|].
      apply Forall_forall. intros y Hy. apply Hc; [|assumption].
      apply In_firstn_hget; [lia|]. exists 1. split; [lia|reflexivity].
    + intros x y Hx Hy. rewrite Htail in Hy. apply Hsub in Hx.
      destruct Hy as [<-|Hy]; [now apply Hroot|now apply Hc].
    + split; [assumption|]. intros y. now rewrite S2.
Qed.

Lemma npy_aheapsort_sorts a :
  ascending less (npy_aheapsort less a)
  /\ Permutation a (npy_aheapsort less a).
Proof.
  unfold npy_aheapsort. set (n := List.length a).
  pose proof (Nat.div_mod_eq n 2) as E.
  pose proof (Nat.mod_upper_bound n 2 ltac:(lia)) as M.
  destruct (heapify_spec n (n / 2) a) as (L & H & C); try lia.
  { intros p c Hp Hc [Hpc|Hpc]; lia. }
  assert (T : skipn n (heapify less (n / 2) a n) = [])
    by (apply skipn_all2; lia).
  destruct (extract_spec n (heapify less (n / 2) a n)) as (S1 & S2).
  - lia.
  - assumption.
  - rewrite T. constructor.
  - intros x y _ Hy. rewrite T in Hy. contradiction.
  - split; [assumption|].
    apply (Permutation_count_occ Nat.eq_dec). intros y.
    specialize (S2 y). specialize (C y). unfold count in *. lia.
Qed.

End HeapsortSorts.

(** *** Quicksort *)

Section QuicksortSorts.

Variable less : nat -> nat -> bool.
Hypothesis less_asym : forall x y, less x y = true -> less y x = false.
Hypothesis less_ntrans :
  forall x y z, less x y = false -> less y z = false -> less x z = false.

Lemma quicksort_stretch_sorts : forall fuel popped cdepth a,
  List.length a < fuel ->
  ascending less (quicksort_stretch less fuel popped cdepth a)
  /\ Permutation a (quicksort_stretch less fuel popped cdepth a).
Proof.
  induction fuel as [|fuel IH]; intros popped cdepth a Hlen; [lia|].
  cbn [quicksort_stretch].
  destruct (popped && _).
  { apply npy_aheapsort_sorts; assumption. }
  destruct (Nat.ltb_spec SMALL_QUICKSORT (List.length a - 1)) as [Hbig|_].
  2:{ apply insertion_sort_sorts; assumption. }
  destruct (partition less a) as [[lower vp] upper] eqn:E.
  unfold SMALL_QUICKSORT in Hbig.
  assert (Permutation a (lower ++ vp :: upper)
          /\ Forall (fun x => less vp x = false) lower
          /\ Forall (fun y => less y vp = false) upper) as (P & Hlo & Hup)
    by (apply partition_spec; try assumption; lia).
  assert (L : List.length a = List.length lower + S (List.length upper))
    by (rewrite (Permutation_length P), length_app; reflexivity).
  assert (join : forall p1 d1 p2 d2,
    ascending less (quicksort_stretch less fuel p1 d1 lower
                    ++ vp :: quicksort_stretch less fuel p2 d2 upper)
    /\ Permutation a (quicksort_stretch less fuel p1 d1 lower
                      ++ vp :: quicksort_stretch less fuel p2 d2 upper)).
  { intros p1 d1 p2 d2.
    destruct (IH p1 d1 lower) as (A1 & P1); [lia|].
    destruct (IH p2 d2 upper) as (A2 & P2); [lia|].
    pose proof (Permutation_Forall P1 Hlo) as Hlo'.
    pose proof (Permutation_Forall P2 Hup) as Hup'.
    rewrite Forall_forall in Hlo', Hup'. split.
    - apply StronglySorted_app; [assumption| |].
      + constructor; [assumption|]. now apply Forall_forall.
      + intros x y Hx [<-|Hy]; [now apply Hlo'|].
        apply less_ntrans with vp; [now apply Hup'|now apply Hlo'].
    - rewrite P. apply Permutation_app; [assumption|]. now constructor. }
  destruct (List.length lower <? List.length upper); apply join.
Qed.

Lemma npy_aquicksort_sorts a :
  ascending less (npy_aquicksort less a)
  /\ Permutation a (npy_aquicksort less a).
Proof. apply quicksort_stretch_sorts. lia. Qed.

End QuicksortSorts.

(** *** The order of texts *)

Lemma string_compare_not_before : forall x y z : string,
  String.compare x y <> Lt -> String.compare y z <> Lt ->
  String.compare x z <> Lt.
Proof.
  induction x as [|a x IH]; intros [|b y] [|c z]; cbn [String.compare];
    try congruence.
  unfold Ascii.compare.
  destruct (N.compare_spec (N_of_ascii a) (N_of_ascii b)),
    (N.compare_spec (N_of_ascii b) (N_of_ascii c)),
    (N.compare_spec (N_of_ascii a) (N_of_ascii c));
    try congruence; try (exfalso; lia).
  apply IH.
Qed.

Lemma string_ltb_asym (x y : string) :
  String.ltb x y = true -> String.ltb y x = false.
Proof.
  unfold String.ltb. rewrite (String.compare_antisym y x).
  destruct (String.compare x y); cbn; congruence.
Qed.

Lemma string_ltb_ntrans (x y z : string) :
  String.ltb x y = false -> String.ltb y z = false ->
  String.ltb x z = false.
Proof.
  unfold String.ltb. pose proof (string_compare_not_before x y z) as H.
  destruct (String.compare x y), (String.compare y z),
    (String.compare x z); try congruence; exfalso; apply H; congruence.
Qed.

(** *** [argsort] and [nargsort] *)

Lemma StronglySorted_map {A B : Type} (f : A -> B) (R : B -> B -> Prop) l :
  StronglySorted (fun x y => R (f x) (f y)) l -> StronglySorted R (map f l).
Proof.
  induction 1 as [|x l Hs IH Hx]; cbn [map]; constructor;
    [assumption|]. now apply Forall_map.
Qed.

Lemma map_nth_seq {A : Type} (d : A) (l : list A) :
  map (fun k => nth k l d) (seq 0 (List.length l)) = l.
Proof.
  induction l as [|x l IH]; [reflexivity|]. cbn [List.length seq map nth].
  rewrite <- seq_shift, map_map. cbn [nth]. now rewrite IH.
Qed.

Lemma argsort_spec (values : list string) :
  Permutation (seq 0 (List.length values)) (argsort values)
  /\ StronglySorted (fun x y => String.ltb y x = false)
       (map (fun k => nth k values ""%string) (argsort values)).
Proof.
  unfold argsort.
  destruct (npy_aquicksort_sorts
              (fun i j => String.ltb (nth i values ""%string)
                                     (nth j values ""%string)))
    with (a := seq 0 (List.length values)) as (A & P).
  - intros x y. apply string_ltb_asym.
  - intros x y z. apply string_ltb_ntrans.
  - split; [assumption|]. apply StronglySorted_map. exact A.
Qed.

Lemma positions_perm items : forall b,
  Permutation (seq b (List.length items))
    (map fst (non_nan_positions b items) ++ nan_positions b items).
Proof.
  induction items as [|[s|] items IH]; intros b;
    cbn [List.length seq non_nan_positions nan_positions map fst app].
  - constructor.
  - constructor. apply IH.
  - apply Permutation_cons_app, IH.
Qed.

Lemma positions_read items : forall b (get : nat -> cell),
  (forall k, k < List.length items -> get (b + k) = nth k items None) ->
  map get (map fst (non_nan_positions b items))
  = map Some (map snd (non_nan_positions b items))
  /\ map get (nan_positions b items)
     = repeat None (List.length (nan_positions b items)).
Proof.
  induction items as [|c items IH]; intros b get H; [now split|].
  pose proof (H 0 ltac:(cbn; lia)) as H0. rewrite Nat.add_0_r in H0.
  cbn [nth] in H0.
  destruct (IH (S b) get) as (I1 & I2).
  { intros k Hk. specialize (H (S k) ltac:(cbn; lia)).
    now rewrite Nat.add_succ_r in H. }
  destruct c as [s|];
    cbn [non_nan_positions nan_positions map fst snd List.length repeat];
    rewrite ?H0; split; try assumption; f_equal; assumption.
Qed.

(** The positions and the values of the present cells, as [nargsort]
    hands them to [argsort]: last cell first. *)
Lemma present_read (items : list cell) (k : nat) :
  k < List.length (non_nan_positions 0 items) ->
  nth (nth k (map fst (rev (non_nan_positions 0 items))) 0) items None
  = Some (nth k (map snd (rev (non_nan_positions 0 items))) ""%string).
Proof.
  intros Hk. set (pos := non_nan_positions 0 items) in *.
  destruct (positions_read items 0 (fun i => nth i items None))
    as (R1 & _); [reflexivity|]. fold pos in R1.
  assert (Hidx : map (fun i => nth i items None) (map fst (rev pos))
                 = map Some (map snd (rev pos)))
    by (rewrite !map_rev; now rewrite R1).
  transitivity (nth k (map (fun i => nth i items None) (map fst (rev pos)))
                  None).
  - rewrite (nth_indep (map (fun i => nth i items None) (map fst (rev pos)))
               None (nth 0 items None))
      by (rewrite !length_map, length_rev; lia).
    symmetry. apply (map_nth (fun i => nth i items None)).
  - rewrite Hidx.
    rewrite (nth_indep (map Some (map snd (rev pos))) None
               (Some ""%string))
      by (rewrite !length_map, length_rev; lia).
    apply (map_nth Some).
Qed.

Lemma nargsort_descending_spec (items : list cell) :
  Permutation (seq 0 (List.length items)) (nargsort_descending items)
  /\ exists ts n,
       map (fun i => nth i items None) (nargsort_descending items)
       = map Some ts ++ repeat None n
       /\ newest_first ts
       /\ List.length ts = List.length (non_nan_positions 0 items).
Proof.
  unfold nargsort_descending.
  set (pos := non_nan_positions 0 items).
  set (idx := map fst (rev pos)). set (vals := map snd (rev pos)).
  destruct (argsort_spec vals) as (P & S).
  destruct (positions_read items 0 (fun i => nth i items None))
    as (_ & R2); [reflexivity|].
  assert (Hvals : List.length vals = List.length pos)
    by (unfold vals; now rewrite length_map, length_rev).
  assert (Hidx : List.length idx = List.length pos)
    by (unfold idx; now rewrite length_map, length_rev).
  split.
  - rewrite (positions_perm items 0). fold pos.
    apply Permutation_app; [|reflexivity].
    rewrite <- Permutation_rev, <- (Permutation_map _ P), Hvals, <- Hidx.
    rewrite map_nth_seq. unfold idx. rewrite map_rev.
    apply Permutation_rev.
  - exists (rev (map (fun k => nth k vals ""%string) (argsort vals))),
      (List.length (nan_positions 0 items)).
    split; [|split].
    + rewrite map_app, R2. f_equal. rewrite !map_rev. f_equal.
      rewrite !map_map. apply map_ext_in. intros k Hk.
      apply (Permutation_in _ (Permutation_sym P)) in Hk.
      apply in_seq in Hk. apply present_read. fold pos. lia.
    + unfold newest_first. apply StronglySorted_rev in S. exact S.
    + rewrite length_rev, length_map, <- (Permutation_length P), length_seq.
      exact Hvals.
Qed.

(** *** Ties *)

Lemma StronglySorted_weaken {A : Type} (R R' : A -> A -> Prop) l :
  StronglySorted R l ->
  (forall x y, In x l -> In y l -> R x y -> R' x y) ->
  StronglySorted R' l.
Proof.
  induction 1 as [|x l Hs IH Hx]; intros H; constructor.
  - apply IH. intros a b Ha Hb. apply H; now right.
  - rewrite Forall_forall in *. intros y Hy.
    apply H; [now left|now right|now apply Hx].
Qed.

Lemma StronglySorted_nth {A : Type} (R : A -> A -> Prop) (d : A) l :
  StronglySorted R l ->
  forall i j, i < j < List.length l -> R (nth i l d) (nth j l d).
Proof.
  induction 1 as [|x l Hs IH Hx]; intros i j Hij; [cbn in Hij; lia|].
  cbn [List.length] in Hij. destruct j as [|j]; [lia|].
  destruct i as [|i]; cbn [nth].
  - rewrite Forall_forall in Hx. apply Hx, nth_In. lia.
  - apply IH. lia.
Qed.

Lemma seq_increasing : forall len start, StronglySorted lt (seq start len).
Proof.
  induction len as [|len IH]; intros start; cbn [seq]; constructor.
  - apply IH.
  - apply Forall_forall. intros y Hy. apply in_seq in Hy. lia.
Qed.

Section InsertionSortStable.

Variable less : nat -> nat -> bool.
Hypothesis less_asym : forall x y, less x y = true -> less y x = false.
Hypothesis less_ntrans :
  forall x y z, less x y = false -> less y z = false -> less x z = false.

Lemma insert_back_stable vi l :
  StronglySorted (fun x y => stable_order less y x) l ->
  Forall (fun x => x < vi) l ->
  StronglySorted (fun x y => stable_order less y x) (insert_back less vi l).
Proof.
  induction 1 as [|pk l Hs IH Hpk]; intros Hlt; cbn [insert_back].
  - repeat constructor.
  - inversion Hlt as [|? ? Hpkvi Hl]; subst.
    destruct (less vi pk) eqn:E.
    + constructor; [now apply IH|].
      eapply Permutation_Forall; [apply insert_back_perm|].
      constructor; [|assumption].
      split; [now apply less_asym|congruence].
    + constructor; [now constructor|].
      constructor; [now split|].
      rewrite Forall_forall in *. intros z Hz.
      destruct (Hpk z Hz) as (Hz1 & _).
      split; [now apply less_ntrans with pk|]. intros _. now apply Hl.
Qed.

Lemma insertion_from_stable rest : forall sorted_rev,
  StronglySorted (fun x y => stable_order less y x) sorted_rev ->
  StronglySorted lt rest ->
  (forall x y, In x sorted_rev -> In y rest -> x < y) ->
  StronglySorted (stable_order less) (insertion_from less sorted_rev rest).
Proof.
  induction rest as [|vi rest IH]; intros sorted_rev Hs Hr Hc;
    cbn [insertion_from].
  - apply StronglySorted_rev in Hs. exact Hs.
  - inversion Hr as [|? ? Hr' Hvi]; subst. rewrite Forall_forall in Hvi.
    apply IH; [|assumption|].
    + apply insert_back_stable; [assumption|].
      apply Forall_forall. intros x Hx. apply Hc; [assumption|now left].
    + intros x y Hx Hy.
      apply (Permutation_in _ (Permutation_sym (insert_back_perm less _ _)))
        in Hx.
      destruct Hx as [<-|Hx]; [now apply Hvi|].
      apply Hc; [assumption|now right].
Qed.

Lemma insertion_sort_stable a :
  StronglySorted lt a ->
  StronglySorted (stable_order less) (insertion_sort less a).
Proof.
  intros H. apply insertion_from_stable; [constructor|assumption|].
  intros x y [].
Qed.

(** A stretch of at most 17 elements is left to the insertion sort. *)
Lemma npy_aquicksort_small a :
  List.length a <= 17 -> npy_aquicksort less a = insertion_sort less a.
Proof.
  intros H. unfold npy_aquicksort, npy_get_msb. cbn [quicksort_stretch].
  replace (Z.log2 (Z.of_nat (List.length a)) * 2 <? 0)%Z with false
    by (symmetry; apply Z.ltb_ge;
        pose proof (Z.log2_nonneg (Z.of_nat (List.length a))); lia).
  cbn [andb]. unfold SMALL_QUICKSORT.
  destruct (Nat.ltb_spec 16 (List.length a - 1)); [lia|reflexivity].
Qed.

End InsertionSortStable.

Lemma argsort_stable (values : list string) :
  List.length values <= 17 ->
  StronglySorted
    (stable_order (fun i j => String.ltb (nth i values ""%string)
                                          (nth j values ""%string)))
    (argsort values).
Proof.
  intros H. unfold argsort.
  rewrite npy_aquicksort_small by (rewrite length_seq; exact H).
  apply insertion_sort_stable.
  - intros x y. apply string_ltb_asym.
  - intros x y z. apply string_ltb_ntrans.
  - apply seq_increasing.
Qed.

Lemma string_ltb_irrefl (x : string) : String.ltb x x = false.
Proof.
  destruct (String.ltb x x) eqn:E; [|reflexivity].
  now rewrite (string_ltb_asym _ _ E) in E.
Qed.

Lemma non_nan_positions_increasing items : forall b,
  StronglySorted lt (map fst (non_nan_positions b items))
  /\ Forall (fun i => b <= i) (map fst (non_nan_positions b items)).
Proof.
  induction items as [|c items IH]; intros b; [split; constructor|].
  destruct (IH (S b)) as (I1 & I2).
  assert (I3 : Forall (fun i => b <= i)
                 (map fst (non_nan_positions (S b) items)))
    by (eapply Forall_impl; [|exact I2]; cbn beta; lia).
  destruct c as [s|]; cbn [non_nan_positions map fst]; [|now split].
  split; constructor; try assumption; lia.
Qed.

Lemma nan_positions_increasing items : forall b,
  StronglySorted lt (nan_positions b items)
  /\ Forall (fun i => b <= i) (nan_positions b items).
Proof.
  induction items as [|c items IH]; intros b; [split; constructor|].
  destruct (IH (S b)) as (I1 & I2).
  assert (I3 : Forall (fun i => b <= i) (nan_positions (S b) items))
    by (eapply Forall_impl; [|exact I2]; cbn beta; lia).
  destruct c as [s|]; cbn [nan_positions]; [now split|].
  split; constructor; try assumption; lia.
Qed.

(** While at most 17 cells are present, [nargsort] leaves equal cells in
    the order they had. *)
Lemma nargsort_descending_stable (items : list cell) :
  List.length (non_nan_positions 0 items) <= 17 ->
  keeps_ties items (nargsort_descending items).
Proof.
  intros Hsmall. unfold keeps_ties, nargsort_descending.
  set (pos := non_nan_positions 0 items) in *.
  set (idx := map fst (rev pos)). set (vals := map snd (rev pos)).
  assert (Hvals : List.length vals = List.length pos)
    by (unfold vals; now rewrite length_map, length_rev).
  assert (Hidx : List.length idx = List.length pos)
    by (unfold idx; now rewrite length_map, length_rev).
  destruct (argsort_spec vals) as (P & _).
  assert (Hin : forall k, In k (argsort vals) -> k < List.length pos).
  { intros k Hk. apply (Permutation_in _ (Permutation_sym P)) in Hk.
    apply in_seq in Hk. lia. }
  assert (Hdown : StronglySorted (fun x y => y < x) idx).
  { unfold idx. rewrite map_rev.
    apply (StronglySorted_rev lt), non_nan_positions_increasing. }
  destruct (positions_read items 0 (fun i => nth i items None))
    as (_ & R2); [reflexivity|].
  assert (Hnone : forall y, In y (nan_positions 0 items) ->
                            nth y items None = None).
  { intros y Hy.
    apply (in_map (fun i => nth i items None)) in Hy.
    rewrite R2 in Hy. now apply repeat_spec in Hy. }
  assert (Hsome : forall x,
            In x (rev (map (fun k => nth k idx 0) (argsort vals))) ->
            nth x items None <> None).
  { intros x Hx. apply in_rev, in_map_iff in Hx.
    destruct Hx as (k & <- & Hk). unfold idx, pos.
    rewrite present_read by (apply Hin, Hk). discriminate. }
  apply StronglySorted_app.
  - apply StronglySorted_weaken
      with (R := fun x y => nth y items None = nth x items None -> x < y);
      [|intros x y _ _ H E; apply H; now symmetry].
    apply (StronglySorted_rev
             (fun x y => nth x items None = nth y items None -> y < x)).
    apply StronglySorted_map.
    apply StronglySorted_weaken with (1 := argsort_stable vals ltac:(lia)).
    intros k1 k2 H1 H2 (_ & Hties) E. apply Hin in H1, H2.
    unfold idx, pos in E. rewrite !present_read in E by assumption.
    injection E as E. fold pos in E. fold vals in E.
    cbn beta in Hties. rewrite E in Hties.
    specialize (Hties (string_ltb_irrefl _)).
    apply (StronglySorted_nth _ 0 _ Hdown). lia.
  - apply StronglySorted_weaken with (R := lt);
      [apply nan_positions_increasing|]. intros x y _ _ H _. exact H.
  - intros x y Hx Hy E. apply Hsome in Hx. apply Hnone in Hy. congruence.
Qed.

(** *** Line 373: [sort_values(by='timestamp', ascending=False)] *)

Lemma column_rows (df : DataFrame) (name : string) (items : list cell) :
  column df name = Ok items ->
  exists i, index_of name (columns df) = Some i
            /\ items = map (fun r => nth i r None) (rows df).
Proof.
  unfold column. destruct (index_of name (columns df)) as [i|];
    [|discriminate].
  intros [= <-]. now exists i.
Qed.

(** The order [nargsort] returns: the positions of the present cells,
    sorted, then those of the missing ones as they come. *)
Lemma nargsort_descending_parts (items : list cell) :
  exists present ts,
    nargsort_descending items = present ++ nan_positions 0 items
    /\ map (fun i => nth i items None) present = map Some ts
    /\ newest_first ts
    /\ List.length ts = List.length (non_nan_positions 0 items).
Proof.
  unfold nargsort_descending.
  set (pos := non_nan_positions 0 items).
  set (idx := map fst (rev pos)). set (vals := map snd (rev pos)).
  destruct (argsort_spec vals) as (P & S).
  assert (Hvals : List.length vals = List.length pos)
    by (unfold vals; now rewrite length_map, length_rev).
  exists (rev (map (fun k => nth k idx 0) (argsort vals))),
    (rev (map (fun k => nth k vals ""%string) (argsort vals))).
  split; [reflexivity|]. split; [|split].
  - rewrite !map_rev. f_equal. rewrite !map_map. apply map_ext_in.
    intros k Hk. apply (Permutation_in _ (Permutation_sym P)) in Hk.
    apply in_seq in Hk. apply present_read. fold pos. lia.
  - unfold newest_first. apply StronglySorted_rev in S. exact S.
  - rewrite length_rev, length_map, <- (Permutation_length P), length_seq.
    exact Hvals.
Qed.

(** C2, as the code has it: sorting a frame by its timestamps, newest
    first, returns the rows of the frame in another order, under the same
    columns.  In that order the rows that have a timestamp come first, and
    none of them has a timestamp before that of a row further down; the
    rows without a timestamp come last, in the order they had in the
    frame.  While at most 17 rows have a timestamp, rows with equal
    timestamps stand as they did in the frame; for more rows nothing is
    said of them. *)
Theorem sort_values_newest_first (df : DataFrame) (items : list cell) :
  column df "timestamp" = Ok items ->
  exists present missing sorted ts,
    sort_values_descending df "timestamp" = Ok sorted
    /\ columns sorted = columns df
    /\ rows sorted = map (fun i => nth i (rows df) []) (present ++ missing)
    /\ Permutation (seq 0 (List.length (rows df))) (present ++ missing)
    /\ map (fun i => nth i items None) present = map Some ts
    /\ newest_first ts
    /\ Forall (fun i => nth i items None = None) missing
    /\ StronglySorted lt missing
    /\ column sorted "timestamp"
       = Ok (map Some ts ++ repeat None (List.length missing))
    /\ (List.length ts <= 17 -> keeps_ties items (present ++ missing)).
Proof.
  intros H. unfold sort_values_descending. rewrite H. cbn [bind].
  destruct (column_rows _ _ _ H) as (i & Hi & ->).
  remember (map (fun r => nth i r None) (rows df)) as items eqn:Hitems.
  destruct (nargsort_descending_spec items) as (P & _).
  destruct (nargsort_descending_parts items) as (present & ts & E & Hp & S & L).
  pose proof (nargsort_descending_stable items) as T.
  destruct (positions_read items 0 (fun i => nth i items None))
    as (_ & R2); [reflexivity|].
  assert (Hnone : Forall (fun i => nth i items None = None)
                    (nan_positions 0 items)).
  { apply Forall_forall. intros y Hy.
    apply (in_map (fun i => nth i items None)) in Hy.
    pose proof (eq_ind _ (fun l => In (nth y items None) l) Hy _ R2) as Hy'.
    now apply repeat_spec in Hy'. }
  rewrite E in *.
  exists present, (nan_positions 0 items). eexists. exists ts.
  split; [reflexivity|]. cbn [columns rows].
  split; [reflexivity|]. split; [reflexivity|].
  assert (Hlen : List.length items = List.length (rows df))
    by (rewrite Hitems; apply length_map).
  split; [now rewrite <- Hlen|].
  split; [assumption|]. split; [assumption|]. split; [assumption|].
  split; [apply nan_positions_increasing|]. split.
  - unfold column. cbn [columns rows]. rewrite Hi. f_equal.
    rewrite <- Hp, <- R2, <- map_app, map_map. apply map_ext. intros j.
    symmetry. rewrite Hitems.
    transitivity (nth j (map (fun r => nth i r None) (rows df))
                    (nth i [] None)); [now destruct i|].
    apply (map_nth (fun r => nth i r None)).
  - intros Hts. apply T. now rewrite <- L.
Qed.

Lemma sort_values_newest_first_witness :
  exists present missing sorted ts,
    sort_values_descending (loaded [noted_submission; plain_submission])
      "timestamp" = Ok sorted
    /\ columns sorted = SUBMISSION_COLUMNS
    /\ rows sorted
       = map (fun i => nth i (rows (loaded [noted_submission;
                                            plain_submission])) [])
           (present ++ missing)
    /\ Permutation (seq 0 2) (present ++ missing)
    /\ map (fun i => nth i [Some "2025-03-14 09:26:53"%string;
                            Some "2025-03-14 09:30:00"%string] None) present
       = map Some ts
    /\ newest_first ts
    /\ Forall (fun i => nth i [Some "2025-03-14 09:26:53"%string;
                               Some "2025-03-14 09:30:00"%string] None
                        = None) missing
    /\ StronglySorted lt missing
    /\ column sorted "timestamp"
       = Ok (map Some ts ++ repeat None (List.length missing))
    /\ (List.length ts <= 17
        -> keeps_ties [Some "2025-03-14 09:26:53"%string;
                       Some "2025-03-14 09:30:00"%string]
             (present ++ missing)).
Proof.
  apply (sort_values_newest_first
           (loaded [noted_submission; plain_submission])
           [Some "2025-03-14 09:26:53"%string;
            Some "2025-03-14 09:30:00"%string]).
  reflexivity.
Defined.

(** C2, as the specification has it, fails: of eighteen submissions made
    within one second, the third and the seventeenth change places. *)
Lemma sort_values_reorders_ties :
  column busy_second "timestamp"
  = Ok (repeat (Some "2025-03-14 09:30:00"%string) 18)
  /\ nth 2 (rows busy_second) [] <> nth 16 (rows busy_second) []
  /\ exists sorted,
       sort_values_descending busy_second "timestamp" = Ok sorted
       /\ nth 2 (rows sorted) [] = nth 16 (rows busy_second) []
       /\ nth 16 (rows sorted) [] = nth 2 (rows busy_second) [].
Proof.
  split; [reflexivity|]. split; [vm_compute; discriminate|].
  eexists. split; [reflexivity|]. split; vm_compute; reflexivity.
Qed.

(* ================================================================= *)
(** * More of the catalog *)

Local Open Scope string_scope.
Local Open Scope Z_scope.

Lemma str_in_In s l : str_in s l = true <-> In s l.
Proof.
  induction l as [|x l IH]; cbn [str_in In]; [split; [discriminate|tauto]|].
  rewrite orb_true_iff, IH, String.eqb_eq. split; intros [H|H]; auto.
Qed.

Lemma distinct_NoDup l : distinct l = true -> NoDup l.
Proof.
  induction l as [|s l IH]; cbn [distinct]; [constructor|].
  intros [Hs Hl]%andb_prop. constructor; [|now apply IH].
  rewrite <- str_in_In. now destruct (str_in s l).
Qed.

(** The second select box of the form has options for the nine sections
    of the first and for no other text, and no metric stands twice among
    the options of a section. *)
Theorem get_metrics_for_section_offered (section : string) :
  (get_metrics_for_section section <> [] <-> In section dashboard_sections)
  /\ NoDup (get_metrics_for_section section).
Proof.
  unfold get_metrics_for_section, dashboard_sections.
  repeat
    match goal with
    | |- context [String.eqb section ?s] =>
        destruct (String.eqb_spec section s) as [->|?];
        [split;
         [split; [intros _; apply str_in_In; reflexivity|discriminate]
         |apply distinct_NoDup; reflexivity]|]
    end.
  split; [|constructor].
  split; [congruence|]. cbn [In]. intuition congruence.
Qed.

(** For the two percentages [format_value] reads no number: it returns the
    text it was given when that ends with a percent sign, and the text
    with one percent sign added otherwise; what it returns always ends
    with a percent sign. *)
Theorem format_value_percentage (value metric_name : string) :
  str_in metric_name percentage_metrics = true ->
  exists s,
    format_value value metric_name = Ok s
    /\ endswith_char s "%" = true
    /\ s = (if endswith_char value "%" then value else value ++ "%").
Proof.
  intros H. rewrite format_value_branches.
  assert (str_in metric_name currency_metrics = false) as ->.
  { apply str_in_In in H. cbn [percentage_metrics In] in H.
    destruct H as [<-|[<-|[]]]; reflexivity. }
  rewrite H. eexists. split; [reflexivity|]. split; [|reflexivity].
  destruct (endswith_char value "%") eqn:E; [assumption|].
  apply endswith_char_app.
Qed.

Lemma format_value_percentage_witness :
  exists s,
    format_value "85" "ASANA Adoption" = Ok s
    /\ endswith_char s "%" = true
    /\ s = (if endswith_char "85" "%" then "85" else "85" ++ "%").
Proof.
  apply (format_value_percentage "85" "ASANA Adoption"). reflexivity.
Defined.

(* ----------------------------------------------------------------- *)
(** ** Whole numbers through [float] and [int] *)

Lemma digit_val_checked :
  forallb (fun k => digit_val (chr (48 + k)) =? Z.of_nat k) (seq 0 10) = true.
Proof. reflexivity. Qed.

Lemma pos_of_uint_acc d : forall acc,
  Z.pos (Pos.of_uint_acc d acc)
  = digits_val_from (Z.pos acc) (NilEmpty.string_of_uint d).
Proof.
  induction d as [|d IH|d IH|d IH|d IH|d IH|d IH|d IH|d IH|d IH|d IH];
    intros acc;
    cbn [Pos.of_uint_acc NilEmpty.string_of_uint digits_val_from];
    [reflexivity|..]; rewrite IH; f_equal;
    match goal with
    | |- _ = _ + digit_val ?c => change (digit_val c) with
          ltac:(let v := eval vm_compute in (digit_val c) in exact v)
    end; lia.
Qed.

Lemma digits_val_string_of_uint d :
  digits_val (NilEmpty.string_of_uint d) = Z.of_N (Pos.of_uint d).
Proof.
  unfold digits_val.
  induction d as [|d IH|d IH|d IH|d IH|d IH|d IH|d IH|d IH|d IH|d IH];
    cbn [Pos.of_uint NilEmpty.string_of_uint digits_val_from];
    [reflexivity|exact IH|..];
    cbn [Z.of_N]; rewrite pos_of_uint_acc; reflexivity.
Qed.

(** The digits of a number denote it. *)
Lemma digits_val_digits n : digits_val (digits n) = Z.of_N n.
Proof.
  rewrite <- (DecimalN.Unsigned.of_to n) at 2.
  unfold digits, NilZero.string_of_uint, N.of_uint.
  destruct (N.to_uint n) eqn:E; try apply digits_val_string_of_uint.
  reflexivity.
Qed.

Lemma rev_string_onto_twice s : forall a b,
  rev_string_onto (rev_string_onto s a) b = rev_string_onto a (s ++ b).
Proof.
  induction s as [|c s IH]; intros a b; [reflexivity|].
  cbn [rev_string_onto]. now rewrite IH.
Qed.

Lemma rev_string_involutive s : rev_string (rev_string s) = s.
Proof.
  unfold rev_string. rewrite rev_string_onto_twice. cbn [rev_string_onto].
  apply append_empty_r.
Qed.

Lemma all_chars_rev_onto p s : forall acc,
  all_chars p (rev_string_onto s acc) = all_chars p s && all_chars p acc.
Proof.
  induction s as [|c s IH]; intros acc; [reflexivity|].
  cbn [rev_string_onto all_chars]. rewrite IH. cbn [all_chars].
  now destruct (p c), (all_chars p s).
Qed.

Lemma all_chars_rev p s : all_chars p (rev_string s) = all_chars p s.
Proof.
  unfold rev_string. rewrite all_chars_rev_onto. cbn [all_chars].
  apply andb_true_r.
Qed.

Lemma drop_while_none (p q : ascii -> bool) s :
  (forall c, q c = true -> p c = false) ->
  all_chars q s = true -> drop_while p s = s.
Proof.
  intros H. destruct s as [|c s]; [reflexivity|].
  cbn [all_chars drop_while]. intros [Hc _]%andb_prop.
  now rewrite (H c Hc).
Qed.

Lemma take_while_all p s : all_chars p s = true -> take_while p s = s.
Proof.
  induction s as [|c s IH]; [reflexivity|]. cbn [all_chars take_while].
  intros [-> Hs]%andb_prop. now rewrite IH.
Qed.

Lemma drop_while_all p s : all_chars p s = true -> drop_while p s = "".
Proof.
  induction s as [|c s IH]; [reflexivity|]. cbn [all_chars drop_while].
  intros [-> Hs]%andb_prop. now apply IH.
Qed.

(** What a digit is not. *)
Lemma digit_plain c :
  is_digit c = true ->
  is_space c = false /\ space_to_ascii c = c /\ Ascii.eqb c "_" = false
  /\ c <> "-"%char /\ c <> "+"%char.
Proof.
  destruct c as [[] [] [] [] [] [] [] []]; intros H;
    try discriminate H; repeat split; discriminate.
Qed.

Lemma map_space_to_ascii_digits s :
  all_chars is_digit s = true -> map_string space_to_ascii s = s.
Proof.
  induction s as [|c s IH]; [reflexivity|]. cbn [all_chars map_string].
  intros [Hc Hs]%andb_prop. rewrite IH by assumption.
  now destruct (digit_plain c Hc) as (_ & -> & _).
Qed.

Lemma strip_underscores_digits s : forall prev,
  all_chars is_digit s = true -> Ascii.eqb prev "_" = false ->
  strip_underscores prev s = Some s.
Proof.
  induction s as [|c s IH]; intros prev Hs Hprev;
    cbn [strip_underscores]; [now rewrite Hprev|].
  cbn [all_chars] in Hs. apply andb_prop in Hs. destruct Hs as [Hc Hs].
  destruct (digit_plain c Hc) as (_ & _ & Hu & _).
  rewrite Hu, Hprev. cbn [andb]. now rewrite IH.
Qed.

Lemma split_sign_digit c r :
  is_digit c = true -> split_sign (String c r) = (false, String c r).
Proof.
  destruct c as [[] [] [] [] [] [] [] []]; intros H;
    try discriminate H; reflexivity.
Qed.

Lemma rstrip_keep1_digits c r :
  all_chars is_digit r = true -> rstrip_keep1 (String c r) = String c r.
Proof.
  intros H. cbn [rstrip_keep1].
  rewrite (drop_while_none is_space is_digit).
  - now rewrite rev_string_involutive.
  - intros d Hd. now destruct (digit_plain d Hd).
  - now rewrite all_chars_rev.
Qed.

(** [strtod] on a run of digits, with or without a sign before it. *)
Lemma parse_decimal_digits (neg : bool) c r :
  all_chars is_digit (String c r) = true ->
  parse_decimal ((if neg then "-" else "") ++ String c r)
  = Some (to_double neg (digits_val (String c r)) 1).
Proof.
  intros H. unfold parse_decimal.
  assert (split_sign ((if neg then "-" else "") ++ String c r)
          = (neg, String c r)) as ->.
  { destruct neg; [reflexivity|]. apply split_sign_digit.
    cbn [all_chars] in H. now apply andb_prop in H. }
  rewrite take_while_all, drop_while_all by assumption.
  rewrite append_empty_r. cbn [parse_exponent String.length].
  unfold decimal_to_double. cbn [Z.of_nat Z.sub Z.opp Z.leb Z.compare].
  now rewrite Z.pow_0_r, Z.mul_1_r.
Qed.

Lemma py_float_digits (neg : bool) (n : N) :
  py_float ((if neg then "-" else "") ++ digits n)
  = Ok (to_double neg (Z.of_N n) 1).
Proof.
  pose proof (digits_all_digits n) as H. pose proof (digits_nonempty n) as Hne.
  pose proof (digits_val_digits n) as Hv.
  destruct (digits n) as [|c r]; [contradiction|]. unfold py_float.
  assert (strip_underscores (chr 0)
            (map_string space_to_ascii ((if neg then "-" else "") ++ String c r))
          = Some ((if neg then "-" else "") ++ String c r)) as ->.
  { destruct neg.
    - change ("-" ++ String c r) with (String "-" (String c r)).
      change (map_string space_to_ascii (String "-" (String c r)))
        with (String "-" (map_string space_to_ascii (String c r))).
      rewrite map_space_to_ascii_digits by assumption.
      change (strip_underscores (chr 0) (String "-" (String c r)))
        with (option_map (String "-")
                (strip_underscores "-" (String c r))).
      now rewrite strip_underscores_digits.
    - change ("" ++ String c r) with (String c r).
      rewrite map_space_to_ascii_digits by assumption.
      now apply strip_underscores_digits. }
  assert (rstrip_keep1 (lstrip ((if neg then "-" else "") ++ String c r))
          = (if neg then "-" else "") ++ String c r) as ->.
  { cbn [all_chars] in H. apply andb_prop in H. destruct H as [Hc Hr].
    destruct neg.
    - change ("-" ++ String c r) with (String "-" (String c r)).
      change (lstrip (String "-" (String c r))) with (String "-" (String c r)).
      apply rstrip_keep1_digits. cbn [all_chars]. now rewrite Hc.
    - change ("" ++ String c r) with (String c r). unfold lstrip.
      cbn [drop_while]. destruct (digit_plain c Hc) as (-> & _).
      now apply rstrip_keep1_digits. }
  rewrite parse_decimal_digits by assumption. now rewrite Hv.
Qed.

(** A whole number below [2^53] is a double: its digits, moved up to fill
    the mantissa. *)
Lemma to_double_whole_exact (neg : bool) (n : Z) :
  0 <= n < 2 ^ 53 ->
  exists k, 0 <= k /\ to_double neg n 1 = Finite neg (n * 2 ^ k) (- k).
Proof.
  intros Hn. unfold to_double. destruct (Z.eqb_spec n 0) as [->|Hn0].
  { exists 0. split; [lia|reflexivity]. }
  set (L := Z.log2 n).
  assert (HL : 0 <= L < 53).
  { split; [apply Z.log2_nonneg|]. apply Z.log2_lt_pow2; lia. }
  assert (Hspec : 2 ^ L <= n < 2 ^ (L + 1))
    by (apply (Z.log2_spec n); lia).
  assert (Hlog : ilog2_ratio n 1 = L).
  { unfold ilog2_ratio, scaled. change (Z.log2 1) with 0.
    rewrite Z.sub_0_r. fold L.
    rewrite (Z.max_l 0 (- L)), (Z.max_r 0 L) by lia.
    rewrite Z.pow_0_r, Z.mul_1_r, Z.mul_1_l.
    destruct (Z.ltb_spec n (2 ^ L)); [lia|reflexivity]. }
  rewrite Hlog, (Z.max_l (L - 52) (-1074)) by lia. unfold scaled.
  rewrite (Z.max_r 0 (- (L - 52))), (Z.max_l 0 (L - 52)) by lia.
  rewrite Z.pow_0_r, Z.mul_1_r. cbv beta iota zeta.
  set (a := n * 2 ^ (- (L - 52))).
  assert (Ha : round_half_even a 1 = a).
  { unfold round_half_even. now rewrite Z.div_1_r, Z.mod_1_r. }
  assert (Hk : 0 < 2 ^ (- (L - 52))) by (apply Z.pow_pos_nonneg; lia).
  assert (Ha53 : a < 2 ^ 53).
  { replace (2 ^ 53) with (2 ^ (L + 1) * 2 ^ (- (L - 52)))
      by (rewrite <- Z.pow_add_r by lia; f_equal; lia).
    unfold a. nia. }
  rewrite Ha. destruct (Z.eqb_spec a (2 ^ 53)) as [E|_]; [lia|].
  destruct (Z.ltb_spec 971 (L - 52)) as [?|_]; [lia|].
  exists (- (L - 52)). split; [lia|]. now rewrite Z.opp_involutive.
Qed.

(** [int] gives the whole number back. *)
Lemma to_double_whole (neg : bool) (n : Z) :
  0 <= n < 2 ^ 53 ->
  exists m e,
    to_double neg n 1 = Finite neg m e
    /\ py_int (Finite neg m e) = Ok (if neg then - n else n).
Proof.
  intros Hn. destruct (to_double_whole_exact neg n Hn) as (k & Hk & E).
  exists (n * 2 ^ k), (- k). split; [assumption|]. unfold py_int. f_equal.
  assert (Hp : 0 < 2 ^ k) by (apply Z.pow_pos_nonneg; lia).
  assert (Hval : (if 0 <=? - k then n * 2 ^ k * 2 ^ (- k)
                  else n * 2 ^ k / 2 ^ (- - k)) = n).
  { destruct (Z.leb_spec 0 (- k)).
    - replace k with 0 by lia. cbn. lia.
    - rewrite Z.opp_involutive. apply Z.div_mul. lia. }
  now rewrite Hval.
Qed.

Lemma round_half_even_exact q d : 0 < d -> round_half_even (q * d) d = q.
Proof.
  intros Hd. unfold round_half_even.
  rewrite Z.div_mul, Z.mod_mul by lia.
  destruct (Z.compare_spec (2 * 0) d); lia.
Qed.

(** In hundredths a whole number is a hundred times itself. *)
Lemma cents_whole n k : 0 <= k -> cents (n * 2 ^ k) (- k) = n * 100.
Proof.
  intros Hk. unfold cents, scaled. rewrite !Z.opp_involutive.
  rewrite (Z.max_l 0 (- k)), (Z.max_r 0 k) by lia.
  rewrite Z.pow_0_r, Z.mul_1_r, Z.mul_1_l.
  replace (n * 2 ^ k * 100) with (n * 100 * 2 ^ k) by lia.
  apply round_half_even_exact. apply Z.pow_pos_nonneg; lia.
Qed.

Lemma format_count_whole_number (n : Z) :
  - 2 ^ 53 < n < 2 ^ 53 ->
  format_count (format_int n) = format_int_grouped n.
Proof.
  intros Hn. unfold format_count, format_int.
  replace (if n <? 0 then "-" else "")
    with (if n <? 0 then "-" else "" : string) by reflexivity.
  rewrite (py_float_digits (n <? 0) (Z.abs_N n)). cbn [bind].
  destruct (to_double_whole (n <? 0) (Z.of_N (Z.abs_N n)))
    as (m & e & -> & ->); [rewrite N2Z.inj_abs_N; lia|].
  cbn [bind try_except]. f_equal. rewrite N2Z.inj_abs_N.
  destruct (Z.ltb_spec n 0); lia.
Qed.

(** A count is shown as Python groups it: for a metric that is neither an
    amount nor a percentage, [format_value] applied to the decimal text of
    a whole number between [-2^53] and [2^53] returns that number with its
    thousands grouped, no digit changed. *)
Theorem format_value_whole_number (n : Z) (metric_name : string) :
  str_in metric_name currency_metrics = false ->
  str_in metric_name percentage_metrics = false ->
  - 2 ^ 53 < n < 2 ^ 53 ->
  format_value (format_int n) metric_name = Ok (format_int_grouped n).
Proof.
  intros Hc Hp Hn. rewrite format_value_branches, Hc, Hp. f_equal.
  now apply format_count_whole_number.
Qed.

Lemma format_value_whole_number_witness :
  format_value (format_int 2500) "Total New Members"
  = Ok (format_int_grouped 2500).
Proof.
  apply (format_value_whole_number 2500 "Total New Members");
    [reflexivity|reflexivity|]. split; reflexivity.
Defined.

Lemma format_currency_whole_number (n : Z) :
  - 2 ^ 53 < n < 2 ^ 53 ->
  format_currency (format_int n) = "$" ++ format_int_grouped n ++ ".00".
Proof.
  intros Hn. unfold format_currency, format_int.
  replace (if n <? 0 then "-" else "")
    with (if n <? 0 then "-" else "" : string) by reflexivity.
  rewrite (py_float_digits (n <? 0) (Z.abs_N n)). cbn [bind].
  destruct (to_double_whole_exact (n <? 0) (Z.of_N (Z.abs_N n)))
    as (k & Hk & ->); [rewrite N2Z.inj_abs_N; lia|].
  cbn [bind try_except format_float_grouped_2f].
  rewrite cents_whole by assumption.
  rewrite Z.div_mul, Z.mod_mul by lia.
  rewrite N2Z.id. change (two_digits 0) with "00".
  unfold format_int_grouped. f_equal.
  now rewrite !append_assoc.
Qed.

(** A whole amount is shown to the cent: for a currency metric,
    [format_value] applied to the decimal text of a whole number between
    [-2^53] and [2^53] returns the currency symbol, that number with its
    thousands grouped, and ".00". *)
Theorem format_value_whole_amount (n : Z) (metric_name : string) :
  str_in metric_name currency_metrics = true ->
  - 2 ^ 53 < n < 2 ^ 53 ->
  format_value (format_int n) metric_name
  = Ok ("$" ++ format_int_grouped n ++ ".00").
Proof.
  intros Hc Hn. rewrite format_value_branches, Hc. f_equal.
  now apply format_currency_whole_number.
Qed.

Lemma format_value_whole_amount_witness :
  format_value (format_int 125000) "Total Grants"
  = Ok ("$" ++ format_int_grouped 125000 ++ ".00").
Proof.
  apply (format_value_whole_amount 125000 "Total Grants");
    [reflexivity|]. split; reflexivity.
Defined.

(* ----------------------------------------------------------------- *)
(** ** The form's widgets and [format_value] *)

Lemma endswith_char_none (p : ascii -> bool) s c :
  all_chars p s = true -> p c = false -> endswith_char s c = false.
Proof.
  intros Hs Hc. induction s as [|d s IH]; [reflexivity|].
  cbn [all_chars] in Hs. apply andb_prop in Hs. destruct Hs as [Hd Hs].
  cbn [endswith_char]. destruct s as [|e s'].
  - destruct (Ascii.eqb_spec d c) as [->|]; [congruence|reflexivity].
  - now apply IH.
Qed.

Lemma format_int_no_percent n : endswith_char (format_int n) "%" = false.
Proof.
  apply endswith_char_none
    with (p := fun c => is_digit c || Ascii.eqb c "-"); [|reflexivity].
  unfold format_int. rewrite all_chars_app. apply andb_true_intro. split.
  - now destruct (n <? 0).
  - apply all_chars_weaken with (p := is_digit);
      [|apply digits_all_digits].
    intros c ->. reflexivity.
Qed.

(** But for the stories, the text the form stores for a metric (lines
    288-298) is the text [format_value] returns for the plain text of the
    number the widget holds. *)
Theorem entered_value_format_value (metric_name : string)
    (v : widget_value) (text s : string) :
  str_in metric_name free_text_metrics = false ->
  written_as v text ->
  entered_value metric_name v = Some s ->
  format_value text metric_name = Ok s.
Proof.
  intros Hfree Hv. unfold entered_value. rewrite format_value_branches.
  destruct (str_in metric_name percentage_metrics) eqn:Hp.
  - assert (str_in metric_name currency_metrics = false) as ->.
    { apply str_in_In in Hp. cbn [percentage_metrics In] in Hp.
      destruct Hp as [<-|[<-|[]]]; reflexivity. }
    destruct v; try discriminate. intros [= <-]. cbn [written_as] in Hv.
    subst text. now rewrite format_int_no_percent.
  - destruct (str_in metric_name currency_metrics) eqn:Hc.
    + destruct v; try discriminate. intros [= <-]. cbn [written_as] in Hv.
      unfold format_currency. now rewrite Hv.
    + rewrite Hfree. destruct v; try discriminate. intros [= <-].
      destruct Hv as [-> Hn].
      f_equal. now apply format_count_whole_number.
Qed.

Lemma entered_value_format_value_witness :
  format_value "2500" "Total New Members" = Ok "2,500".
Proof.
  apply (entered_value_format_value "Total New Members"
           (NumericValue 2500) "2500" "2,500").
  - reflexivity.
  - split; [reflexivity|]. split; reflexivity.
  - reflexivity.
Defined.

(* ----------------------------------------------------------------- *)
(** ** A file that cannot be read *)

Lemma step_blank c t :
  is_blank c = true -> nothing_read t -> nothing_read (step c t).
Proof.
  unfold is_blank, IS_WHITESPACE. intros Hc (Hs & Hf & Hl & Hls).
  assert (c = LF \/ c = CR \/ c = " "%char \/ c = TAB) as Hcases.
  { repeat rewrite orb_true_iff in Hc.
    destruct Hc as [[H|H]|[H|H]]; apply Ascii.eqb_eq in H; auto. }
  destruct t as [st f l ls]. cbn [state field line lines] in *. subst.
  destruct st; try contradiction;
    destruct Hcases as [->|[->|[->| ->]]];
    repeat split; reflexivity || exact I.
Qed.

Lemma run_blank text : forall t,
  all_chars is_blank text = true -> nothing_read t ->
  nothing_read (run text t).
Proof.
  induction text as [|c text IH]; intros t H Ht; [exact Ht|].
  cbn [all_chars] in H. apply andb_prop in H. destruct H as [Hc H].
  cbn [run]. apply IH; [assumption|]. now apply step_blank.
Qed.

Lemma read_csv_blank text :
  all_chars is_blank text = true -> read_csv text = Raise EmptyDataError.
Proof.
  intros H. unfold read_csv, tokenize.
  destruct (run_blank text tokenizer_init H) as (Hs & _ & _ & Hls).
  { repeat split. }
  unfold handle_eof. destruct (state (run text tokenizer_init));
    try contradiction; now rewrite Hls.
Qed.

(** A file that is there but holds nothing, or blank lines only, is not
    an empty store: [load_submissions] raises [EmptyDataError], where for
    a file that is not there it returns the empty frame. *)
Theorem load_submissions_blank_file (text : string) (w : World) :
  all_chars is_blank text = true ->
  submissions_file w = Some text ->
  load_submissions w = (w, Raise EmptyDataError).
Proof.
  intros H Hw. rewrite load_submissions_eq, Hw. now rewrite read_csv_blank.
Qed.

Lemma load_submissions_blank_file_witness :
  load_submissions {| submissions_file := Some (String LF (String LF "")) |}
  = ({| submissions_file := Some (String LF (String LF "")) |},
     Raise EmptyDataError).
Proof.
  apply (load_submissions_blank_file (String LF (String LF "")));
    reflexivity.
Defined.

Lemma save_submission_unreadable f d w e :
  snd (load_submissions w) = Raise e -> save_submission f d w = (w, Raise e).
Proof. intros H. now rewrite save_submission_eq, H. Qed.

(** While the file cannot be read nothing can be saved: [save_submission]
    raises what [load_submissions] raised, on any medium, the handler of
    the form raises too, and the file is left as it was. *)
Theorem unreadable_file_blocks_saving (w : World) (e : exn) :
  snd (load_submissions w) = Raise e ->
  (forall f d, save_submission f d w = (w, Raise e))
  /\ (forall u form env,
        exists e', handle_submit u form env w = (w, Raise e')).
Proof.
  intros H. split; [intros f d; now apply save_submission_unreadable|].
  intros u form env. unfold handle_submit.
  destruct (submission_of u form env) as [d|e']; [|now exists e'].
  unfold io_bind. rewrite (save_submission_unreadable _ _ _ _ H).
  now exists e.
Qed.

Lemma unreadable_file_blocks_saving_witness :
  (forall f d,
     save_submission f d {| submissions_file := Some "" |}
     = ({| submissions_file := Some "" |}, Raise EmptyDataError))
  /\ (forall u form env,
        exists e',
          handle_submit u form env {| submissions_file := Some "" |}
          = ({| submissions_file := Some "" |}, Raise e')).
Proof.
  apply (unreadable_file_blocks_saving {| submissions_file := Some "" |}
           EmptyDataError).
  reflexivity.
Defined.

(** A write that fails before its first character leaves a file on which
    every later [save_submission] fails, on a working medium as well: the
    store stays empty until the file is removed. *)
Theorem failed_first_write_blocks_later_saves (w : World) (df : DataFrame)
    (d : Submission) :
  snd (load_submissions w) = Ok df ->
  fst (save_submission (WriteFails 0) d w) = {| submissions_file := Some "" |}
  /\ forall f d',
       save_submission f d' (fst (save_submission (WriteFails 0) d w))
       = ({| submissions_file := Some "" |}, Raise EmptyDataError).
Proof.
  intros H. rewrite save_submission_eq, H. cbn [fst firstn_string].
  split; [reflexivity|]. intros f d'.
  apply save_submission_unreadable. reflexivity.
Qed.

Lemma failed_first_write_blocks_later_saves_witness :
  fst (save_submission (WriteFails 0) plain_submission no_file)
  = {| submissions_file := Some "" |}
  /\ forall f d',
       save_submission f d'
         (fst (save_submission (WriteFails 0) plain_submission no_file))
       = ({| submissions_file := Some "" |}, Raise EmptyDataError).
Proof.
  apply (failed_first_write_blocks_later_saves no_file empty_submissions).
  reflexivity.
Defined.

(* ----------------------------------------------------------------- *)
(** ** The name of the user (lines 311-312) *)

Lemma split_from_blank s :
  all_chars is_unicode_space s = true -> split_from "" s = [].
Proof.
  induction s as [|c s IH]; [reflexivity|]. cbn [all_chars split_from].
  intros [-> Hs]%andb_prop. now apply IH.
Qed.

(** A user whose name is empty or blank cannot submit: the handler raises
    [IndexError] before anything is written. *)
Theorem handle_submit_blank_name (u : UserInfo) (form : FormData)
    (env : Env) (w : World) :
  all_chars is_unicode_space (user_name u) = true ->
  handle_submit u form env w = (w, Raise IndexError).
Proof.
  intros H. unfold handle_submit, submission_of, split.
  now rewrite split_from_blank.
Qed.

Lemma handle_submit_blank_name_witness :
  handle_submit {| user_name := "  "; user_email := "admin@girltrek.org" |}
    {| form_section := "Recruitment"; form_metric := "Recruitment Events";
       form_value := "3"; form_notes := "" |}
    {| uuid4 := 7; now := "2025-03-14 09:30:00"; medium := NoFault |}
    no_file
  = (no_file, Raise IndexError).
Proof.
  apply (handle_submit_blank_name
           {| user_name := "  "; user_email := "admin@girltrek.org" |}).
  reflexivity.
Defined.

Lemma split_from_words s : forall cur,
  all_chars no_space cur = true ->
  Forall is_word (split_from cur s).
Proof.
  induction s as [|c s IH]; intros cur Hcur; cbn [split_from].
  - destruct cur; constructor; [|constructor]. split; [discriminate|assumption].
  - destruct (is_unicode_space c) eqn:E.
    + destruct cur as [|d cur]; [now apply IH|].
      constructor; [split; [discriminate|assumption]|now apply IH].
    + apply IH. rewrite all_chars_app, Hcur. cbn [all_chars].
      unfold no_space. now rewrite E.
Qed.

Lemma split_from_word w : forall cur rest,
  all_chars no_space w = true ->
  split_from cur (w ++ rest) = split_from (cur ++ w) rest.
Proof.
  induction w as [|c w IH]; intros cur rest H.
  - now rewrite append_empty_r.
  - cbn [all_chars] in H. apply andb_prop in H. destruct H as [Hc Hw].
    change (String c w ++ rest) with (String c (w ++ rest)).
    cbn [split_from]. unfold no_space in Hc.
    destruct (is_unicode_space c); [discriminate|].
    rewrite IH by assumption. now rewrite append_assoc.
Qed.

Lemma split_from_after_word w rest :
  is_word w ->
  split_from "" (w ++ String " " rest) = w :: split_from "" rest.
Proof.
  intros [Hne Hw]. rewrite split_from_word by assumption.
  change ("" ++ w) with w. cbn [split_from].
  change (is_unicode_space " ") with true. cbn match.
  destruct w; [contradiction|reflexivity].
Qed.

(** Joining words with blanks and splitting again gives the words. *)
Lemma split_concat ws :
  Forall is_word ws -> split (String.concat " " ws) = ws.
Proof.
  unfold split. induction 1 as [|w ws Hw Hws IH]; [reflexivity|].
  destruct ws as [|v ws].
  - cbn [String.concat]. rewrite <- (append_empty_r w) at 1.
    destruct Hw as [Hne Hw]. rewrite split_from_word by assumption.
    cbn [split_from append]. destruct w; [contradiction|reflexivity].
  - change (String.concat " " (w :: v :: ws))
      with (w ++ String " " (String.concat " " (v :: ws))).
    rewrite split_from_after_word by assumption. now rewrite IH.
Qed.

(** The two names stored with a submission are the words of the user's
    name: the first name is its first word, never empty and without white
    space, and first and last name together split into the same words as
    the name itself. *)
Theorem submission_names (u : UserInfo) (form : FormData) (env : Env)
    (d : Submission) :
  submission_of u form env = Ok d ->
  is_word (first_name d)
  /\ split (user_name u) = first_name d :: split (last_name d)
  /\ split (first_name d ++ " " ++ last_name d) = split (user_name u).
Proof.
  unfold submission_of.
  pose proof (split_from_words (user_name u) "" eq_refl) as Hws.
  fold (split (user_name u)) in Hws.
  destruct (split (user_name u)) as [|first others] eqn:E; [discriminate|].
  intros [= <-]. cbn [first_name last_name].
  inversion Hws as [|? ? Hfirst Hothers]; subst.
  assert (Hlast : split (if (1 <? S (List.length others))%nat
                         then String.concat " " others else "") = others).
  { destruct others as [|o others]; [reflexivity|].
    cbn [List.length]. now apply split_concat. }
  split; [assumption|]. split; [now rewrite Hlast|].
  change (first ++ " " ++ ?x) with (first ++ String " " x).
  unfold split at 1. rewrite split_from_after_word by assumption.
  fold (split (if (1 <? S (List.length others))%nat
               then String.concat " " others else "")).
  now rewrite Hlast.
Qed.

Lemma submission_names_witness :
  exists d,
    submission_of admin
      {| form_section := "Recruitment"; form_metric := "Recruitment Events";
         form_value := "3"; form_notes := "" |}
      {| uuid4 := 7; now := "2025-03-14 09:30:00"; medium := NoFault |}
    = Ok d
    /\ is_word (first_name d)
    /\ split (user_name admin) = first_name d :: split (last_name d)
    /\ split (first_name d ++ " " ++ last_name d) = split (user_name admin).
Proof.
  eexists. split; [reflexivity|].
  apply (submission_names admin
           {| form_section := "Recruitment";
              form_metric := "Recruitment Events";
              form_value := "3"; form_notes := "" |}
           {| uuid4 := 7; now := "2025-03-14 09:30:00"; medium := NoFault |}).
  reflexivity.
Defined.

(* ----------------------------------------------------------------- *)
(** ** [pd.concat] (line 107) *)

Local Open Scope nat_scope.

Lemma index_of_Some name cols i :
  index_of name cols = Some i ->
  i < List.length cols /\ nth i cols ""%string = name.
Proof.
  revert i. induction cols as [|c cols IH]; intros i; [discriminate|].
  cbn [index_of]. destruct (String.eqb_spec name c) as [->|Hne].
  - intros [= <-]. cbn. split; [lia|reflexivity].
  - destruct (index_of name cols) as [j|]; [|discriminate].
    intros [= <-]. destruct (IH j eq_refl). cbn. split; [lia|assumption].
Qed.

Lemma index_of_None name cols :
  index_of name cols = None -> ~ In name cols.
Proof.
  intros H Hin. apply index_of_In in Hin. destruct Hin as [i Hi]. congruence.
Qed.

Lemma cell_at_absent cols r name : ~ In name cols -> cell_at cols r name = None.
Proof.
  intros H. unfold cell_at. destruct (index_of name cols) as [i|] eqn:E;
    [|reflexivity].
  destruct (index_of_Some _ _ _ E) as [Hi <-]. exfalso. apply H.
  now apply nth_In.
Qed.

(** A row read under new labels has under each of them what it had. *)
Lemma cell_at_reindexed old cols r name :
  (In name old -> In name cols) ->
  cell_at cols (map (cell_at old r) cols) name = cell_at old r name.
Proof.
  intros H. unfold cell_at at 1.
  destruct (index_of name cols) as [i|] eqn:E.
  - destruct (index_of_Some _ _ _ E) as [Hi Hn].
    rewrite (nth_indep _ None (cell_at old r ""%string))
      by (now rewrite length_map).
    now rewrite map_nth, Hn.
  - symmetry. apply cell_at_absent. intros Hin.
    now apply (index_of_None _ _ E), H.
Qed.

Lemma NoDup_filter {A : Type} (p : A -> bool) l : NoDup l -> NoDup (filter p l).
Proof.
  induction 1 as [|x l Hx Hl IH]; cbn [filter]; [constructor|].
  destruct (p x); [|assumption]. constructor; [|assumption].
  intros Hin. apply filter_In in Hin. tauto.
Qed.

(** [pd.concat] of two frames, each with its labels once, loses nothing:
    the result has the labels of the first, then the new ones of the
    second, each once; its rows are those of the first then those of the
    second, each as wide as the labels; and under every label a row holds
    what it held before, or nothing where its frame had no such label. *)
Theorem concat_keeps_cells (a b : DataFrame) :
  NoDup (columns a) -> NoDup (columns b) ->
  NoDup (columns (concat a b))
  /\ (forall name, In name (columns (concat a b))
                   <-> In name (columns a) \/ In name (columns b))
  /\ (exists more, columns (concat a b) = (columns a ++ more)%list)
  /\ List.length (rows (concat a b))
     = List.length (rows a) + List.length (rows b)
  /\ Forall (fun r => List.length r = List.length (columns (concat a b)))
       (rows (concat a b))
  /\ (forall i name,
        i < List.length (rows a) ->
        cell_at (columns (concat a b)) (nth i (rows (concat a b)) []) name
        = cell_at (columns a) (nth i (rows a) []) name)
  /\ (forall i name,
        i < List.length (rows b) ->
        cell_at (columns (concat a b))
          (nth (List.length (rows a) + i) (rows (concat a b)) []) name
        = cell_at (columns b) (nth i (rows b) []) name).
Proof.
  intros Ha Hb. unfold concat. cbn [columns rows].
  set (more := filter (fun c => negb (str_in c (columns a))) (columns b)).
  set (cols := (columns a ++ more)%list).
  assert (Hin : forall name,
            In name cols <-> In name (columns a) \/ In name (columns b)).
  { intros name. unfold cols, more. rewrite in_app_iff, filter_In.
    split; [tauto|]. intros [H|H]; [now left|].
    destruct (str_in name (columns a)) eqn:E;
      [left; now apply str_in_In|right; split; [assumption|reflexivity]]. }
  split; [|split; [exact Hin|split; [now exists more|split; [|split; [|split]]]]].
  - unfold cols. apply NoDup_app; [assumption|now apply NoDup_filter|].
    intros x Hx Hx'. unfold more in Hx'. apply filter_In in Hx'.
    destruct Hx' as [_ Hx']. apply str_in_In in Hx. now rewrite Hx in Hx'.
  - now rewrite length_app, !length_map.
  - apply Forall_app. split; apply Forall_map, Forall_forall;
      intros r _; apply length_map.
  - intros i name Hi. rewrite app_nth1 by (now rewrite length_map).
    rewrite (nth_indep _ [] (map (cell_at (columns a) []) cols))
      by (now rewrite length_map).
    rewrite (map_nth (fun r => map (cell_at (columns a) r) cols)).
    apply cell_at_reindexed. intros H. apply Hin. now left.
  - intros i name Hi. rewrite app_nth2 by (rewrite length_map; lia).
    rewrite length_map.
    replace (List.length (rows a) + i - List.length (rows a)) with i by lia.
    rewrite (nth_indep _ [] (map (cell_at (columns b) []) cols))
      by (now rewrite length_map).
    rewrite (map_nth (fun r => map (cell_at (columns b) r) cols)).
    apply cell_at_reindexed. intros H. apply Hin. now right.
Qed.

Lemma concat_keeps_cells_witness :
  NoDup (columns (concat (loaded [noted_submission])
                    (frame_of_submissions [plain_submission])))
  /\ List.length (rows (concat (loaded [noted_submission])
                          (frame_of_submissions [plain_submission]))) = 2.
Proof.
  destruct (concat_keeps_cells (loaded [noted_submission])
              (frame_of_submissions [plain_submission]))
    as (H1 & _ & _ & H2 & _).
  - apply distinct_NoDup. reflexivity.
  - apply distinct_NoDup. reflexivity.
  - split; [exact H1|exact H2].
Defined.

(* ----------------------------------------------------------------- *)
(** ** What [save_submission] writes (lines 104-109) *)

Lemma concat_strings_app l1 l2 :
  concat_strings (l1 ++ l2) = (concat_strings l1 ++ concat_strings l2)%string.
Proof.
  induction l1 as [|s l1 IH]; [reflexivity|]. cbn [app concat_strings].
  now rewrite IH, append_assoc.
Qed.

(** On a working medium, over a store under the nine labels with nine
    cells to the row, [save_submission] writes the frame it loaded and,
    as the last line, the new record: nothing of the store is dropped or
    moved, and the new record comes after all others. *)
Theorem save_submission_appends_line (w : World) (df : DataFrame)
    (d : Submission) :
  snd (load_submissions w) = Ok df ->
  columns df = SUBMISSION_COLUMNS ->
  Forall (fun r => List.length r = 9) (rows df) ->
  save_submission NoFault d w
  = ({| submissions_file :=
          Some (to_csv df ++ writerow (submission_values d))%string |},
     Ok true).
Proof.
  intros Hload Hcols Hrows. rewrite save_submission_eq, Hload.
  cbv beta iota zeta. f_equal. f_equal. f_equal.
  assert (concat df (frame_of_submissions [d])
          = {| columns := columns df;
               rows := rows df ++ [map Some (submission_values d)] |}) as ->.
  { unfold concat. rewrite Hcols.
    change (columns (frame_of_submissions [d])) with SUBMISSION_COLUMNS.
    change (filter (fun c => negb (str_in c SUBMISSION_COLUMNS))
              SUBMISSION_COLUMNS) with (@nil string).
    rewrite app_nil_r. f_equal. f_equal.
    rewrite <- (map_id (rows df)) at 2.
    apply map_ext_in. intros r Hr. apply reindex_same.
    rewrite Forall_forall in Hrows. auto. }
  unfold to_csv. cbn [columns rows].
  rewrite map_app, concat_strings_app. cbn [map concat_strings].
  rewrite map_map. cbn [cell_text]. rewrite map_id.
  now rewrite append_empty_r, append_assoc.
Qed.

Lemma save_submission_appends_line_witness :
  save_submission NoFault plain_submission
    {| submissions_file :=
         Some (to_csv (frame_of_submissions [noted_submission])) |}
  = ({| submissions_file :=
          Some (to_csv (loaded [noted_submission])
                ++ writerow (submission_values plain_submission))%string |},
     Ok true).
Proof.
  apply (save_submission_appends_line
           {| submissions_file :=
                Some (to_csv (frame_of_submissions [noted_submission])) |}
           (loaded [noted_submission])).
  - vm_compute. reflexivity.
  - reflexivity.
  - repeat constructor.
Defined.

Local Open Scope Z_scope.

(* ----------------------------------------------------------------- *)
(** ** More of the "View Submissions" page *)

Local Open Scope nat_scope.

Lemma filter_all {A : Type} (p : A -> bool) l :
  Forall (fun x => p x = true) l -> filter p l = l.
Proof.
  induction 1 as [|x l Hx Hl IH]; [reflexivity|]. cbn [filter].
  now rewrite Hx, IH.
Qed.

Lemma filter_filter_same {A : Type} (p : A -> bool) l :
  filter p (filter p l) = filter p l.
Proof.
  apply filter_all. apply Forall_forall. intros x Hx.
  now apply filter_In in Hx.
Qed.

Lemma select_eq_rows df name v df' :
  select_eq df name v = Ok df' ->
  columns df' = columns df
  /\ (exists keep, rows df' = filter keep (rows df))
  /\ select_eq df' name v = Ok df'.
Proof.
  unfold select_eq. destruct (index_of name (columns df)) as [i|] eqn:E;
    [|discriminate].
  intros [= <-]. cbn [columns rows]. rewrite E.
  split; [reflexivity|]. split; [eauto|]. now rewrite filter_filter_same.
Qed.

Lemma select_eq_after df name v df' name' v' df'' :
  select_eq df name v = Ok df' -> select_eq df' name' v' = Ok df'' ->
  select_eq df'' name v = Ok df''.
Proof.
  unfold select_eq.
  destruct (index_of name (columns df)) as [i|] eqn:E; [|discriminate].
  intros [= <-]. cbn [columns rows].
  destruct (index_of name' (columns df)) as [j|] eqn:E'; [|discriminate].
  intros [= <-]. cbn [columns rows]. rewrite E. f_equal. f_equal.
  apply filter_all, Forall_forall. intros r Hr.
  apply filter_In in Hr. destruct Hr as [Hr _].
  now apply filter_In in Hr.
Qed.

Lemma apply_filters_rows df s m df' :
  apply_filters df s m = Ok df' ->
  columns df' = columns df
  /\ exists keep, rows df' = filter keep (rows df).
Proof.
  unfold apply_filters.
  destruct (negb (cell_eqb s (Some "All Sections"%string))).
  - destruct (select_eq df "dashboard_section" s) as [df1|] eqn:E1;
      [|discriminate]. cbn [bind].
    destruct (select_eq_rows _ _ _ _ E1) as (C1 & (k1 & R1) & _).
    destruct (negb (cell_eqb m (Some "All Metrics"%string))).
    + intros E2. destruct (select_eq_rows _ _ _ _ E2) as (C2 & (k2 & R2) & _).
      split; [congruence|]. exists (fun x => k1 x && k2 x).
      now rewrite R2, R1, filter_twice.
    + intros [= <-]. split; [assumption|eauto].
  - cbn [bind]. destruct (negb (cell_eqb m (Some "All Metrics"%string))).
    + intros E2. destruct (select_eq_rows _ _ _ _ E2) as (C2 & (k2 & R2) & _).
      split; [assumption|eauto].
    + intros [= <-]. split; [reflexivity|]. exists (fun _ => true).
      symmetry. apply filter_all, Forall_forall. reflexivity.
Qed.

(** The filters only leave rows out: what they return has the columns of
    the frame and some of its rows, in the order they had; and the same
    filters applied to what they returned leave it as it is. *)
Theorem apply_filters_leaves_out (df : DataFrame) (s m : cell)
    (df' : DataFrame) :
  apply_filters df s m = Ok df' ->
  columns df' = columns df
  /\ (exists keep, rows df' = filter keep (rows df))
  /\ apply_filters df' s m = Ok df'.
Proof.
  intros H. destruct (apply_filters_rows _ _ _ _ H) as (C & K).
  split; [assumption|]. split; [assumption|].
  revert H. unfold apply_filters.
  destruct (negb (cell_eqb s (Some "All Sections"%string))).
  - destruct (select_eq df "dashboard_section" s) as [df1|] eqn:E1;
      [|discriminate]. cbn [bind].
    destruct (negb (cell_eqb m (Some "All Metrics"%string))).
    + intros E2. rewrite (select_eq_after _ _ _ _ _ _ _ E1 E2). cbn [bind].
      now destruct (select_eq_rows _ _ _ _ E2) as (_ & _ & ->).
    + intros [= <-].
      now destruct (select_eq_rows _ _ _ _ E1) as (_ & _ & ->).
  - cbn [bind]. destruct (negb (cell_eqb m (Some "All Metrics"%string))).
    + intros E2. now destruct (select_eq_rows _ _ _ _ E2) as (_ & _ & ->).
    + now intros [= <-].
Qed.

Lemma apply_filters_leaves_out_witness :
  columns (loaded [plain_submission]) = columns (loaded [noted_submission; plain_submission])
  /\ (exists keep,
        rows (loaded [plain_submission])
        = filter keep (rows (loaded [noted_submission; plain_submission])))
  /\ apply_filters (loaded [plain_submission]) (Some "Recruitment"%string)
       (Some "All Metrics"%string)
     = Ok (loaded [plain_submission]).
Proof.
  apply (apply_filters_leaves_out
           (loaded [noted_submission; plain_submission])
           (Some "Recruitment"%string) (Some "All Metrics"%string)).
  reflexivity.
Defined.

(* ----------------------------------------------------------------- *)
(** *** The options of the filters (lines 352-361) *)

Lemma same_value_eq a b : same_value a b = true <-> a = b.
Proof.
  destruct a as [x|], b as [y|]; cbn [same_value];
    try (split; [discriminate|congruence]); [|tauto].
  rewrite String.eqb_eq. split; congruence.
Qed.

Lemma existsb_same_value c seen :
  existsb (same_value c) seen = true <-> In c seen.
Proof.
  rewrite existsb_exists. split.
  - intros (x & Hx & E). apply same_value_eq in E. now subst.
  - intros H. exists c. split; [assumption|now apply same_value_eq].
Qed.

Lemma unique_from_In c items : forall seen,
  In c (unique_from seen items) <-> In c items /\ ~ In c seen.
Proof.
  induction items as [|x items IH]; intros seen; cbn [unique_from In];
    [tauto|].
  destruct (existsb (same_value x) seen) eqn:E.
  - apply existsb_same_value in E. rewrite IH. split; [tauto|].
    intros [[<-|H] Hn]; tauto.
  - assert (Hx : ~ In x seen)
      by (rewrite <- existsb_same_value; congruence).
    cbn [In]. rewrite IH. cbn [In]. split.
    + intros [<-|[H Hn]]; tauto.
    + intros [[<-|H] Hn]; [now left|].
      destruct (same_value x c) eqn:Exc;
        [apply same_value_eq in Exc; now left|].
      right. split; [assumption|]. intros [->|H']; [|contradiction].
      assert (same_value c c = true) by now apply same_value_eq.
      congruence.
Qed.

Lemma unique_from_NoDup items : forall seen, NoDup (unique_from seen items).
Proof.
  induction items as [|x items IH]; intros seen; cbn [unique_from];
    [constructor|].
  destruct (existsb (same_value x) seen); [apply IH|].
  constructor; [|apply IH]. rewrite unique_from_In. cbn [In]. tauto.
Qed.

Lemma cell_eqb_eq a s : cell_eqb a (Some s) = true <-> a = Some s.
Proof.
  destruct a as [x|]; cbn [cell_eqb]; [|split; discriminate].
  rewrite String.eqb_eq. split; congruence.
Qed.

Lemma cell_eqb_None a : cell_eqb a None = false.
Proof. now destruct a. Qed.

(** What a choice among the values of a column selects. *)
Lemma select_eq_value df name items o :
  column df name = Ok items -> In o items ->
  exists shown,
    select_eq df name o = Ok shown
    /\ match o with
       | None => rows shown = []
       | Some s =>
           rows shown <> []
           /\ Forall (fun r => cell_at (columns df) r name = Some s)
                (rows shown)
       end.
Proof.
  unfold column, select_eq, cell_at.
  destruct (index_of name (columns df)) as [i|]; [|discriminate].
  intros [= <-] Hin. eexists. split; [reflexivity|]. cbn [rows].
  destruct o as [s|].
  - split.
    + apply in_map_iff in Hin. destruct Hin as (r & Hr & Hin).
      intros E. assert (H : In r (filter (fun r => cell_eqb (nth i r None) (Some s))
                                    (rows df)))
        by (apply filter_In; split; [assumption|now apply cell_eqb_eq]).
      rewrite E in H. contradiction.
    + apply Forall_forall. intros r Hr. apply filter_In in Hr.
      now apply cell_eqb_eq.
  - clear Hin. induction (rows df) as [|r rs IH]; [reflexivity|].
    cbn [filter]. now rewrite cell_eqb_None.
Qed.

(** The first filter offers each section of the frame once, after the
    label for all.  A section chosen there shows rows, all of that
    section and all there are of it; the blank option, offered when some
    row has no section, shows no row at all. *)
Theorem section_options_select (df : DataFrame) (options : list cell) :
  filter_options "All Sections" df "dashboard_section" = Ok options ->
  (exists sections,
     options = Some "All Sections"%string :: sections /\ NoDup sections
     /\ forall r, In r (rows df) ->
                  In (cell_at (columns df) r "dashboard_section") sections)
  /\ forall o,
       In o options ->
       exists shown,
         apply_filters df o (Some "All Metrics"%string) = Ok shown
         /\ match o with
            | None => rows shown = []
            | Some s =>
                if String.eqb s "All Sections" then shown = df
                else
                  rows shown
                  = filter
                      (fun r =>
                         cell_eqb (cell_at (columns df) r "dashboard_section")
                           (Some s)) (rows df)
                  /\ rows shown <> []
            end.
Proof.
  unfold filter_options.
  destruct (column df "dashboard_section") as [items|] eqn:E; [|discriminate].
  cbn [bind]. intros [= <-]. split.
  - exists (unique items). split; [reflexivity|].
    split; [apply unique_from_NoDup|].
    intros r Hr. apply unique_from_In. split; [|tauto].
    revert E. unfold column, cell_at.
    destruct (index_of "dashboard_section" (columns df)) as [i|];
      [|discriminate].
    intros [= <-]. now apply (in_map (fun r => nth i r None)).
  - intros o Ho. unfold apply_filters.
    destruct o as [s|]; cbn [cell_eqb negb bind].
    + destruct (String.eqb_spec s "All Sections") as [->|Hs];
        cbn [negb bind]; [now exists df|].
      destruct Ho as [Ho|Ho]; [congruence|].
      apply unique_from_In in Ho. destruct Ho as [Ho _].
      destruct (select_eq_value _ _ _ _ E Ho) as (shown & Es & Hne & _).
      exists shown. rewrite Es. cbn [bind]. split; [reflexivity|].
      split; [|assumption]. revert Es. unfold select_eq, cell_at.
      destruct (index_of "dashboard_section" (columns df)); [|discriminate].
      now intros [= <-].
    + destruct Ho as [Ho|Ho]; [discriminate|].
      apply unique_from_In in Ho. destruct Ho as [Ho _].
      destruct (select_eq_value _ _ _ _ E Ho) as (shown & Es & Hn).
      exists shown. rewrite Es. now split.
Qed.

Lemma section_options_select_witness :
  (exists sections,
     [Some "All Sections"%string; Some "Member Care"%string;
      Some "Recruitment"%string]
     = Some "All Sections"%string :: sections /\ NoDup sections
     /\ forall r, In r (rows (loaded [noted_submission; plain_submission])) ->
                  In (cell_at SUBMISSION_COLUMNS r "dashboard_section")
                    sections)
  /\ forall o,
       In o [Some "All Sections"%string; Some "Member Care"%string;
             Some "Recruitment"%string] ->
       exists shown,
         apply_filters (loaded [noted_submission; plain_submission]) o
           (Some "All Metrics"%string) = Ok shown
         /\ match o with
            | None => rows shown = []
            | Some s =>
                if String.eqb s "All Sections"
                then shown = loaded [noted_submission; plain_submission]
                else
                  rows shown
                  = filter
                      (fun r =>
                         cell_eqb
                           (cell_at SUBMISSION_COLUMNS r "dashboard_section")
                           (Some s))
                      (rows (loaded [noted_submission; plain_submission]))
                  /\ rows shown <> []
            end.
Proof.
  apply (section_options_select
           (loaded [noted_submission; plain_submission])).
  reflexivity.
Defined.

(* ----------------------------------------------------------------- *)
(** *** The page as a whole (lines 342-394) *)

Lemma column_present df name :
  In name (columns df) -> exists items, column df name = Ok items.
Proof.
  intros H. unfold column. destruct (index_of_In _ _ H) as [i ->]. eauto.
Qed.

Lemma select_eq_present df name v :
  In name (columns df) -> exists df', select_eq df name v = Ok df'.
Proof.
  intros H. unfold select_eq. destruct (index_of_In _ _ H) as [i ->]. eauto.
Qed.

Lemma apply_filters_present df s m :
  In "dashboard_section"%string (columns df) ->
  In "metric_name"%string (columns df) ->
  exists df', apply_filters df s m = Ok df'.
Proof.
  intros Hs Hm. unfold apply_filters.
  destruct (negb (cell_eqb s (Some "All Sections"%string))).
  - destruct (select_eq_present df _ s Hs) as [df1 E1]. rewrite E1.
    cbn [bind]. destruct (select_eq_rows _ _ _ _ E1) as (C1 & _).
    destruct (negb (cell_eqb m (Some "All Metrics"%string))); [|eauto].
    apply select_eq_present. now rewrite C1.
  - cbn [bind].
    destruct (negb (cell_eqb m (Some "All Metrics"%string))); [|eauto].
    now apply select_eq_present.
Qed.

Lemma sort_values_rows df name items :
  column df name = Ok items ->
  exists sorted,
    sort_values_descending df name = Ok sorted
    /\ columns sorted = columns df
    /\ Permutation (rows df) (rows sorted).
Proof.
  intros H. unfold sort_values_descending. rewrite H. cbn [bind].
  eexists. split; [reflexivity|]. cbn [columns rows].
  split; [reflexivity|].
  destruct (column_rows _ _ _ H) as (i & _ & ->).
  destruct (nargsort_descending_spec
              (map (fun r => nth i r None) (rows df))) as (P & _).
  rewrite length_map in P.
  rewrite <- (map_nth_seq [] (rows df)) at 1. now apply Permutation_map.
Qed.

(** On a store with records, written nine cells to the row and free of
    carriage returns, the page never fails, whatever the two filters
    are set to, and its three parts agree: the number in the heading is
    the number of rows of the table, and the text behind the download
    button splits into the nine labels and then, row for row in the order
    of the table, the texts of the rows shown.  These rows are rows of the
    store; the file is left as it was. *)
Theorem view_submissions_agrees (w : World) (df : DataFrame) (s m : cell) :
  snd (load_submissions w) = Ok df ->
  columns df = SUBMISSION_COLUMNS ->
  rows df <> [] ->
  rectangular df -> free_of_CR df ->
  exists shown table,
    view_submissions s m w
    = (w, Ok (Showing (List.length (rows shown)) table (to_csv shown)))
    /\ columns shown = SUBMISSION_COLUMNS
    /\ (exists keep, Permutation (filter keep (rows df)) (rows shown))
    /\ select_columns shown DISPLAY_COLUMNS = Ok table
    /\ List.length (rows table) = List.length (rows shown)
    /\ tokenize (to_csv shown)
       = Ok (SUBMISSION_COLUMNS :: map (map cell_text) (rows shown)).
Proof.
  intros Hload Hcols Hrows [Hwide Hrect] [Hcc Hcr].
  assert (Hin : forall name, In name SUBMISSION_COLUMNS -> In name (columns df))
    by (now rewrite Hcols).
  destruct (apply_filters_present df s m) as [filtered Ef];
    try (apply Hin, str_in_In; reflexivity).
  destruct (apply_filters_rows _ _ _ _ Ef) as (Cf & keep & Rf).
  destruct (column_present filtered "timestamp") as [items Ei].
  { rewrite Cf. apply Hin, str_in_In. reflexivity. }
  destruct (sort_values_rows _ _ _ Ei) as (shown & Es & Cs & Ps).
  assert (Hshown : columns shown = SUBMISSION_COLUMNS) by congruence.
  destruct (select_columns shown DISPLAY_COLUMNS) as [table|] eqn:Et.
  2:{ unfold select_columns in Et. rewrite Hshown in Et. discriminate. }
  exists shown, table.
  assert (Hsub : forall r, In r (rows shown) -> In r (rows df)).
  { intros r Hr. apply (Permutation_in _ (Permutation_sym Ps)) in Hr.
    rewrite Rf in Hr. now apply filter_In in Hr. }
  split; [|split; [assumption|split; [|split; [assumption|split]]]].
  - unfold view_submissions, io_bind. rewrite load_submissions_eq in *.
    cbn [snd] in Hload. rewrite Hload.
    destruct (rows df) as [|r0 rs] eqn:Er; [contradiction|].
    cbn [List.length Nat.ltb Nat.leb]. unfold filter_options.
    destruct (column_present df "dashboard_section") as [x ->];
      [apply Hin, str_in_In; reflexivity|].
    destruct (column_present df "metric_name") as [y ->];
      [apply Hin, str_in_In; reflexivity|].
    cbn [bind]. rewrite Ef. cbn [bind]. rewrite Es. cbn [bind].
    now rewrite Et.
  - exists keep. now rewrite <- Rf.
  - revert Et. unfold select_columns.
    destruct (positions_of DISPLAY_COLUMNS (columns shown)); [|discriminate].
    cbn [bind]. intros [= <-]. cbn [rows]. apply length_map.
  - rewrite <- Hshown. apply tokenize_to_csv.
    + split; [rewrite Hshown; cbn; lia|].
      rewrite Forall_forall in *. intros r Hr.
      rewrite Hshown, <- Hcols. now apply Hrect, Hsub.
    + split; [now rewrite Hshown|].
      rewrite Forall_forall in *. intros r Hr. now apply Hcr, Hsub.
Qed.

Lemma view_submissions_agrees_witness :
  exists shown table,
    view_submissions (Some "Recruitment"%string) (Some "All Metrics"%string)
      {| submissions_file :=
           Some (to_csv (frame_of_submissions
                           [noted_submission; plain_submission])) |}
    = ({| submissions_file :=
            Some (to_csv (frame_of_submissions
                            [noted_submission; plain_submission])) |},
       Ok (Showing (List.length (rows shown)) table (to_csv shown)))
    /\ columns shown = SUBMISSION_COLUMNS
    /\ (exists keep,
          Permutation
            (filter keep
               (rows (loaded [noted_submission; plain_submission])))
            (rows shown))
    /\ select_columns shown DISPLAY_COLUMNS = Ok table
    /\ List.length (rows table) = List.length (rows shown)
    /\ tokenize (to_csv shown)
       = Ok (SUBMISSION_COLUMNS :: map (map cell_text) (rows shown)).
Proof.
  apply (view_submissions_agrees
           {| submissions_file :=
                Some (to_csv (frame_of_submissions
                                [noted_submission; plain_submission])) |}
           (loaded [noted_submission; plain_submission])).
  - vm_compute. reflexivity.
  - reflexivity.
  - discriminate.
  - split; [cbn; lia|]. repeat constructor.
  - split; [reflexivity|]. repeat constructor.
Defined.

Local Open Scope Z_scope.

Local Open Scope nat_scope.

Lemma index_of_present name cols i : index_of name cols = Some i -> In name cols.
Proof.
  intros H. destruct (index_of_Some _ _ _ H) as [Hi <-]. now apply nth_In.
Qed.

Lemma positions_of_present names cols :
  (forall name, In name names -> In name cols) ->
  exists idx, positions_of names cols = Ok idx.
Proof.
  induction names as [|name names IH]; intros H; cbn [positions_of];
    [eauto|].
  destruct (index_of_In name cols) as [i ->]; [apply H; now left|].
  destruct IH as [idx ->]; [intros x Hx; apply H; now right|].
  cbn [bind]. eauto.
Qed.

Lemma positions_of_missing names cols name :
  In name names -> ~ In name cols ->
  positions_of names cols = Raise KeyError.
Proof.
  induction names as [|name0 names IH]; intros Hin Hn; [contradiction|].
  cbn [positions_of].
  destruct (index_of name0 cols) as [i|] eqn:E; [|reflexivity].
  destruct Hin as [->|Hin]; [now apply index_of_present in E|].
  now rewrite IH.
Qed.

(** On a store with records the page needs the seven columns of its
    table: with them it shows the submissions, whatever the filters are
    set to; if the store lacks one of them, its header cut short or
    written by other hands, the page ends in a [KeyError].  Either way
    the file is left as it was. *)
Theorem view_submissions_needs_columns (w : World) (df : DataFrame)
    (s m : cell) :
  snd (load_submissions w) = Ok df ->
  rows df <> [] ->
  ((forall name, In name DISPLAY_COLUMNS -> In name (columns df)) ->
   exists n table csv,
     view_submissions s m w = (w, Ok (Showing n table csv)))
  /\ ((exists name, In name DISPLAY_COLUMNS /\ ~ In name (columns df)) ->
      view_submissions s m w = (w, Raise KeyError)).
Proof.
  intros Hload Hrows.
  assert (Hview : view_submissions s m w
          = (w,
             _ <- filter_options "All Sections" df "dashboard_section" ;;
             _ <- filter_options "All Metrics" df "metric_name" ;;
             filtered_df <- apply_filters df s m ;;
             filtered_df <- sort_values_descending filtered_df "timestamp" ;;
             table <- select_columns filtered_df DISPLAY_COLUMNS ;;
             Ok (Showing (List.length (rows filtered_df)) table
                   (export filtered_df)))).
  { unfold view_submissions, io_bind. rewrite load_submissions_eq in *.
    cbn [snd] in Hload. rewrite Hload.
    destruct (rows df); [contradiction|reflexivity]. }
  rewrite Hview. clear Hview. unfold filter_options.
  assert (Hd : forall name, str_in name DISPLAY_COLUMNS = true ->
                 In name DISPLAY_COLUMNS) by (intros; now apply str_in_In).
  destruct (index_of "dashboard_section" (columns df)) as [i1|] eqn:E1.
  2:{ pose proof (index_of_None _ _ E1) as N.
      assert (column df "dashboard_section" = Raise KeyError) as ->
        by (unfold column; now rewrite E1).
      split; [|reflexivity]. intros H. exfalso. apply N, H, Hd. reflexivity. }
  assert (column df "dashboard_section"
          = Ok (map (fun r => nth i1 r None) (rows df))) as ->
    by (unfold column; now rewrite E1).
  destruct (index_of "metric_name" (columns df)) as [i2|] eqn:E2.
  2:{ pose proof (index_of_None _ _ E2) as N.
      assert (column df "metric_name" = Raise KeyError) as ->
        by (unfold column; now rewrite E2).
      split; [|reflexivity]. intros H. exfalso. apply N, H, Hd. reflexivity. }
  assert (column df "metric_name"
          = Ok (map (fun r => nth i2 r None) (rows df))) as ->
    by (unfold column; now rewrite E2).
  cbn [bind].
  destruct (apply_filters_present df s m) as [filtered Ef];
    [now apply index_of_present in E1|now apply index_of_present in E2|].
  destruct (apply_filters_rows _ _ _ _ Ef) as (Cf & _).
  rewrite Ef. cbn [bind].
  destruct (index_of "timestamp" (columns df)) as [i3|] eqn:E3.
  2:{ pose proof (index_of_None _ _ E3) as N.
      assert (sort_values_descending filtered "timestamp" = Raise KeyError)
        as -> by (unfold sort_values_descending, column; now rewrite Cf, E3).
      split; [|reflexivity]. intros H. exfalso. apply N, H, Hd. reflexivity. }
  destruct (column_present filtered "timestamp") as [items Ei].
  { rewrite Cf. now apply index_of_present in E3. }
  destruct (sort_values_rows _ _ _ Ei) as (shown & Es & Cs & _).
  rewrite Es. cbn [bind]. unfold select_columns. rewrite Cs, Cf. split.
  - intros H. destruct (positions_of_present _ _ H) as [idx ->].
    cbn [bind]. eauto.
  - intros (name & Hin & Hn). now rewrite (positions_of_missing _ _ _ Hin Hn).
Qed.

Lemma view_submissions_needs_columns_witness :
  ((forall name, In name DISPLAY_COLUMNS ->
                 In name (columns cut_short_frame)) ->
   exists n table csv,
     view_submissions None None cut_short
     = (cut_short, Ok (Showing n table csv)))
  /\ ((exists name, In name DISPLAY_COLUMNS
                    /\ ~ In name (columns cut_short_frame)) ->
      view_submissions None None cut_short = (cut_short, Raise KeyError)).
Proof.
  apply (view_submissions_needs_columns cut_short cut_short_frame).
  - vm_compute. reflexivity.
  - discriminate.
Defined.

Local Open Scope Z_scope.

(* ================================================================= *)
(** * The login and the run of the script *)

Lemma dict_get_KeyError {V : Type} (d : dict V) k e :
  dict_get d k = Raise e -> e = KeyError.
Proof.
  induction d as [|[k' v] d IH]; cbn [dict_get]; [congruence|].
  destruct (String.eqb k k'); [discriminate|exact IH].
Qed.

Lemma dict_in_get {V : Type} (d : dict V) k :
  dict_in k d = true <-> exists v, dict_get d k = Ok v.
Proof.
  induction d as [|[k' v] d IH]; cbn [dict_in dict_get].
  - split; [discriminate|]. intros [v H]. discriminate.
  - destruct (String.eqb k k'); cbn [orb]; [|exact IH].
    split; [eauto|reflexivity].
Qed.

Lemma check_login_eq username password config users :
  dict_get config "users" = Ok users ->
  check_login username password config
  = match dict_get users username with
    | Raise _ => Ok (false, None)
    | Ok user =>
        match dict_get user "password" with
        | Raise e => Raise e
        | Ok stored =>
            if String.eqb password stored then Ok (true, Some user)
            else Ok (false, None)
        end
    end.
Proof.
  intros H. unfold check_login. rewrite H. cbn [bind].
  destruct (dict_in username users) eqn:E.
  - apply dict_in_get in E. destruct E as [user E]. rewrite E. cbn [bind].
    destruct (dict_get user "password") as [stored|e]; [|reflexivity].
    cbn [bind]. now destruct (String.eqb password stored).
  - destruct (dict_get users username) as [user|e] eqn:E'; [|reflexivity].
    assert (dict_in username users = true)
      by (apply dict_in_get; eauto). congruence.
Qed.

(** [check_login] lets in who gives the name of a user of the
    configuration and, letter for letter, the password stored for that
    user, and nobody else; whom it lets in it hands the record of that
    user.  It raises only for a user whose record has no password. *)
Theorem check_login_grants (username password : string) (config : Config)
    (users : dict user_record) :
  dict_get config "users" = Ok users ->
  (forall info,
     check_login username password config = Ok (true, info)
     <-> exists user,
           info = Some user /\ dict_get users username = Ok user
           /\ dict_get user "password" = Ok password)
  /\ (forall info,
        check_login username password config = Ok (false, info) ->
        info = None)
  /\ (forall e,
        check_login username password config = Raise e
        <-> e = KeyError
            /\ exists user,
                 dict_get users username = Ok user
                 /\ dict_get user "password" = Raise KeyError).
Proof.
  intros H. rewrite (check_login_eq _ _ _ _ H).
  destruct (dict_get users username) as [user|e0] eqn:Eu.
  - destruct (dict_get user "password") as [stored|e1] eqn:Ep.
    + destruct (String.eqb_spec password stored) as [->|Hne].
      * split; [|split].
        -- intros info. split.
           ++ intros [= <-]. eauto.
           ++ intros (user' & -> & [= <-] & _). reflexivity.
        -- discriminate.
        -- intros e. split; [discriminate|].
           intros (_ & user' & [= <-] & E). congruence.
      * split; [|split].
        -- intros info. split; [discriminate|].
           intros (user' & _ & [= <-] & E). congruence.
        -- now intros info [= <-].
        -- intros e. split; [discriminate|].
           intros (_ & user' & [= <-] & E). congruence.
    + pose proof (dict_get_KeyError _ _ _ Ep) as ->.
      split; [|split].
      * intros info. split; [discriminate|].
        intros (user' & _ & [= <-] & E). congruence.
      * discriminate.
      * intros e. split.
        -- intros [= <-]. split; [reflexivity|]. eauto.
        -- now intros (-> & _).
  - split; [|split].
    + intros info. split; [discriminate|].
      intros (user' & _ & E & _). discriminate.
    + now intros info [= <-].
    + intros e. split; [discriminate|].
      intros (_ & user' & E & _). discriminate.
Qed.

Lemma check_login_grants_witness :
  (forall info,
     check_login "admin" "Admin" default_config = Ok (true, info)
     <-> exists user,
           info = Some user
           /\ dict_get [("admin", admin_record)] "admin" = Ok user
           /\ dict_get user "password" = Ok "Admin")
  /\ (forall info,
        check_login "admin" "Admin" default_config = Ok (false, info) ->
        info = None)
  /\ (forall e,
        check_login "admin" "Admin" default_config = Raise e
        <-> e = KeyError
            /\ exists user,
                 dict_get [("admin", admin_record)] "admin" = Ok user
                 /\ dict_get user "password" = Raise KeyError).
Proof.
  apply (check_login_grants "admin" "Admin" default_config). reflexivity.
Defined.

(** With the configuration [init_auth] writes when there is none, the one
    login is that of line 229: [check_login] lets in "admin" with the
    password "admin", turns every other pair away, and never raises. *)
Theorem check_login_default (username password : string) :
  check_login username password default_config
  = if String.eqb username "admin" && String.eqb password "admin"
    then Ok (true, Some admin_record) else Ok (false, None).
Proof.
  rewrite (check_login_eq username password default_config
             [("admin", admin_record)] eq_refl).
  cbn [dict_get]. destruct (String.eqb username "admin"); [|reflexivity].
  cbn [andb]. unfold admin_record. cbn [dict_get].
  change (String.eqb "password" "password") with true. cbn match.
  reflexivity.
Qed.

(* ----------------------------------------------------------------- *)
(** ** One run of the script *)

Lemma view_submissions_fst s m w : fst (view_submissions s m w) = w.
Proof.
  unfold view_submissions, io_bind. rewrite load_submissions_eq.
  now destruct (match submissions_file w with
                | Some text => read_csv text
                | None => Ok empty_submissions
                end).
Qed.

Lemma check_login_true username password config info :
  check_login username password config = Ok (true, info) -> info <> None.
Proof.
  destruct (dict_get config "users") as [users|e] eqn:E.
  - rewrite (check_login_eq _ _ _ _ E).
    destruct (dict_get users username) as [user|]; [|discriminate].
    destruct (dict_get user "password") as [stored|]; [|discriminate].
    destruct (String.eqb password stored); [|discriminate].
    intros [= <-]. discriminate.
  - unfold check_login. rewrite E. discriminate.
Qed.

(** A run changes the file only when a user who is logged in, and has not
    just clicked "Logout", submits the form of the "Data Entry" page; the
    change is then that of the handler of the form, run for the name and
    the e-mail address of that user.  No login, logout, or view of the
    submissions writes. *)
Theorem run_script_writes_only_on_submit (auth_config : Config)
    (session : option SessionState) (i : Widgets) (env : Env) (w : World) :
  fst (run_script auth_config session i env w) <> w ->
  authenticated (session_of session) = true
  /\ logout_clicked i = false
  /\ page_choice i = "Data Entry"
  /\ submitted i = true
  /\ exists user name email,
       user_info (session_of session) = Some user
       /\ dict_get user "name" = Ok name
       /\ dict_get user "email" = Ok email
       /\ fst (run_script auth_config session i env w)
          = fst (handle_submit {| user_name := name; user_email := email |}
                   (form_input i) env w).
Proof.
  unfold run_script.
  destruct (authenticated (session_of session)); cbn [negb].
  2:{ destruct (login_clicked i); [|(intros H; now elim H)].
      destruct (check_login _ _ auth_config) as [[[] info]|e];
        (intros H; now elim H). }
  destruct (user_info (session_of session)) as [user|];
    [|(intros H; now elim H)].
  destruct (dict_get user "name") as [name|e] eqn:En;
    [|(intros H; now elim H)].
  destruct (logout_clicked i); [(intros H; now elim H)|].
  destruct (String.eqb_spec (page_choice i) "Data Entry") as [Hp|_].
  - destruct (dict_get user "email") as [email|e] eqn:Ee;
      [|(intros H; now elim H)].
    destruct (submitted i); [|(intros H; now elim H)].
    intros _. repeat split; try assumption.
    exists user, name, email. repeat split; try assumption.
    now destruct (handle_submit {| user_name := name; user_email := email |}
                    (form_input i) env w) as [w' [p|e]].
  - destruct (String.eqb (page_choice i) "View Submissions");
      [|(intros H; now elim H)].
    pose proof (view_submissions_fst (filter_section_choice i)
                  (filter_metrics_choice i) w) as Hv.
    destruct (view_submissions (filter_section_choice i)
                (filter_metrics_choice i) w) as [w' [v|e]]; cbn [fst] in *;
      congruence.
Qed.

Lemma run_script_writes_only_on_submit_witness :
  authenticated (session_of admin_session) = true
  /\ logout_clicked submitting = false
  /\ page_choice submitting = "Data Entry"
  /\ submitted submitting = true
  /\ exists user name email,
       user_info (session_of admin_session) = Some user
       /\ dict_get user "name" = Ok name
       /\ dict_get user "email" = Ok email
       /\ fst (run_script default_config admin_session submitting some_env
                 no_file)
          = fst (handle_submit {| user_name := name; user_email := email |}
                   (form_input submitting) some_env no_file).
Proof.
  apply (run_script_writes_only_on_submit default_config admin_session
           submitting some_env no_file).
  vm_compute. discriminate.
Defined.

(** While nobody is logged in a run shows neither the form nor the
    submissions and leaves the file alone, whatever the widgets hold; the
    session it leaves is logged in exactly when the login form was
    submitted with a name and a password that [check_login] lets in, and
    then for the user [check_login] found. *)
Theorem run_script_logged_out (auth_config : Config)
    (session : option SessionState) (i : Widgets) (env : Env) (w : World) :
  authenticated (session_of session) = false ->
  fst (run_script auth_config session i env w) = w
  /\ ~ shows_data (snd (run_script auth_config session i env w))
  /\ forall s' sc,
       snd (run_script auth_config session i env w) = Rendered s' sc ->
       (authenticated s' = true
        <-> login_clicked i = true
            /\ check_login (username_input i) (password_input i) auth_config
               = Ok (true, user_info s')).
Proof.
  intros H. unfold run_script. rewrite H. cbn [negb].
  destruct (login_clicked i).
  - destruct (check_login _ _ auth_config) as [[[] info]|e];
      cbn [fst snd shows_data].
    + split; [reflexivity|]. split; [tauto|].
      intros s' sc [= <- <-]. cbn [authenticated user_info]. tauto.
    + split; [reflexivity|]. split; [tauto|].
      intros s' sc [= <- <-]. rewrite H.
      split; [discriminate|]. intros [_ E]. discriminate.
    + split; [reflexivity|]. split; [tauto|]. discriminate.
  - cbn [fst snd shows_data]. split; [reflexivity|]. split; [tauto|].
    intros s' sc [= <- <-]. rewrite H. split; [discriminate|].
    intros [E _]. discriminate.
Qed.

Lemma run_script_logged_out_witness :
  fst (run_script default_config None logging_in some_env no_file) = no_file
  /\ ~ shows_data
         (snd (run_script default_config None logging_in some_env no_file))
  /\ forall s' sc,
       snd (run_script default_config None logging_in some_env no_file)
       = Rendered s' sc ->
       (authenticated s' = true
        <-> login_clicked logging_in = true
            /\ check_login (username_input logging_in)
                 (password_input logging_in) default_config
               = Ok (true, user_info s')).
Proof.
  apply (run_script_logged_out default_config None logging_in some_env
           no_file).
  reflexivity.
Defined.

(** The two fields of the session stay in step: if a session that is
    logged in has the record of its user, so has the session a run leaves,
    and the run does not fail for the lack of that record.  A session
    begins that way (lines 206-208). *)
Theorem run_script_keeps_session_ok (auth_config : Config)
    (session : option SessionState) (i : Widgets) (env : Env) (w : World) :
  session_ok (session_of session) ->
  snd (run_script auth_config session i env w) <> Failed TypeError
  /\ forall s' sc,
       snd (run_script auth_config session i env w) = Rendered s' sc ->
       session_ok s'.
Proof.
  unfold session_ok, run_script. intros Hok.
  destruct (authenticated (session_of session)) eqn:Ha; cbn [negb].
  - specialize (Hok eq_refl).
    destruct (user_info (session_of session)) as [user|] eqn:Hu;
      [|contradiction].
    assert (Hs : authenticated (session_of session) = true ->
                 user_info (session_of session) <> None)
      by (intros _; congruence).
    destruct (dict_get user "name") as [name|e];
      [|split; [discriminate|discriminate]].
    destruct (logout_clicked i).
    { split; [discriminate|]. intros s' sc [= <- <-]. discriminate. }
    destruct (String.eqb (page_choice i) "Data Entry").
    + destruct (dict_get user "email") as [email|e];
        [|split; discriminate].
      destruct (submitted i).
      * destruct (handle_submit {| user_name := name; user_email := email |}
                    (form_input i) env w) as [w' [p|e]];
          cbn [snd]; split; try discriminate.
        now intros s' sc [= <- <-].
      * split; [discriminate|]. now intros s' sc [= <- <-].
    + destruct (String.eqb (page_choice i) "View Submissions").
      * destruct (view_submissions (filter_section_choice i)
                    (filter_metrics_choice i) w) as [w' [v|e]];
          cbn [snd]; split; try discriminate.
        now intros s' sc [= <- <-].
      * split; [discriminate|]. now intros s' sc [= <- <-].
  - destruct (login_clicked i).
    + destruct (check_login _ _ auth_config) as [[[] info]|e] eqn:E;
        cbn [snd]; split; try discriminate.
      * intros s' sc [= <- <-] _. cbn [user_info].
        now apply check_login_true in E.
      * intros s' sc [= <- <-]. congruence.
    + split; [discriminate|]. intros s' sc [= <- <-]. congruence.
Qed.

Lemma run_script_keeps_session_ok_witness :
  snd (run_script default_config None logging_in some_env no_file)
  <> Failed TypeError
  /\ forall s' sc,
       snd (run_script default_config None logging_in some_env no_file)
       = Rendered s' sc ->
       session_ok s'.
Proof.
  apply (run_script_keeps_session_ok default_config None logging_in
           some_env no_file).
  intros H. discriminate H.
Defined.

(* ================================================================= *)
(** * Blanks around a number *)

Lemma map_string_app f s t :
  map_string f (s ++ t) = map_string f s ++ map_string f t.
Proof.
  induction s as [|c s IH]; [reflexivity|]. cbn [append map_string].
  now rewrite IH.
Qed.

Lemma space_plain c :
  is_space c = true ->
  space_to_ascii c = c /\ Ascii.eqb c "_" = false /\ is_digit c = false.
Proof.
  destruct c as [[] [] [] [] [] [] [] []]; intros H;
    try discriminate H; repeat split.
Qed.

Lemma map_space_to_ascii_spaces s :
  all_chars is_space s = true -> map_string space_to_ascii s = s.
Proof.
  induction s as [|c s IH]; [reflexivity|]. cbn [all_chars map_string].
  intros [Hc Hs]%andb_prop. rewrite IH by assumption.
  now destruct (space_plain c Hc) as (-> & _).
Qed.

Lemma strip_underscores_spaces s : forall prev,
  all_chars is_space s = true -> Ascii.eqb prev "_" = false ->
  strip_underscores prev s = Some s.
Proof.
  induction s as [|c s IH]; intros prev Hs Hprev;
    cbn [strip_underscores]; [now rewrite Hprev|].
  cbn [all_chars] in Hs. apply andb_prop in Hs. destruct Hs as [Hc Hs].
  destruct (space_plain c Hc) as (_ & Hu & _).
  rewrite Hu, Hprev. cbn [andb]. now rewrite IH.
Qed.

(** The character before matters to [strip_underscores] only as a digit
    or an underscore. *)
Lemma strip_underscores_prev p q s :
  is_digit p = false -> Ascii.eqb p "_" = false ->
  is_digit q = false -> Ascii.eqb q "_" = false ->
  strip_underscores p s = strip_underscores q s.
Proof.
  intros Hp Hp' Hq Hq'. destruct s as [|c s]; cbn [strip_underscores].
  - now rewrite Hp', Hq'.
  - now rewrite Hp, Hp', Hq, Hq'.
Qed.

Lemma strip_underscores_before pre s : forall prev,
  all_chars is_space pre = true ->
  is_digit prev = false -> Ascii.eqb prev "_" = false ->
  strip_underscores prev (pre ++ s)
  = option_map (append pre) (strip_underscores prev s).
Proof.
  induction pre as [|c pre IH]; intros prev Hpre Hd Hu.
  - cbn [append]. now destruct (strip_underscores prev s).
  - cbn [all_chars] in Hpre. apply andb_prop in Hpre.
    destruct Hpre as [Hc Hpre].
    destruct (space_plain c Hc) as (_ & Hcu & Hcd).
    change (String c pre ++ s) with (String c (pre ++ s)).
    cbn [strip_underscores]. rewrite Hcu, Hu. cbn [andb].
    rewrite IH by assumption.
    rewrite (strip_underscores_prev c prev s) by assumption.
    now destruct (strip_underscores prev s).
Qed.

Lemma strip_underscores_after post s : forall prev,
  all_chars is_space post = true ->
  strip_underscores prev (s ++ post)
  = option_map (fun t => t ++ post) (strip_underscores prev s).
Proof.
  induction s as [|c s IH]; intros prev Hpost.
  - cbn [append strip_underscores].
    destruct (Ascii.eqb prev "_") eqn:Hu.
    + destruct post as [|c post]; cbn [strip_underscores];
        [now rewrite Hu|].
      cbn [all_chars] in Hpost. apply andb_prop in Hpost.
      destruct Hpost as [Hc _].
      destruct (space_plain c Hc) as (_ & -> & ->). now rewrite Hu.
    + now rewrite strip_underscores_spaces.
  - change (String c s ++ post) with (String c (s ++ post)).
    cbn [strip_underscores]. rewrite IH by assumption.
    destruct (Ascii.eqb c "_").
    + now destruct (is_digit prev).
    + destruct (Ascii.eqb prev "_" && negb (is_digit c)); [reflexivity|].
      now destruct (strip_underscores c s).
Qed.

Lemma lstrip_spaces pre s :
  all_chars is_space pre = true -> lstrip (pre ++ s) = lstrip s.
Proof.
  unfold lstrip. induction pre as [|c pre IH]; [reflexivity|].
  cbn [all_chars append drop_while]. intros [-> Hpre]%andb_prop.
  now apply IH.
Qed.

Lemma rev_string_onto_app s : forall acc,
  rev_string_onto s acc = rev_string s ++ acc.
Proof.
  unfold rev_string. induction s as [|c s IH]; intros acc; [reflexivity|].
  cbn [rev_string_onto]. rewrite IH, (IH (String c "")).
  now rewrite append_assoc.
Qed.

Lemma rev_string_app s t : rev_string (s ++ t) = rev_string t ++ rev_string s.
Proof.
  induction s as [|c s IH].
  - cbn [append]. now rewrite append_empty_r.
  - change (String c s ++ t) with (String c (s ++ t)). unfold rev_string.
    cbn [rev_string_onto]. rewrite !rev_string_onto_app.
    rewrite IH, append_empty_r. now rewrite append_assoc.
Qed.

Lemma drop_while_app_all p s t :
  all_chars p s = true -> drop_while p (s ++ t) = drop_while p t.
Proof.
  induction s as [|c s IH]; [reflexivity|].
  cbn [all_chars append drop_while]. intros [-> Hs]%andb_prop.
  now apply IH.
Qed.

Lemma rstrip_keep1_spaces c r post :
  all_chars is_space post = true ->
  rstrip_keep1 (String c (r ++ post)) = rstrip_keep1 (String c r).
Proof.
  intros H. cbn [rstrip_keep1]. rewrite rev_string_app.
  rewrite drop_while_app_all; [reflexivity|]. now rewrite all_chars_rev.
Qed.

Lemma lstrip_after s post :
  all_chars is_space post = true ->
  lstrip (s ++ post)
  = match lstrip s with
    | EmptyString => EmptyString
    | t => t ++ post
    end.
Proof.
  intros H. unfold lstrip. induction s as [|c s IH].
  - cbn [append drop_while]. now apply drop_while_all.
  - change (String c s ++ post) with (String c (s ++ post)).
    cbn [drop_while]. destruct (is_space c); [exact IH|reflexivity].
Qed.

(** [float] does not see the white space around a text. *)
Lemma py_float_spaces pre post value :
  all_chars is_space pre = true -> all_chars is_space post = true ->
  py_float (pre ++ value ++ post) = py_float value.
Proof.
  intros Hpre Hpost. unfold py_float.
  rewrite !map_string_app, (map_space_to_ascii_spaces pre),
    (map_space_to_ascii_spaces post) by assumption.
  rewrite strip_underscores_before, strip_underscores_after
    by (assumption || reflexivity).
  destruct (strip_underscores (chr 0) (map_string space_to_ascii value))
    as [s|]; [|reflexivity].
  cbn [option_map]. rewrite lstrip_spaces, lstrip_after by assumption.
  destruct (lstrip s) as [|c r]; [reflexivity|].
  change (String c r ++ post) with (String c (r ++ post)).
  now rewrite rstrip_keep1_spaces.
Qed.

(** White space around a number changes nothing: for a metric that is no
    percentage, a text that [float] reads as a finite number is formatted
    the same with blanks, tabs or line breaks before and after it. *)
Theorem format_value_ignores_blanks (pre post value metric_name : string)
    (neg : bool) (m e : Z) :
  all_chars is_space pre = true -> all_chars is_space post = true ->
  str_in metric_name percentage_metrics = false ->
  py_float value = Ok (Finite neg m e) ->
  format_value (pre ++ value ++ post) metric_name
  = format_value value metric_name.
Proof.
  intros Hpre Hpost Hp Hv. rewrite !format_value_branches, Hp.
  unfold format_currency, format_count.
  rewrite py_float_spaces, Hv by assumption. reflexivity.
Qed.

Lemma format_value_ignores_blanks_witness :
  format_value (" " ++ "1234.5" ++ "  ") "Store Sales"
  = format_value "1234.5" "Store Sales".
Proof.
  apply (format_value_ignores_blanks " " "  " "1234.5" "Store Sales"
           false 5429388417957888 (-42)); reflexivity.
Defined.
